(** * dnaio core: a shallow embedding of [src/dnaio/_core.pyx]

    The development follows the source file top to bottom:

    - byte strings and the handful of libc routines the module calls
      ([memchr], [strcspn], [strncmp], [memcmp], [memcpy], [memmove]);
    - [Sequence] / [BytesSequence] and [create_fastq_record];
    - [paired_fastq_heads];
    - [FastqIter] with [_read_into_buffer] and [__next__];
    - [record_ids_match] and its Python entry points.

    Machine integers ([Py_ssize_t], [size_t]) are modelled as [Z]; the one
    place where unsigned wrap-around matters ([id2_length - 1] in
    [record_ids_match]) writes the reduction modulo [2^64] out.  Memory
    blocks are lists of bytes, and the allocation of a block of
    non-negative size is assumed to succeed.

    The second half proves that the buffered parser computes a function of
    the bytes it has not consumed yet ([next_view]), and settles the
    claims C1 to C10 of the specification. *)

From Stdlib Require Import String.
From Stdlib Require Import Strings.Byte.
From Stdlib Require Import List ZArith Lia Bool.
Import ListNotations.

Local Open Scope Z_scope.
Local Open Scope list_scope.

(** ** Byte strings *)

Definition bytes := list byte.

(** Length as the C code sees it, a signed machine integer. *)
Definition len {A : Type} (l : list A) : Z := Z.of_nat (length l).

(** A Python [bytes] literal. *)
Definition bs (s : string) : bytes := list_byte_of_string s.

Definition NUL : byte := x00.
Definition TAB : byte := x09.
Definition LF : byte := x0a.
Definition CR : byte := x0d.
Definition SPACE : byte := x20.
Definition PLUS : byte := x2b.
Definition AT : byte := x40.

(** The value of a byte read as [unsigned char]. *)
Definition byte_val (c : byte) : Z := Z.of_N (Byte.to_N c).

(** [ptr[i]] inside a block whose valid bytes are [l]; positions outside
    the block read as [NUL] (the callers below never rely on that). *)
Definition byte_at (l : bytes) (i : Z) : byte :=
  if i <? 0 then NUL else nth (Z.to_nat i) l NUL.

(** [ptr[start : start + n]], i.e. [PyBytes_FromStringAndSize(ptr + start, n)]. *)
Definition slice (l : bytes) (start n : Z) : bytes :=
  firstn (Z.to_nat n) (skipn (Z.to_nat start) l).

(** [bytes.count(c)]. *)
Definition count (c : byte) (l : bytes) : Z :=
  len (filter (Byte.eqb c) l).

(** [0, 1, ..., n-1] as machine integers. *)
Definition zseq (n : Z) : list Z := map Z.of_nat (seq 0 (Z.to_nat n)).

(** ** libc on byte lists *)

(** Offset of the first [c] in [l], if any. *)
Fixpoint index_of (c : byte) (l : bytes) : option nat :=
  match l with
  | [] => None
  | x :: l' => if Byte.eqb x c then Some O else option_map S (index_of c l')
  end.

(** [memchr(buf + start, c, n)], returned as an offset from [buf]
    ([None] is the NULL pointer). *)
Definition memchr (buf : bytes) (start : Z) (c : byte) (n : Z) : option Z :=
  option_map (fun i => start + Z.of_nat i) (index_of c (slice buf start n)).

(** [memcpy(dst + off, src, len src)]. *)
Definition memcpy (dst : bytes) (off : Z) (src : bytes) : bytes :=
  firstn (Z.to_nat off) dst ++ src ++ skipn (Z.to_nat off + length src) dst.

(** [memmove(buf, buf + start, n)]. *)
Definition memmove (buf : bytes) (start n : Z) : bytes :=
  memcpy buf 0 (slice buf start n).

(** [buf[i] = c]. *)
Definition store (buf : bytes) (i : Z) (c : byte) : bytes := memcpy buf i [c].

(** [strncmp(a, b, n)]: compares at most [n] characters and stops after a
    NUL.  The result is the difference of the first differing pair. *)
Fixpoint strncmp (a b : bytes) (n : nat) : Z :=
  match n with
  | O => 0
  | S n' =>
      let x := hd NUL a in
      let y := hd NUL b in
      if negb (Byte.eqb x y) then byte_val x - byte_val y
      else if Byte.eqb x NUL then 0
      else strncmp (tl a) (tl b) n'
  end.

(** Difference of the first differing pair of two equally long blocks. *)
Fixpoint cmp_bytes (a b : bytes) : Z :=
  match a, b with
  | x :: a', y :: b' =>
      if Byte.eqb x y then cmp_bytes a' b' else byte_val x - byte_val y
  | _, _ => 0
  end.

(** [strcspn(s, reject)] on a NUL-terminated string whose characters
    before the terminator are [s]: the scan also stops at an embedded NUL. *)
Fixpoint strcspn (s reject : bytes) : Z :=
  match s with
  | [] => 0
  | c :: s' =>
      if Byte.eqb c NUL || existsb (Byte.eqb c) reject then 0
      else 1 + strcspn s' reject
  end.

(** ** Python-level values and exceptions *)

(** A [str] is a sequence of code points. *)
Definition str := list N.

(** [PyUnicode_KIND]: the width of the widest code point. *)
Inductive unicode_kind := PyUnicode_1BYTE_KIND | PyUnicode_2BYTE_KIND | PyUnicode_4BYTE_KIND.

Definition PyUnicode_KIND (s : str) : unicode_kind :=
  if forallb (fun c => (c <? 256)%N) s then PyUnicode_1BYTE_KIND
  else if forallb (fun c => (c <? 65536)%N) s then PyUnicode_2BYTE_KIND
  else PyUnicode_4BYTE_KIND.

Definition byte_of_code (c : N) : byte :=
  match Byte.of_N c with Some x => x | None => NUL end.

(** [PyUnicode_1BYTE_DATA], meaningful for strings of 1-byte kind. *)
Definition PyUnicode_1BYTE_DATA (s : str) : bytes := map byte_of_code s.

(** [PyUnicode_New(n, 255)] followed by [memcpy] of [n] bytes, and
    [bytes.decode('latin-1')]. *)
Definition str_of_bytes (l : bytes) : str := map Byte.to_N l.

(** The exceptions the module raises.  [FastqFormatError] keeps its message
    as the template written in the source, together with the latin-1 text
    of each argument handed to [str.format], and the [line] keyword. *)
Inductive exception :=
| StopIteration
| FastqFormatError (message : string) (args : list bytes) (line : Z)
| ValueError (message : string)
| TypeError (message : string)
| AttributeError (message : string)
| MemoryError
| UnicodeEncodeError (codec : string).

(** [s.encode(codec)] for the two codecs the module uses. *)
Definition encode (bound : N) (codec : string) (s : str) : bytes + exception :=
  if forallb (fun c => (c <? bound)%N) s then inl (map byte_of_code s)
  else inr (UnicodeEncodeError codec).

Definition encode_latin1 := encode 256 "latin-1".
Definition encode_ascii := encode 128 "ascii".

(** Modelled from the spec: [shorten] lives in [dnaio/_util.py], which is not
    among the sources; the spec only says the text is shortened to a cap of
    [n] characters.  The usual definition keeps [n - 3] characters and
    appends an ellipsis. *)
Definition shorten (s : bytes) (n : Z) : bytes :=
  if n <? len s then firstn (Z.to_nat (n - 3)) s ++ bs "..." else s.

(** ** Sequence and BytesSequence *)

Record Sequence := mkSequence {
  seq_name : str;
  seq_sequence : str;
  seq_qualities : option str
}.

Record BytesSequence := mkBytesSequence {
  bseq_name : bytes;
  bseq_sequence : bytes;
  bseq_qualities : bytes
}.

(** [create_fastq_record]: one allocation of [total_size] bytes, then the
    pieces are written at a moving cursor. *)
Definition create_fastq_record (name sequence qualities : bytes)
    (name_length sequence_length qualities_length : Z) (two_headers : bool) : bytes :=
  let total_size := name_length + sequence_length + qualities_length + 6 in
  let total_size := if two_headers then total_size + name_length else total_size in
  let retval := repeat NUL (Z.to_nat total_size) in
  let retval := store retval 0 AT in
  let retval := memcpy retval 1 (slice name 0 name_length) in
  let cursor := name_length + 1 in
  let retval := store retval cursor LF in
  let cursor := cursor + 1 in
  let retval := memcpy retval cursor (slice sequence 0 sequence_length) in
  let cursor := cursor + sequence_length in
  let retval := store retval cursor LF in
  let cursor := cursor + 1 in
  let retval := store retval cursor PLUS in
  let cursor := cursor + 1 in
  let '(retval, cursor) :=
    if two_headers
    then (memcpy retval cursor (slice name 0 name_length), cursor + name_length)
    else (retval, cursor) in
  let retval := store retval cursor LF in
  let cursor := cursor + 1 in
  let retval := memcpy retval cursor (slice qualities 0 qualities_length) in
  let cursor := cursor + qualities_length in
  store retval cursor LF.

(** The character data and length [Sequence.fastq_bytes] extracts from one
    attribute: the raw data of a 1-byte string, else the encoded bytes. *)
Definition text_data (enc : str -> bytes + exception) (s : str) : bytes + exception :=
  match PyUnicode_KIND s with
  | PyUnicode_1BYTE_KIND => inl (PyUnicode_1BYTE_DATA s)
  | _ => enc s
  end.

Definition none_encode_message : string :=
  "'NoneType' object has no attribute 'encode'".

(** [Sequence.fastq_bytes].  On a record without qualities the test of
    [PyUnicode_KIND] looks at [None], which is no 1-byte string, and the
    branch taken calls [None.encode]: an [AttributeError]. *)
Definition Sequence_fastq_bytes (self : Sequence) (two_headers : bool) : bytes + exception :=
  match text_data encode_latin1 (seq_name self) with
  | inr e => inr e
  | inl name =>
      match text_data encode_ascii (seq_sequence self) with
      | inr e => inr e
      | inl sequence =>
          match seq_qualities self with
          | None => inr (AttributeError none_encode_message)
          | Some q =>
              match text_data encode_ascii q with
              | inr e => inr e
              | inl qualities =>
                  inl (create_fastq_record name sequence qualities
                         (len name) (len sequence) (len qualities) two_headers)
              end
          end
      end
  end.

(** [BytesSequence.fastq_bytes]. *)
Definition BytesSequence_fastq_bytes (self : BytesSequence) (two_headers : bool) : bytes :=
  create_fastq_record (bseq_name self) (bseq_sequence self) (bseq_qualities self)
    (len (bseq_name self)) (len (bseq_sequence self)) (len (bseq_qualities self))
    two_headers.

(** ** paired_fastq_heads *)

(** How a scan of [memchr] ends. *)
Inductive scan :=
| Found (p : Z)
| NotFound
| OutOfBounds.

(** [memchr(buf + start, c, n)] where [n] is a difference of two pointers
    handed over as a [size_t]: a negative difference [n] arrives as the
    count [2^64 + n].  The scan stops at the first [c]; it comes back with
    NULL when the [n] bytes lie inside the block and hold no [c]; and it
    leaves the block when the block holds no [c] and the count reaches
    past its end.  A result is an offset from [buf]. *)
Definition memchr_size_t (buf : bytes) (start : Z) (c : byte) (n : Z) : scan :=
  let n := if n <? 0 then n + 2 ^ 64 else n in
  let block := skipn (Z.to_nat start) buf in
  match index_of c block with
  | Some i => if Z.of_nat i <? n then Found (start + Z.of_nat i) else NotFound
  | None => if n <=? len block then NotFound else OutOfBounds
  end.

(** The [while True] loop.  [pos1], [pos2], [record_start1] and
    [record_start2] are offsets from [data1] and [data2]; [fuel] bounds the
    number of iterations.  [None] stands for a scan that left its buffer
    (see [paired_fastq_heads]). *)
Fixpoint paired_fastq_heads_loop (fuel : nat) (data1 data2 : bytes)
    (data1_end data2_end pos1 pos2 linebreaks record_start1 record_start2 : Z)
    : option (Z * Z) :=
  match fuel with
  | O => None
  | S fuel' =>
      match memchr_size_t data1 pos1 LF (data1_end - pos1) with
      | OutOfBounds => None
      | NotFound => Some (record_start1, record_start2)
      | Found p1 =>
          let pos1 := p1 + 1 in
          match memchr_size_t data2 pos2 LF (data2_end - pos2) with
          | OutOfBounds => None
          | NotFound => Some (record_start1, record_start2)
          | Found p2 =>
              let pos2 := p2 + 1 in
              let linebreaks := linebreaks + 1 in
              if linebreaks =? 4
              then paired_fastq_heads_loop fuel' data1 data2 data1_end data2_end
                     pos1 pos2 0 pos1 pos2
              else paired_fastq_heads_loop fuel' data1 data2 data1_end data2_end
                     pos1 pos2 linebreaks record_start1 record_start2
          end
      end
  end.

(** [paired_fastq_heads(buf1, buf2, end1, end2)].  Nothing checks the sign
    of [end1] and [end2]: [min] keeps a negative one, and the scans then
    run with a wrapped count.  Every iteration passes at least one byte of
    [buf1], so [length buf1 + 1] iterations suffice; the result is [None]
    when a scan leaves its buffer, where the C code has no defined
    behaviour. *)
Definition paired_fastq_heads (buf1 buf2 : bytes) (end1 end2 : Z) : option (Z * Z) :=
  let data1_end := Z.min end1 (len buf1) in
  let data2_end := Z.min end2 (len buf2) in
  paired_fastq_heads_loop (S (length buf1)) buf1 buf2 data1_end data2_end 0 0 0 0 0.

(** ** FastqIter *)

Inductive sequence_class_t := SequenceClass | BytesSequenceClass | CustomClass.

(** What [__next__] can return: the special first boolean, or a record of
    the selected class.  A custom class is code of the caller: [VCustom]
    stands for the object its call on the three strings returns, and the
    model covers the classes whose call does return.  (A call that raises
    ends [__next__] with that exception before the record is counted.) *)
Inductive value :=
| VBool (b : bool)
| VSequence (r : Sequence)
| VBytesSequence (r : BytesSequence)
| VCustom (name sequence qualities : str).

(** A binary file object: the bytes it has not delivered yet and, for each
    coming call of [read], the most bytes that call will deliver.  A pipe or
    a decompressor may return fewer bytes than asked for, though at least
    one before the end of the stream; an in-memory file never does, and
    its list is empty. *)
Record binary_file := mkFile {
  content : bytes;
  short_reads : list Z
}.

Definition BytesIO (data : bytes) : binary_file := mkFile data [].

Record FastqIter := mkFastqIter {
  buffer_size : Z;
  buffer : bytes;
  bytes_in_buffer : Z;
  sequence_class : sequence_class_t;
  save_as_bytes : bool;
  use_custom_class : bool;
  extra_newline : bool;
  yielded_two_headers : bool;
  eof : bool;
  file : binary_file;
  record_start : Z;
  number_of_records : Z
}.

Definition set_buffer_size (self : FastqIter) (x : Z) : FastqIter :=
  mkFastqIter x (buffer self) (bytes_in_buffer self) (sequence_class self)
    (save_as_bytes self) (use_custom_class self) (extra_newline self)
    (yielded_two_headers self) (eof self) (file self) (record_start self)
    (number_of_records self).

Definition set_buffer (self : FastqIter) (x : bytes) : FastqIter :=
  mkFastqIter (buffer_size self) x (bytes_in_buffer self) (sequence_class self)
    (save_as_bytes self) (use_custom_class self) (extra_newline self)
    (yielded_two_headers self) (eof self) (file self) (record_start self)
    (number_of_records self).

Definition set_bytes_in_buffer (self : FastqIter) (x : Z) : FastqIter :=
  mkFastqIter (buffer_size self) (buffer self) x (sequence_class self)
    (save_as_bytes self) (use_custom_class self) (extra_newline self)
    (yielded_two_headers self) (eof self) (file self) (record_start self)
    (number_of_records self).

Definition set_extra_newline (self : FastqIter) (x : bool) : FastqIter :=
  mkFastqIter (buffer_size self) (buffer self) (bytes_in_buffer self) (sequence_class self)
    (save_as_bytes self) (use_custom_class self) x
    (yielded_two_headers self) (eof self) (file self) (record_start self)
    (number_of_records self).

Definition set_yielded_two_headers (self : FastqIter) (x : bool) : FastqIter :=
  mkFastqIter (buffer_size self) (buffer self) (bytes_in_buffer self) (sequence_class self)
    (save_as_bytes self) (use_custom_class self) (extra_newline self)
    x (eof self) (file self) (record_start self)
    (number_of_records self).

Definition set_eof (self : FastqIter) (x : bool) : FastqIter :=
  mkFastqIter (buffer_size self) (buffer self) (bytes_in_buffer self) (sequence_class self)
    (save_as_bytes self) (use_custom_class self) (extra_newline self)
    (yielded_two_headers self) x (file self) (record_start self)
    (number_of_records self).

Definition set_file (self : FastqIter) (x : binary_file) : FastqIter :=
  mkFastqIter (buffer_size self) (buffer self) (bytes_in_buffer self) (sequence_class self)
    (save_as_bytes self) (use_custom_class self) (extra_newline self)
    (yielded_two_headers self) (eof self) x (record_start self)
    (number_of_records self).

Definition set_record_start (self : FastqIter) (x : Z) : FastqIter :=
  mkFastqIter (buffer_size self) (buffer self) (bytes_in_buffer self) (sequence_class self)
    (save_as_bytes self) (use_custom_class self) (extra_newline self)
    (yielded_two_headers self) (eof self) (file self) x
    (number_of_records self).

Definition set_number_of_records (self : FastqIter) (x : Z) : FastqIter :=
  mkFastqIter (buffer_size self) (buffer self) (bytes_in_buffer self) (sequence_class self)
    (save_as_bytes self) (use_custom_class self) (extra_newline self)
    (yielded_two_headers self) (eof self) (file self) (record_start self)
    x.

(** A call either returns a value or raises; both leave a parser state. *)
Inductive outcome (A : Type) :=
| Return (a : A) (self : FastqIter)
| Raise (e : exception) (self : FastqIter).
Arguments Return {A} a self.
Arguments Raise {A} e self.

Definition state_of {A : Type} (o : outcome A) : FastqIter :=
  match o with Return _ s => s | Raise _ s => s end.

(** [PyMem_Malloc(n)]: a block of [n] bytes.  Its content is unspecified;
    the model fills it with NUL and the parser never reads a byte it has
    not written. *)
Definition PyMem_Malloc (n : Z) : bytes := repeat NUL (Z.to_nat n).

(** [PyMem_Realloc(buf, n)] keeps the old content. *)
Definition PyMem_Realloc (buf : bytes) (n : Z) : bytes :=
  firstn (Z.to_nat n) buf ++ repeat NUL (Z.to_nat n - length buf).

(** The state [__cinit__] builds. *)
Definition FastqIter_init (file : binary_file) (cls : sequence_class_t) (buffer_size : Z)
    : FastqIter :=
  {| buffer_size := buffer_size;
     buffer := PyMem_Malloc buffer_size;
     bytes_in_buffer := 0;
     sequence_class := cls;
     save_as_bytes := match cls with BytesSequenceClass => true | _ => false end;
     use_custom_class := match cls with CustomClass => true | _ => false end;
     extra_newline := false;
     yielded_two_headers := false;
     eof := false;
     file := file;
     record_start := 0;
     number_of_records := 0 |}.

(** [FastqIter.__cinit__].  The buffer is allocated before the size is
    tested: a negative [buffer_size] reaches [PyMem_Malloc] as a count
    above [PY_SSIZE_T_MAX], which it refuses with NULL; a size of 0 is
    granted and then rejected by the test. *)
Definition FastqIter_cinit (file : binary_file) (cls : sequence_class_t) (buffer_size : Z)
    : FastqIter + exception :=
  if buffer_size <? 0 then inr MemoryError
  else if buffer_size <? 1 then inr (ValueError "Starting buffer size too small")
  else inl (FastqIter_init file cls buffer_size).

(** [file.read(n)]: at most [n] bytes, and no more than the file is
    willing to deliver in this call; everything that is left for a negative
    [n].  Returns the chunk and the file after the call. *)
Definition file_read (f : binary_file) (n : Z) : bytes * binary_file :=
  if n <? 0 then (content f, mkFile [] (tl (short_reads f)))
  else
    let limit :=
      match short_reads f with
      | [] => n
      | m :: _ => Z.min n (Z.max 1 m)
      end in
    (firstn (Z.to_nat limit) (content f),
     mkFile (skipn (Z.to_nat limit) (content f)) (tl (short_reads f))).

Definition premature_eof_message : string :=
  "Premature end of file encountered. The incomplete final record was: {!r}".
Definition expected_at_message : string :=
  "Line expected to start with '@', but found {!r}".
Definition expected_plus_message : string :=
  "Line expected to start with '+', but found {!r}".
Definition descriptions_message : string :=
  "Sequence descriptions don't match ('{}' != '{}').
The second sequence description must be either empty or equal to the first description.".
Definition lengths_message : string :=
  "Length of sequence and qualities differ".

(** The first statement of [_read_into_buffer]: double a full buffer that
    holds a single unfinished record, otherwise move the unfinished record
    to the front. *)
Definition make_room (self : FastqIter) : FastqIter :=
  if (record_start self =? 0) && (bytes_in_buffer self =? buffer_size self) then
    (* buffer too small, double it *)
    let self := set_buffer_size self (buffer_size self * 2) in
    set_buffer self (PyMem_Realloc (buffer self) (buffer_size self))
  else
    let remaining_bytes := bytes_in_buffer self - record_start self in
    let self := set_buffer self (memmove (buffer self) (record_start self) remaining_bytes) in
    let self := set_bytes_in_buffer self remaining_bytes in
    set_record_start self 0.

(** [FastqIter._read_into_buffer].  The file always returns a [bytes]
    object, so the [TypeError] of the source cannot arise. *)
Definition _read_into_buffer (self : FastqIter) : outcome unit :=
  let self := make_room self in
  let empty_bytes_in_buffer := buffer_size self - bytes_in_buffer self in
  let '(filechunk, rest) := file_read (file self) empty_bytes_in_buffer in
  let self := set_file self rest in
  let filechunk_size := len filechunk in
  if filechunk_size >? empty_bytes_in_buffer then
    Raise (ValueError "read() returned too much data") self
  else
    let self := set_buffer self (memcpy (buffer self) (bytes_in_buffer self) filechunk) in
    let self := set_bytes_in_buffer self (bytes_in_buffer self + filechunk_size) in
    if filechunk_size =? 0 then
      if bytes_in_buffer self =? 0 then
        Return tt (set_eof self true)
      else if negb (extra_newline self)
              && negb (Byte.eqb (byte_at (buffer self) (bytes_in_buffer self - 1)) LF) then
        let self := set_buffer self (store (buffer self) (bytes_in_buffer self) LF) in
        let self := set_bytes_in_buffer self (bytes_in_buffer self + 1) in
        Return tt (set_extra_newline self true)
      else
        let self :=
          if extra_newline self
          then set_bytes_in_buffer self (bytes_in_buffer self - 1)
          else self in
        let tail := slice (buffer self) (record_start self)
                      (bytes_in_buffer self - record_start self) in
        let lines := count LF tail in
        Raise (FastqFormatError premature_eof_message [shorten tail 500]
                 (number_of_records self * 4 + lines)) self
    else Return tt self.

(** The four [memchr] scans at the top of [__next__]'s loop body:
    [(name_end, sequence_end, second_header_end, qualities_end)], or [None]
    as soon as one scan returns NULL. *)
Definition locate (self : FastqIter) : option (Z * Z * Z * Z) :=
  let buf := buffer self in
  let filled := bytes_in_buffer self in
  match memchr buf (record_start self) LF (filled - record_start self) with
  | None => None
  | Some name_end =>
      let sequence_start := name_end + 1 in
      match memchr buf sequence_start LF (filled - sequence_start) with
      | None => None
      | Some sequence_end =>
          let second_header_start := sequence_end + 1 in
          match memchr buf second_header_start LF (filled - second_header_start) with
          | None => None
          | Some second_header_end =>
              let qualities_start := second_header_end + 1 in
              match memchr buf qualities_start LF (filled - qualities_start) with
              | None => None
              | Some qualities_end =>
                  Some (name_end, sequence_end, second_header_end, qualities_end)
              end
          end
      end
  end.

(** The record object built from the three slices of the buffer. *)
Definition materialize (save_as_bytes use_custom_class : bool)
    (name sequence qualities : bytes) : value :=
  if save_as_bytes then
    VBytesSequence (mkBytesSequence name sequence qualities)
  else if use_custom_class then
    VCustom (str_of_bytes name) (str_of_bytes sequence) (str_of_bytes qualities)
  else
    VSequence (mkSequence (str_of_bytes name) (str_of_bytes sequence)
                 (Some (str_of_bytes qualities))).

Definition chr_message : string := "chr() arg not in range(0x110000)".

(** [chr(c)] for a C [char] [c].  [char] is signed where the module is
    built, so a byte of 0x80 or more is a negative number, which [chr]
    refuses with a [ValueError]; a byte below is its one-character string. *)
Definition chr (c : byte) : bytes + exception :=
  if 128 <=? byte_val c then inr (ValueError chr_message) else inl [c].

(** The rest of the loop body, once the four newlines are found.  The
    argument of the two "expected" messages is [chr] of the offending
    byte; when [chr] raises, its exception leaves [__next__] in place of
    the format error. *)
Definition parse_record (self : FastqIter)
    (name_end sequence_end second_header_end qualities_end : Z) : outcome value :=
  let buf := buffer self in
  let sequence_start := name_end + 1 in
  let second_header_start := sequence_end + 1 in
  let qualities_start := second_header_end + 1 in
  if negb (Byte.eqb (byte_at buf (record_start self)) AT) then
    match chr (byte_at buf (record_start self)) with
    | inr e => Raise e self
    | inl found =>
        Raise (FastqFormatError expected_at_message [found]
                 (number_of_records self * 4)) self
    end
  else if negb (Byte.eqb (byte_at buf second_header_start) PLUS) then
    match chr (byte_at buf second_header_start) with
    | inr e => Raise e self
    | inl found =>
        Raise (FastqFormatError expected_plus_message [found]
                 (number_of_records self * 4 + 2)) self
    end
  else
    let name_start := record_start self + 1 in
    let second_header_start := second_header_start + 1 in
    let name_length := name_end - name_start in
    let sequence_length := sequence_end - sequence_start in
    let second_header_length := second_header_end - second_header_start in
    let qualities_length := qualities_end - qualities_start in
    (* Check for \r\n line-endings and compensate *)
    let name_length :=
      if Byte.eqb (byte_at buf (name_end - 1)) CR then name_length - 1 else name_length in
    let sequence_length :=
      if Byte.eqb (byte_at buf (sequence_end - 1)) CR
      then sequence_length - 1 else sequence_length in
    let second_header_length :=
      if Byte.eqb (byte_at buf (second_header_end - 1)) CR
      then second_header_length - 1 else second_header_length in
    let qualities_length :=
      if Byte.eqb (byte_at buf (qualities_end - 1)) CR
      then qualities_length - 1 else qualities_length in
    if negb (second_header_length =? 0)
       && (negb (name_length =? second_header_length)
           || negb (strncmp (skipn (Z.to_nat second_header_start) buf)
                      (skipn (Z.to_nat name_start) buf)
                      (Z.to_nat second_header_length) =? 0)) then
      Raise (FastqFormatError descriptions_message
               [slice buf name_start (name_end - name_start);
                slice buf second_header_start (second_header_end - second_header_start)]
               (number_of_records self * 4 + 2)) self
    else if negb (qualities_length =? sequence_length) then
      Raise (FastqFormatError lengths_message [] (number_of_records self * 4 + 3)) self
    else if (number_of_records self =? 0) && negb (yielded_two_headers self) then
      (* first yielded value is special *)
      Return (VBool (negb (second_header_length =? 0)))
        (set_yielded_two_headers self true)
    else
      let ret_val :=
        materialize (save_as_bytes self) (use_custom_class self)
          (slice buf name_start name_length)
          (slice buf sequence_start sequence_length)
          (slice buf qualities_start qualities_length) in
      (* Advance record to next position *)
      let self := set_number_of_records self (number_of_records self + 1) in
      let self := set_record_start self (qualities_end + 1) in
      Return ret_val self.

(** The [while True] loop of [__next__]; [None] when [fuel] iterations did
    not reach a [return] or [raise]. *)
Fixpoint next_loop (fuel : nat) (self : FastqIter) : option (outcome value) :=
  match fuel with
  | O => None
  | S fuel' =>
      if eof self then Some (Raise StopIteration self)
      else
        match locate self with
        | None =>
            match _read_into_buffer self with
            | Return _ self' => next_loop fuel' self'
            | Raise e self' => Some (Raise e self')
            end
        | Some (name_end, sequence_end, second_header_end, qualities_end) =>
            Some (parse_record self name_end sequence_end second_header_end qualities_end)
        end
  end.

(** [FastqIter.__next__].  A refill that does not raise takes bytes from the
    file, or sets [eof], or sets [extra_newline]; three iterations more than
    the file has bytes are therefore enough (see [next_view]). *)
Definition __next__ (self : FastqIter) : option (outcome value) :=
  next_loop (length (content (file self)) + 3) self.

(** The events of the specification's pull interface. *)
Inductive event :=
| Header (b : bool)
| Record_ (r : value)
| End
| Error (e : exception).

Definition event_of (o : outcome value) : event :=
  match o with
  | Return (VBool b) _ => Header b
  | Return r _ => Record_ r
  | Raise StopIteration _ => End
  | Raise e _ => Error e
  end.

(** [n] successive calls of [__next__], with the event of each. *)
Fixpoint run (n : nat) (self : FastqIter) : list event :=
  match n with
  | O => []
  | S n' =>
      match __next__ self with
      | None => []
      | Some o => event_of o :: run n' (state_of o)
      end
  end.

(** The parser state after [n] calls. *)
Fixpoint state_after (n : nat) (self : FastqIter) : FastqIter :=
  match n with
  | O => self
  | S n' =>
      match __next__ self with
      | None => self
      | Some o => state_after n' (state_of o)
      end
  end.

(** ** record_ids_match *)

Inductive operand := Header1 | Header2.

(** One byte read: which header, and at which index. *)
Definition access := (operand * Z)%type.

(** A computation that reads header bytes: the indices it read, and its
    result unless a read left its header. *)
Definition traced (A : Type) : Type := (list access * option A)%type.

Definition ret {A : Type} (a : A) : traced A := ([], Some a).

Definition bind {A B : Type} (m : traced A) (k : A -> traced B) : traced B :=
  match m with
  | (t, None) => (t, None)
  | (t, Some a) => let '(t', r) := k a in (t ++ t', r)
  end.

Notation "x <- m ;; k" := (bind m (fun x => k))
  (at level 61, m at next level, right associativity).

(** A header as it lies in memory: its bytes and the terminating NUL. *)
Definition cstr (h : bytes) : bytes := h ++ [NUL].

(** [h[i]] for a header [h] of a Python object: indices [0 .. len h] are
    inside the object, index [len h] holding the terminator. *)
Definition char_at (h : bytes) (i : Z) : option byte :=
  if (0 <=? i) && (i <=? len h) then nth_error (cstr h) (Z.to_nat i) else None.

Definition peek (o : operand) (h : bytes) (i : Z) : traced byte :=
  ([(o, i)], char_at h i).

(** [strcspn] with the bytes it looks at: everything up to and including
    the byte it stops on. *)
Definition strcspn_traced (o : operand) (h reject : bytes) : traced Z :=
  let r := strcspn h reject in
  (map (fun i => (o, i)) (zseq (r + 1)), Some r).

(** [memcmp(header1, header2, n)] reads [n] bytes of both blocks. *)
Definition memcmp (header1 header2 : bytes) (n : Z) : traced Z :=
  (flat_map (fun i => [(Header1, i); (Header2, i)]) (zseq n),
   if (n <=? len header1 + 1) && (n <=? len header2 + 1)
   then Some (cmp_bytes (firstn (Z.to_nat n) (cstr header1))
                (firstn (Z.to_nat n) (cstr header2)))
   else None).

(** Arithmetic on [size_t]. *)
Definition size_t (z : Z) : Z := z mod 2 ^ 64.

(** [b'1' <= c <= b'3'] (the same for signed and unsigned [char]). *)
Definition is_pair_digit (c : byte) : bool :=
  (byte_val x31 <=? byte_val c) && (byte_val c <=? byte_val x33).

(** [record_ids_match(header1, header2, header1_length)]. *)
Definition record_ids_match (header1 header2 : bytes) (header1_length : Z) : traced bool :=
  id2_length <- strcspn_traced Header2 header2 [SPACE; TAB] ;;
  if header1_length <? id2_length then ret false
  else
    end_ <- peek Header1 header1 id2_length ;;
    if negb (Byte.eqb end_ NUL) && negb (Byte.eqb end_ SPACE) && negb (Byte.eqb end_ TAB)
    then ret false
    else
      c1 <- peek Header1 header1 (size_t (id2_length - 1)) ;;
      c2 <- peek Header2 header2 (size_t (id2_length - 1)) ;;
      let id1endswithnumber := is_pair_digit c1 in
      let id2endswithnumber := is_pair_digit c2 in
      let id2_length :=
        if id1endswithnumber && id2endswithnumber
        then size_t (id2_length - 1) else id2_length in
      r <- memcmp header1 header2 id2_length ;;
      ret (r =? 0).

(** The indices read, and the value returned. *)
Definition reads {A : Type} (m : traced A) : list access := fst m.
Definition result {A : Type} (m : traced A) : option A := snd m.

(** An access is in bounds when it falls on a byte of its header or on the
    terminator. *)
Definition in_bounds (header1 header2 : bytes) (a : access) : Prop :=
  match fst a with
  | Header1 => 0 <= snd a <= len header1
  | Header2 => 0 <= snd a <= len header2
  end.

(** [record_names_match_bytes(header1, header2)]. *)
Definition record_names_match_bytes (header1 header2 : bytes) : traced bool :=
  record_ids_match header1 header2 (len header1).

(** [BytesSequence.is_mate]. *)
Definition BytesSequence_is_mate (self other : BytesSequence) : traced bool :=
  record_ids_match (bseq_name self) (bseq_name other) (len (bseq_name self)).

(** [record_names_match(header1, header2)] on two [str]. *)
Definition record_names_match (header1 header2 : str) : traced bool + exception :=
  match text_data encode_latin1 header1, text_data encode_latin1 header2 with
  | inl h1, inl h2 => inl (record_ids_match h1 h2 (len h1))
  | inr e, _ => inr e
  | _, inr e => inr e
  end.

(** [Sequence.is_mate]: both names must be of 1-byte kind. *)
Definition Sequence_is_mate (self other : Sequence) : traced bool + exception :=
  match PyUnicode_KIND (seq_name self), PyUnicode_KIND (seq_name other) with
  | PyUnicode_1BYTE_KIND, PyUnicode_1BYTE_KIND =>
      inl (record_ids_match (PyUnicode_1BYTE_DATA (seq_name self))
             (PyUnicode_1BYTE_DATA (seq_name other)) (len (seq_name self)))
  | _, _ => inr (ValueError "name should be ASCII-only.")
  end.

(** ** The parser seen from outside

    What a caller can observe of a [FastqIter] does not depend on how the
    input is split between the buffer and the file: only on the bytes not
    yet consumed and on the flags.  The definitions below describe
    [__next__] on that view, line by line; [next_view] proves that the
    buffered code computes exactly this. *)

(** The bytes of the buffer that belong to no returned record yet. *)
Definition pending (self : FastqIter) : bytes :=
  slice (buffer self) (record_start self) (bytes_in_buffer self - record_start self).

Record view := mkView {
  v_stream : bytes;
  v_extra_newline : bool;
  v_yielded : bool;
  v_eof : bool;
  v_records : Z;
  v_save_as_bytes : bool;
  v_use_custom_class : bool
}.

Definition view_of (self : FastqIter) : view :=
  {| v_stream := pending self ++ content (file self);
     v_extra_newline := extra_newline self;
     v_yielded := yielded_two_headers self;
     v_eof := eof self;
     v_records := number_of_records self;
     v_save_as_bytes := save_as_bytes self;
     v_use_custom_class := use_custom_class self |}.

Definition with_stream (v : view) (s : bytes) : view :=
  mkView s (v_extra_newline v) (v_yielded v) (v_eof v) (v_records v)
    (v_save_as_bytes v) (v_use_custom_class v).

(** The line before the first newline, and what follows that newline. *)
Fixpoint split_line (s : bytes) : option (bytes * bytes) :=
  match s with
  | [] => None
  | c :: s' =>
      if Byte.eqb c LF then Some ([], s')
      else match split_line s' with
           | Some (l, r) => Some (c :: l, r)
           | None => None
           end
  end.

(** Four lines and the rest. *)
Definition split_record (s : bytes) : option (bytes * bytes * bytes * bytes * bytes) :=
  match split_line s with
  | None => None
  | Some (l1, r1) =>
      match split_line r1 with
      | None => None
      | Some (l2, r2) =>
          match split_line r2 with
          | None => None
          | Some (l3, r3) =>
              match split_line r3 with
              | None => None
              | Some (l4, r4) => Some (l1, l2, l3, l4, r4)
              end
          end
      end
  end.

(** One trailing carriage return removed. *)
Definition strip_cr (l : bytes) : bytes :=
  if Byte.eqb (last l NUL) CR then removelast l else l.

Inductive checked :=
| Bad (e : exception)
| Good (name sequence qualities : bytes) (second_header_length : Z).

(** The structural checks on the four lines of record number [n]. *)
Definition check_record (n : Z) (l1 l2 l3 l4 : bytes) : checked :=
  let first := hd LF l1 in
  let third := hd LF l3 in
  if negb (Byte.eqb first AT) then
    match chr first with
    | inr e => Bad e
    | inl found => Bad (FastqFormatError expected_at_message [found] (n * 4))
    end
  else if negb (Byte.eqb third PLUS) then
    match chr third with
    | inr e => Bad e
    | inl found => Bad (FastqFormatError expected_plus_message [found] (n * 4 + 2))
    end
  else
    let name := strip_cr (tl l1) in
    let sequence := strip_cr l2 in
    let second_header := strip_cr (tl l3) in
    let qualities := strip_cr l4 in
    if negb (len second_header =? 0)
       && (negb (len name =? len second_header)
           || negb (strncmp second_header name (length second_header) =? 0)) then
      Bad (FastqFormatError descriptions_message [tl l1; tl l3] (n * 4 + 2))
    else if negb (len qualities =? len sequence) then
      Bad (FastqFormatError lengths_message [] (n * 4 + 3))
    else Good name sequence qualities (len second_header).

(** A complete record at the head of the stream: error, header flag or record. *)
Definition emit (v : view) (l1 l2 l3 l4 rest : bytes) : event * view :=
  match check_record (v_records v) l1 l2 l3 l4 with
  | Bad e => (Error e, v)
  | Good name sequence qualities second_header_length =>
      if (v_records v =? 0) && negb (v_yielded v) then
        (Header (negb (second_header_length =? 0)),
         mkView (v_stream v) (v_extra_newline v) true (v_eof v) (v_records v)
           (v_save_as_bytes v) (v_use_custom_class v))
      else
        (Record_ (materialize (v_save_as_bytes v) (v_use_custom_class v)
                    name sequence qualities),
         mkView rest (v_extra_newline v) (v_yielded v) (v_eof v) (v_records v + 1)
           (v_save_as_bytes v) (v_use_custom_class v))
  end.

(** The input ended inside a record. *)
Definition premature (v : view) : event * view :=
  let v := if v_extra_newline v then with_stream v (removelast (v_stream v)) else v in
  (Error (FastqFormatError premature_eof_message [shorten (v_stream v) 500]
            (v_records v * 4 + count LF (v_stream v))), v).

(** One call of [__next__] on the view. *)
Definition pull (v : view) : event * view :=
  if v_eof v then (End, v)
  else
    match split_record (v_stream v) with
    | Some (l1, l2, l3, l4, rest) => emit v l1 l2 l3 l4 rest
    | None =>
        match v_stream v with
        | [] =>
            (End, mkView [] (v_extra_newline v) (v_yielded v) true (v_records v)
                    (v_save_as_bytes v) (v_use_custom_class v))
        | _ :: _ =>
            if negb (v_extra_newline v) && negb (Byte.eqb (last (v_stream v) NUL) LF) then
              let v := mkView (v_stream v ++ [LF]) true (v_yielded v) (v_eof v)
                         (v_records v) (v_save_as_bytes v) (v_use_custom_class v) in
              match split_record (v_stream v) with
              | Some (l1, l2, l3, l4, rest) => emit v l1 l2 l3 l4 rest
              | None => premature v
              end
            else premature v
        end
    end.

Fixpoint pulls (n : nat) (v : view) : list event :=
  match n with
  | O => []
  | S n' => let '(e, v') := pull v in e :: pulls n' v'
  end.

(** The view a call works on: the one it was given, or that view with the
    missing final newline added. *)
Definition with_newline (v : view) : view :=
  mkView (v_stream v ++ [LF]) true (v_yielded v) (v_eof v) (v_records v)
    (v_save_as_bytes v) (v_use_custom_class v).

Definition worked_on (v w : view) : Prop := w = v \/ w = with_newline v.

(** The pending bytes lie inside the buffer. *)
Definition in_buffer (self : FastqIter) : Prop :=
  0 <= record_start self <= bytes_in_buffer self
  /\ bytes_in_buffer self <= len (buffer self).

(** Two states that differ only in their buffering. *)
Definition same_flags (a c : FastqIter) : Prop :=
  sequence_class a = sequence_class c
  /\ save_as_bytes a = save_as_bytes c
  /\ use_custom_class a = use_custom_class c
  /\ extra_newline a = extra_newline c
  /\ yielded_two_headers a = yielded_two_headers c
  /\ eof a = eof c
  /\ number_of_records a = number_of_records c.

(** The invariant of the parser state between calls. *)
Definition wf (self : FastqIter) : Prop :=
  1 <= buffer_size self
  /\ len (buffer self) = buffer_size self
  /\ 0 <= record_start self <= bytes_in_buffer self
  /\ bytes_in_buffer self <= buffer_size self
  /\ (extra_newline self = true -> content (file self) = [])
  /\ 0 <= number_of_records self
  /\ (number_of_records self = 0 -> record_start self = 0).

(** ** Vocabulary of the claims *)

Definition bytes_eqb (a b : bytes) : bool :=
  (length a =? length b)%nat && (cmp_bytes a b =? 0).

(** [h[i]] as the specification reads it: [None] past the end. *)
Definition header_byte (h : bytes) (i : Z) : option byte :=
  if i <? 0 then None else nth_error h (Z.to_nat i).

Definition opt_is (p : byte -> bool) (o : option byte) : bool :=
  match o with Some c => p c | None => false end.

(** Offset of the first byte satisfying [stop], or the length. *)
Fixpoint find_first (stop : byte -> bool) (h : bytes) : Z :=
  match h with
  | [] => 0
  | c :: h' => if stop c then 0 else 1 + find_first stop h'
  end.

(** The five steps of the ID policy, parameterised by what ends an ID
    ([stop]) and by what counts as the end of header1's ID ([tail_ok]). *)
Definition id_policy (stop : byte -> bool) (tail_ok : option byte -> bool)
    (header1 header2 : bytes) (header1_length : Z) : bool :=
  let id2_end := find_first stop header2 in
  if header1_length <? id2_end then false
  else if negb (tail_ok (header_byte header1 id2_end)) then false
  else
    let id2_end :=
      if opt_is is_pair_digit (header_byte header1 (id2_end - 1))
         && opt_is is_pair_digit (header_byte header2 (id2_end - 1))
      then id2_end - 1 else id2_end in
    bytes_eqb (firstn (Z.to_nat id2_end) header1) (firstn (Z.to_nat id2_end) header2).

(** The policy in the words of the specification: the ID ends at the first
    space or tab, and header1 must show end-of-string, space or tab there. *)
Definition IdMatcher_policy_spec : bytes -> bytes -> Z -> bool :=
  id_policy (fun c => Byte.eqb c SPACE || Byte.eqb c TAB)
    (fun o => match o with
              | None => true
              | Some c => Byte.eqb c SPACE || Byte.eqb c TAB
              end).

(** The policy with C strings: a NUL byte inside a header ends it. *)
Definition IdMatcher_policy : bytes -> bytes -> Z -> bool :=
  id_policy (fun c => Byte.eqb c NUL || Byte.eqb c SPACE || Byte.eqb c TAB)
    (fun o => match o with
              | None => true
              | Some c => Byte.eqb c NUL || Byte.eqb c SPACE || Byte.eqb c TAB
              end).

(** A carriage return directly followed by a line feed. *)
Fixpoint contains_crlf (l : bytes) : bool :=
  match l with
  | [] => false
  | c :: t =>
      (Byte.eqb c CR && Byte.eqb (hd NUL t) LF) || contains_crlf t
  end.

Definition ends_with_cr (l : bytes) : bool := Byte.eqb (last l NUL) CR.

(** The three fields of a returned record as bytes. *)
Definition fields_of (r : value) : option (bytes * bytes * bytes) :=
  match r with
  | VBool _ => None
  | VBytesSequence r => Some (bseq_name r, bseq_sequence r, bseq_qualities r)
  | VSequence r =>
      match seq_qualities r with
      | Some q => Some (PyUnicode_1BYTE_DATA (seq_name r),
                        PyUnicode_1BYTE_DATA (seq_sequence r),
                        PyUnicode_1BYTE_DATA q)
      | None => None
      end
  | VCustom n s q =>
      Some (PyUnicode_1BYTE_DATA n, PyUnicode_1BYTE_DATA s, PyUnicode_1BYTE_DATA q)
  end.

(** [r.fastq_bytes(two_headers)] for a record of one of the two built-in
    classes; what a custom class offers is not part of this module. *)
Definition fastq_bytes (r : value) (two_headers : bool) : bytes + exception :=
  match r with
  | VBytesSequence r => inl (BytesSequence_fastq_bytes r two_headers)
  | VSequence r => Sequence_fastq_bytes r two_headers
  | VBool _ => inr (TypeError "bool has no fastq_bytes")
  | VCustom _ _ _ => inr (TypeError "custom class")
  end.

(** A parsed record whose name ends in a carriage return:
    [@r\r\r\nA\n+\n!\n]. *)
Definition cr_name_record : bytes :=
  bs "@r" ++ [CR; CR; LF] ++ bs "A" ++ [LF] ++ bs "+" ++ [LF] ++ bs "!" ++ [LF].

(** A byte that ends an ID for the C code: NUL, space or tab. *)
Definition id_stop (c : byte) : bool :=
  Byte.eqb c NUL || Byte.eqb c SPACE || Byte.eqb c TAB.

(** The FASTQ text of a record, written as a concatenation. *)
Definition fastq_text (name sequence qualities : bytes) (two_headers : bool) : bytes :=
  [AT] ++ name ++ [LF] ++ sequence ++ [LF] ++ [PLUS]
  ++ (if two_headers then name else []) ++ [LF] ++ qualities ++ [LF].

(** Newlines in the first [n] bytes of a buffer. *)
Definition newlines (buf : bytes) (n : Z) : Z := count LF (firstn (Z.to_nat n) buf).

(** A prefix of [n] bytes is empty or ends right after a newline. *)
Definition at_boundary (buf : bytes) (n : Z) : Prop :=
  n = 0 \/ byte_at buf (n - 1) = LF.

(** What [paired_fastq_heads] promises about the pair it returns, for
    buffers scanned up to [e1] and [e2]. *)
Definition heads_post (buf1 buf2 : bytes) (e1 e2 : Z) (r : Z * Z) : Prop :=
  0 <= fst r <= e1 /\ 0 <= snd r <= e2
  /\ newlines buf1 (fst r) = 4 * Z.min (newlines buf1 e1 / 4) (newlines buf2 e2 / 4)
  /\ newlines buf2 (snd r) = 4 * Z.min (newlines buf1 e1 / 4) (newlines buf2 e2 / 4)
  /\ at_boundary buf1 (fst r) /\ at_boundary buf2 (snd r).

(** The truncated input of scenario 5: [@r1\nACGT\n+\n!!]. *)
Definition truncated_record : bytes :=
  bs "@r1" ++ [LF] ++ bs "ACGT" ++ [LF] ++ bs "+" ++ [LF] ++ bs "!!".

(** The minimal record of scenario 1. *)
Definition minimal_record : bytes :=
  bs "@r1" ++ [LF] ++ bs "ACGT" ++ [LF] ++ bs "+" ++ [LF] ++ bs "!!!!" ++ [LF].

(** The stream as the parser completes it at the end of the file: a
    newline is added when the last byte is not one. *)
Definition terminated (s : bytes) : bytes :=
  if Byte.eqb (last s NUL) LF then s else s ++ [LF].

Definition is_header (e : event) : bool :=
  match e with Header _ => true | _ => false end.

Definition is_record (e : event) : bool :=
  match e with Record_ _ => true | _ => false end.

Definition count_headers (l : list event) : nat := length (filter is_header l).

Definition count_records (l : list event) : Z := len (filter is_record l).

(** ** The other methods of Sequence and BytesSequence *)

(** What the methods below can raise: one of the exceptions above, or one
    of two further built-in ones. *)
Inductive method_error :=
| Raised (e : exception)
| IndexError
| NotImplementedError.

Definition length_mismatch_message : string :=
  "In read named {!r}: length of quality sequence ({}) and length of read ({}) do not match".

(** [Sequence.__init__]; [None] when it returns without raising. *)
Definition Sequence_init (name sequence : str) (qualities : option str) : option exception :=
  match qualities with
  | Some q =>
      if negb (len q =? len sequence)
      then Some (ValueError length_mismatch_message)
      else None
  | None => None
  end.

(** The call [Sequence(name, sequence, qualities)]: [__cinit__] sets the
    attributes, then [__init__] runs. *)
Definition Sequence_call (name sequence : str) (qualities : option str)
    : Sequence + exception :=
  let self := mkSequence name sequence qualities in
  match Sequence_init name sequence qualities with
  | Some e => inr e
  | None => inl self
  end.

(** [BytesSequence.__init__]. *)
Definition BytesSequence_init (name sequence qualities : bytes) : option exception :=
  if negb (len qualities =? len sequence)
  then Some (ValueError length_mismatch_message)
  else None.

(** The call [BytesSequence(name, sequence, qualities)]. *)
Definition BytesSequence_call (name sequence qualities : bytes)
    : BytesSequence + exception :=
  let self := mkBytesSequence name sequence qualities in
  match BytesSequence_init name sequence qualities with
  | Some e => inr e
  | None => inl self
  end.

(** [Sequence.__len__] and [BytesSequence.__len__]. *)
Definition Sequence_len (self : Sequence) : Z := len (seq_sequence self).
Definition BytesSequence_len (self : BytesSequence) : Z := len (bseq_sequence self).

(** *** Subscripts

    [Sequence.__getitem__] hands its key to [str.__getitem__].  The key is
    an integer or a slice object whose three fields are integers or
    [None]; the functions below are those of the interpreter
    ([PySlice_Unpack], [PySlice_AdjustIndices], [unicode_subscript]). *)
Inductive key :=
| Index (i : Z)
| Slice (start stop step : option Z).

Definition PY_SSIZE_T_MAX : Z := 2 ^ 63 - 1.
Definition PY_SSIZE_T_MIN : Z := - 2 ^ 63.

(** A Python integer as a [Py_ssize_t], clipped to its range. *)
Definition slice_index (z : Z) : Z := Z.max PY_SSIZE_T_MIN (Z.min PY_SSIZE_T_MAX z).

Definition PySlice_Unpack (start stop step : option Z) : (Z * Z * Z) + method_error :=
  match (match step with
         | None => inl 1
         | Some s =>
             let step := slice_index s in
             if step =? 0 then inr (Raised (ValueError "slice step cannot be zero"))
             else if step <? - PY_SSIZE_T_MAX then inl (- PY_SSIZE_T_MAX)
             else inl step
         end) with
  | inr e => inr e
  | inl step =>
      let start :=
        match start with
        | None => if step <? 0 then PY_SSIZE_T_MAX else 0
        | Some s => slice_index s
        end in
      let stop :=
        match stop with
        | None => if step <? 0 then PY_SSIZE_T_MIN else PY_SSIZE_T_MAX
        | Some s => slice_index s
        end in
      inl (start, stop, step)
  end.

(** One bound brought into the range of a sequence of [length] items. *)
Definition adjust_index (length step i : Z) : Z :=
  if i <? 0 then
    let i := i + length in
    if i <? 0 then (if step <? 0 then -1 else 0) else i
  else if i >=? length then (if step <? 0 then length - 1 else length)
  else i.

(** [PySlice_AdjustIndices]: the adjusted bounds and the number of items. *)
Definition PySlice_AdjustIndices (length start stop step : Z) : Z * Z * Z :=
  let start := adjust_index length step start in
  let stop := adjust_index length step stop in
  let slicelength :=
    if step <? 0 then
      if stop <? start then Z.quot (start - stop - 1) (- step) + 1 else 0
    else
      if start <? stop then Z.quot (stop - start - 1) step + 1 else 0 in
  (start, stop, slicelength).

(** [self[item]] for a sequence of characters; [d] fills the positions
    that do not exist, which the adjusted bounds never reach. *)
Definition seq_getitem {A : Type} (d : A) (self : list A) (item : key)
    : list A + method_error :=
  match item with
  | Index i =>
      let i := if i <? 0 then i + len self else i in
      if (i <? 0) || (i >=? len self) then inr IndexError
      else inl [nth (Z.to_nat i) self d]
  | Slice start stop step =>
      match PySlice_Unpack start stop step with
      | inr e => inr e
      | inl (start, stop, step) =>
          let '(start, stop, slicelength) :=
            PySlice_AdjustIndices (len self) start stop step in
          if slicelength <=? 0 then inl []
          else inl (map (fun i => nth (Z.to_nat (start + i * step)) self d)
                      (zseq slicelength))
      end
  end.

Definition str_getitem : str -> key -> str + method_error := seq_getitem 0%N.

(** [Sequence.__getitem__], for an instance of [Sequence] itself
    ([self.__class__] is then [Sequence]). *)
Definition Sequence_getitem (self : Sequence) (item : key) : Sequence + method_error :=
  match str_getitem (seq_sequence self) item with
  | inr e => inr e
  | inl sequence =>
      match (match seq_qualities self with
             | Some q =>
                 match str_getitem q item with
                 | inl q' => inl (Some q')
                 | inr e => inr e
                 end
             | None => inl None
             end) with
      | inr e => inr e
      | inl qualities =>
          match Sequence_call (seq_name self) sequence qualities with
          | inl r => inl r
          | inr e => inr (Raised e)
          end
      end
  end.

(** *** Comparison and pickling *)

Fixpoint str_eqb (a b : str) : bool :=
  match a, b with
  | [], [] => true
  | x :: a', y :: b' => (x =? y)%N && str_eqb a' b'
  | _, _ => false
  end.

(** [==] on two values that are a [str] or [None]. *)
Definition opt_str_eqb (a b : option str) : bool :=
  match a, b with
  | Some x, Some y => str_eqb x y
  | None, None => true
  | _, _ => false
  end.

(** [Sequence.__richcmp__]; [op] is 2 for [==] and 3 for [!=]. *)
Definition Sequence_richcmp (self other : Sequence) (op : Z) : bool + method_error :=
  if (2 <=? op) && (op <=? 3) then
    let eq := str_eqb (seq_name self) (seq_name other)
              && str_eqb (seq_sequence self) (seq_sequence other)
              && opt_str_eqb (seq_qualities self) (seq_qualities other) in
    if op =? 2 then inl eq else inl (negb eq)
  else inr NotImplementedError.

(** [BytesSequence.__richcmp__]. *)
Definition BytesSequence_richcmp (self other : BytesSequence) (op : Z)
    : bool + method_error :=
  if (2 <=? op) && (op <=? 3) then
    let eq := bytes_eqb (bseq_name self) (bseq_name other)
              && bytes_eqb (bseq_sequence self) (bseq_sequence other)
              && bytes_eqb (bseq_qualities self) (bseq_qualities other) in
    if op =? 2 then inl eq else inl (negb eq)
  else inr NotImplementedError.

(** [Sequence.__reduce__]: the arguments handed to the callable [Sequence]. *)
Definition Sequence_reduce (self : Sequence) : str * str * option str :=
  (seq_name self, seq_sequence self, seq_qualities self).

(** What unpickling does with the pair [__reduce__] returned: it calls
    [Sequence] on the arguments. *)
Definition Sequence_rebuild (args : str * str * option str) : Sequence + exception :=
  let '(name, sequence, qualities) := args in
  Sequence_call name sequence qualities.


(** [fastq_bytes_two_headers] of the two classes. *)
Definition Sequence_fastq_bytes_two_headers (self : Sequence) : bytes + exception :=
  Sequence_fastq_bytes self true.

Definition BytesSequence_fastq_bytes_two_headers (self : BytesSequence) : bytes :=
  BytesSequence_fastq_bytes self true.

(** [FastqIter.__iter__]. *)
Definition FastqIter_iter (self : FastqIter) : FastqIter := self.

(** ** Vocabulary of the further properties *)

(** The [str] flavour of a record: every field decoded as latin-1. *)
Definition decode_value (r : value) : value :=
  match r with
  | VBytesSequence b =>
      VSequence (mkSequence (str_of_bytes (bseq_name b)) (str_of_bytes (bseq_sequence b))
                   (Some (str_of_bytes (bseq_qualities b))))
  | _ => r
  end.

Definition decode_event (e : event) : event :=
  match e with
  | Record_ r => Record_ (decode_value r)
  | _ => e
  end.

(** The arguments a custom class is called with are those of [Sequence]. *)
Definition as_custom (r : value) : value :=
  match r with
  | VSequence s =>
      match seq_qualities s with
      | Some q => VCustom (seq_name s) (seq_sequence s) q
      | None => r
      end
  | _ => r
  end.

Definition as_custom_event (e : event) : event :=
  match e with
  | Record_ r => Record_ (as_custom r)
  | _ => e
  end.

(** A record as four lines ending in [eol]. *)
Definition record_lines (eol : bytes) (two_headers : bool) (r : BytesSequence) : bytes :=
  [AT] ++ bseq_name r ++ eol ++ bseq_sequence r ++ eol
  ++ [PLUS] ++ (if two_headers then bseq_name r else []) ++ eol
  ++ bseq_qualities r ++ eol.

(** No field holds a newline, and the qualities are as long as the sequence. *)
Definition one_line_fields (r : BytesSequence) : Prop :=
  ~ In LF (bseq_name r) /\ ~ In LF (bseq_sequence r) /\ ~ In LF (bseq_qualities r)
  /\ len (bseq_qualities r) = len (bseq_sequence r).

(** Moreover no field ends in a carriage return. *)
Definition plain_fields (r : BytesSequence) : Prop :=
  one_line_fields r
  /\ ends_with_cr (bseq_name r) = false
  /\ ends_with_cr (bseq_sequence r) = false
  /\ ends_with_cr (bseq_qualities r) = false.

(** What iterating over a file of the records [rs] yields, followed by the
    end of the stream as often as one asks. *)
Definition events_of_records (two_headers : bool) (rs : list BytesSequence) : list event :=
  match rs with
  | [] => []
  | r :: _ =>
      Header (two_headers && negb (len (bseq_name r) =? 0))
      :: map (fun r => Record_ (VBytesSequence r)) rs
  end.

Definition is_error (e : event) : bool :=
  match e with Error _ => true | _ => false end.

(** The read ID of a name: what precedes the first space, tab or NUL. *)
Definition read_id (h : bytes) : bytes := firstn (Z.to_nat (find_first id_stop h)) h.

(** Two IDs of one read pair: the same ID, or two IDs that both end in a
    pair number and are the same before it. *)
Definition same_pair (id1 id2 : bytes) : bool :=
  bytes_eqb id1 id2
  || (is_pair_digit (last id1 NUL) && is_pair_digit (last id2 NUL)
      && bytes_eqb (removelast id1) (removelast id2)).

Definition latin1 (s : str) : bool := forallb (fun c => (c <? 256)%N) s.

(** The growth of the buffer: the bytes not consumed yet (counting the
    newline that may still be added) are at most [bound], the buffer has
    its first size [capacity] times a power of two, and at most twice
    [bound] once it has grown. *)
Definition grown (capacity bound : Z) (self : FastqIter) : Prop :=
  len (v_stream (view_of self)) + (if extra_newline self then 0 else 1) <= bound
  /\ (exists j : nat, buffer_size self = capacity * 2 ^ Z.of_nat j)
  /\ buffer_size self <= Z.max capacity (2 * bound).

(** * Properties *)

(** ** Bytes and lists *)

#[local] Arguments Byte.eqb : simpl never.
#[local] Arguments byte_val : simpl never.

Lemma beq_spec (x y : byte) : reflect (x = y) (Byte.eqb x y).
Proof.
  destruct (Byte.eqb x y) eqn:E; constructor.
  - now apply Byte.byte_dec_bl.
  - now apply Byte.eqb_false.
Qed.

Lemma beq_refl (x : byte) : Byte.eqb x x = true.
Proof. now apply Byte.byte_dec_lb. Qed.

Lemma beq_neq (x y : byte) : x <> y -> Byte.eqb x y = false.
Proof. intros H. destruct (beq_spec x y); congruence. Qed.

Lemma byte_val_inj (x y : byte) : byte_val x = byte_val y -> x = y.
Proof.
  unfold byte_val. intros H. apply N2Z.inj in H.
  pose proof (Byte.of_to_N x) as Hx. pose proof (Byte.of_to_N y) as Hy.
  rewrite H in Hx. congruence.
Qed.

Lemma len_nil {A : Type} : len (@nil A) = 0.
Proof. reflexivity. Qed.

Lemma len_cons {A : Type} (x : A) (l : list A) : len (x :: l) = 1 + len l.
Proof. unfold len. simpl length. lia. Qed.

Lemma len_app {A : Type} (l1 l2 : list A) : len (l1 ++ l2) = len l1 + len l2.
Proof. unfold len. rewrite length_app. lia. Qed.

Lemma len_nonneg {A : Type} (l : list A) : 0 <= len l.
Proof. unfold len. lia. Qed.

Lemma len_zero {A : Type} (l : list A) : len l = 0 -> l = [].
Proof. destruct l; [easy | rewrite len_cons; pose proof (len_nonneg l); lia]. Qed.

Ltac len_simpl :=
  repeat (progress (rewrite ?len_app, ?len_cons in * ));
  change (@len byte []) with 0 in *.

(** Reading inside a concatenation. *)

Lemma slice_at (pre x post : bytes) (i n : Z) :
  i = len pre -> n = len x -> slice (pre ++ x ++ post) i n = x.
Proof.
  intros -> ->. unfold slice, len. rewrite !Nat2Z.id.
  rewrite skipn_app, skipn_all, Nat.sub_diag. simpl.
  rewrite firstn_app, firstn_all, Nat.sub_diag. simpl. now rewrite app_nil_r.
Qed.

Lemma slice_prefix_at (pre x post : bytes) (i n : Z) :
  i = len pre -> 0 <= n <= len x ->
  slice (pre ++ x ++ post) i n = firstn (Z.to_nat n) x.
Proof.
  intros -> Hn. unfold slice, len in *. rewrite !Nat2Z.id.
  rewrite skipn_app, skipn_all, Nat.sub_diag. simpl.
  rewrite firstn_app.
  replace (Z.to_nat n - length x)%nat with O by lia. simpl. now rewrite app_nil_r.
Qed.

Lemma byte_at_at (pre post : bytes) (c : byte) (i : Z) :
  i = len pre -> byte_at (pre ++ c :: post) i = c.
Proof.
  intros ->. unfold byte_at, len.
  destruct (Z.ltb_spec (Z.of_nat (length pre)) 0); [lia |].
  rewrite Nat2Z.id, app_nth2, Nat.sub_diag by lia. reflexivity.
Qed.

Lemma skipn_at (pre post : bytes) (i : Z) :
  i = len pre -> skipn (Z.to_nat i) (pre ++ post) = post.
Proof.
  intros ->. unfold len. rewrite Nat2Z.id, skipn_app, skipn_all, Nat.sub_diag.
  reflexivity.
Qed.

Lemma firstn_at (pre post : bytes) (i : Z) :
  i = len pre -> firstn (Z.to_nat i) (pre ++ post) = pre.
Proof.
  intros ->. unfold len. rewrite Nat2Z.id, firstn_app, firstn_all, Nat.sub_diag.
  simpl. now rewrite app_nil_r.
Qed.

Lemma slice_split (l : bytes) (i n : Z) :
  0 <= i -> 0 <= n -> i + n <= len l ->
  l = firstn (Z.to_nat i) l ++ slice l i n ++ skipn (Z.to_nat (i + n)) l.
Proof.
  intros Hi Hn Hl. unfold slice.
  rewrite <- (firstn_skipn (Z.to_nat i) l) at 1. f_equal.
  rewrite <- (firstn_skipn (Z.to_nat n) (skipn (Z.to_nat i) l)) at 1. f_equal.
  rewrite skipn_skipn. f_equal. lia.
Qed.

Lemma len_firstn (l : bytes) (n : Z) :
  0 <= n <= len l -> len (firstn (Z.to_nat n) l) = n.
Proof. unfold len. intros H. rewrite length_firstn. lia. Qed.

Lemma len_slice (l : bytes) (i n : Z) :
  0 <= i -> 0 <= n -> i + n <= len l -> len (slice l i n) = n.
Proof.
  unfold slice, len. intros Hi Hn Hl. rewrite length_firstn, length_skipn. lia.
Qed.

Lemma len_skipn (l : bytes) (n : Z) :
  0 <= n <= len l -> len (skipn (Z.to_nat n) l) = len l - n.
Proof. unfold len. intros H. rewrite length_skipn. lia. Qed.

Lemma len_repeat (c : byte) (n : nat) : len (repeat c n) = Z.of_nat n.
Proof. unfold len. now rewrite repeat_length. Qed.

Lemma len_memcpy (dst src : bytes) (off : Z) :
  0 <= off -> off + len src <= len dst -> len (memcpy dst off src) = len dst.
Proof.
  unfold memcpy, len. intros H1 H2.
  rewrite !length_app, length_firstn, length_skipn. lia.
Qed.

(** [memcpy] overwrites exactly the bytes it is given room for. *)
Lemma memcpy_at (pre old post src : bytes) (off : Z) :
  off = len pre -> len old = len src ->
  memcpy (pre ++ old ++ post) off src = pre ++ src ++ post.
Proof.
  intros -> Hlen. unfold memcpy.
  rewrite firstn_at by reflexivity. f_equal. f_equal.
  unfold len in *. rewrite Nat2Z.id.
  replace (length pre + length src)%nat with (length (pre ++ old)).
  - rewrite app_assoc, skipn_app, skipn_all, Nat.sub_diag. reflexivity.
  - rewrite length_app. lia.
Qed.

Lemma last_app_cons (l : bytes) (c d : byte) : last (l ++ [c]) d = c.
Proof. apply last_last. Qed.

Lemma removelast_last_split (l : bytes) :
  l <> [] -> l = removelast l ++ [last l NUL].
Proof. apply app_removelast_last. Qed.

Lemma byte_at_last (pre l post : bytes) (i : Z) :
  l <> [] -> i = len pre + len l - 1 ->
  byte_at (pre ++ l ++ post) i = last l NUL.
Proof.
  intros Hl ->. rewrite (removelast_last_split l Hl) at 1.
  rewrite <- !app_assoc. simpl. rewrite app_assoc. apply byte_at_at.
  rewrite (removelast_last_split l Hl) at 1. len_simpl. lia.
Qed.

Lemma count_app (c : byte) (l1 l2 : bytes) : count c (l1 ++ l2) = count c l1 + count c l2.
Proof. unfold count. now rewrite filter_app, len_app. Qed.

Lemma count_cons (c x : byte) (l : bytes) :
  count c (x :: l) = (if Byte.eqb c x then 1 else 0) + count c l.
Proof. unfold count. simpl. destruct (Byte.eqb c x); len_simpl; lia. Qed.

Lemma count_nonneg (c : byte) (l : bytes) : 0 <= count c l.
Proof. unfold count. apply len_nonneg. Qed.

Lemma count_zero_notin (c : byte) (l : bytes) : ~ In c l -> count c l = 0.
Proof.
  induction l as [|x l IH]; intros H; [reflexivity |].
  rewrite count_cons, IH by (intros ?; apply H; now right).
  rewrite beq_neq; [lia | intros ->; apply H; now left].
Qed.

(** ** Lines *)

Lemma split_line_Some (s l r : bytes) :
  split_line s = Some (l, r) -> s = l ++ LF :: r /\ ~ In LF l.
Proof.
  revert l r. induction s as [|c s IH]; intros l r H; simpl in H; [discriminate |].
  destruct (beq_spec c LF) as [-> | Hc].
  - inversion H; subst. split; [reflexivity | intros []].
  - destruct (split_line s) as [[l' r'] |] eqn:E; [| discriminate].
    inversion H; subst. destruct (IH _ _ eq_refl) as [-> Hn].
    split; [reflexivity |]. intros [Hin | Hin]; [congruence | contradiction].
Qed.

Lemma split_line_app (l r : bytes) :
  ~ In LF l -> split_line (l ++ LF :: r) = Some (l, r).
Proof.
  induction l as [|c l IH]; intros H; cbn.
  - now rewrite beq_refl.
  - rewrite beq_neq by (intros ->; apply H; now left).
    rewrite IH by (intros ?; apply H; now right). reflexivity.
Qed.

Lemma split_line_None (s : bytes) : split_line s = None <-> ~ In LF s.
Proof.
  induction s as [|c s IH]; simpl.
  - split; [intros _ [] | reflexivity].
  - destruct (beq_spec c LF) as [-> | Hc].
    + split; [discriminate | intros H; exfalso; apply H; now left].
    + destruct (split_line s) as [[l r] |].
      * split; [discriminate |]. intros H. exfalso.
        assert (Hs : ~ In LF s) by (intros ?; apply H; now right).
        apply IH in Hs. discriminate.
      * split; [| reflexivity]. intros _ [Hin | Hin]; [congruence |].
        now apply (proj1 IH).
Qed.

Lemma index_of_split_line (s : bytes) :
  index_of LF s = option_map (fun p => length (fst p)) (split_line s).
Proof.
  induction s as [|c s IH]; simpl; [reflexivity |].
  destruct (Byte.eqb c LF); [reflexivity |].
  rewrite IH. destruct (split_line s) as [[l r] |]; reflexivity.
Qed.

Lemma split_line_extend (s l r t : bytes) :
  split_line s = Some (l, r) -> split_line (s ++ t) = Some (l, r ++ t).
Proof.
  intros H. apply split_line_Some in H. destruct H as [-> Hn].
  rewrite <- app_assoc. simpl. now apply split_line_app.
Qed.

Lemma split_record_Some (s l1 l2 l3 l4 r : bytes) :
  split_record s = Some (l1, l2, l3, l4, r) ->
  s = l1 ++ LF :: l2 ++ LF :: l3 ++ LF :: l4 ++ LF :: r
  /\ ~ In LF l1 /\ ~ In LF l2 /\ ~ In LF l3 /\ ~ In LF l4.
Proof.
  unfold split_record. intros H.
  destruct (split_line s) as [[a ra] |] eqn:E1; [| discriminate].
  destruct (split_line ra) as [[b rb] |] eqn:E2; [| discriminate].
  destruct (split_line rb) as [[c rc] |] eqn:E3; [| discriminate].
  destruct (split_line rc) as [[d rd] |] eqn:E4; [| discriminate].
  inversion H; subst.
  apply split_line_Some in E1, E2, E3, E4.
  destruct E1 as [-> ?], E2 as [-> ?], E3 as [-> ?], E4 as [-> ?]. auto.
Qed.

Lemma split_record_app (l1 l2 l3 l4 r : bytes) :
  ~ In LF l1 -> ~ In LF l2 -> ~ In LF l3 -> ~ In LF l4 ->
  split_record (l1 ++ LF :: l2 ++ LF :: l3 ++ LF :: l4 ++ LF :: r)
  = Some (l1, l2, l3, l4, r).
Proof.
  intros H1 H2 H3 H4. unfold split_record.
  rewrite split_line_app by assumption. rewrite split_line_app by assumption.
  rewrite split_line_app by assumption. rewrite split_line_app by assumption.
  reflexivity.
Qed.

Lemma split_record_extend (s l1 l2 l3 l4 r t : bytes) :
  split_record s = Some (l1, l2, l3, l4, r) ->
  split_record (s ++ t) = Some (l1, l2, l3, l4, r ++ t).
Proof.
  intros H. apply split_record_Some in H.
  destruct H as (-> & H1 & H2 & H3 & H4).
  replace ((l1 ++ LF :: l2 ++ LF :: l3 ++ LF :: l4 ++ LF :: r) ++ t)
    with (l1 ++ LF :: l2 ++ LF :: l3 ++ LF :: l4 ++ LF :: r ++ t).
  - now apply split_record_app.
  - repeat (rewrite <- app_assoc; simpl). reflexivity.
Qed.

(** ** create_fastq_record *)

Lemma memcpy_eq (buf pre old post src : bytes) (off : Z) :
  buf = pre ++ old ++ post -> off = len pre -> len old = len src ->
  memcpy buf off src = pre ++ src ++ post.
Proof. intros -> Ho Hl. now apply memcpy_at. Qed.

Lemma store_eq (buf pre post : bytes) (old c : byte) (off : Z) :
  buf = pre ++ old :: post -> off = len pre ->
  store buf off c = pre ++ c :: post.
Proof.
  intros -> Ho. unfold store.
  apply (memcpy_eq _ pre [old] post [c]); auto.
Qed.

Lemma slice_all (l : bytes) : slice l 0 (len l) = l.
Proof.
  rewrite <- (app_nil_r l) at 1. change (l ++ []) with ([] ++ l ++ []).
  now apply slice_at.
Qed.


Lemma len_zeros (n : nat) : len (repeat NUL n) = Z.of_nat n.
Proof. apply len_repeat. Qed.

Ltac write_side :=
  first [ reflexivity
        | rewrite <- ?app_assoc; reflexivity
        | rewrite ?len_zeros; len_simpl; unfold len; lia ].

Lemma create_fastq_record_text (name sequence qualities : bytes) (two_headers : bool) :
  create_fastq_record name sequence qualities
    (len name) (len sequence) (len qualities) two_headers
  = fastq_text name sequence qualities two_headers.
Proof.
  unfold create_fastq_record, fastq_text. cbv zeta. rewrite !slice_all.
  set (h := if two_headers then name else []).
  assert (Hinit :
    repeat NUL (Z.to_nat (if two_headers
                          then len name + len sequence + len qualities + 6 + len name
                          else len name + len sequence + len qualities + 6))
    = NUL :: repeat NUL (length name) ++ NUL :: repeat NUL (length sequence)
      ++ NUL :: NUL :: repeat NUL (length h) ++ NUL :: repeat NUL (length qualities)
      ++ [NUL]).
  { replace (Z.to_nat (if two_headers
                       then len name + len sequence + len qualities + 6 + len name
                       else len name + len sequence + len qualities + 6))
      with (1 + (length name + (1 + (length sequence + (1 + (1 + (length h
            + (1 + (length qualities + 1)))))))))%nat
      by (subst h; unfold len; destruct two_headers; cbn [length]; lia).
    rewrite !repeat_app. reflexivity. }
  rewrite Hinit. clear Hinit.
  rewrite (store_eq _ [] _ NUL AT 0) by write_side.
  rewrite (memcpy_eq _ [AT] (repeat NUL (length name)) _ name 1) by write_side.
  rewrite (store_eq _ ([AT] ++ name) _ NUL LF (len name + 1)) by write_side.
  rewrite (memcpy_eq _ (([AT] ++ name) ++ [LF]) (repeat NUL (length sequence)) _ sequence
             (len name + 1 + 1))
    by write_side.
  rewrite (store_eq _ ((([AT] ++ name) ++ [LF]) ++ sequence) _ NUL LF
             (len name + 1 + 1 + len sequence)) by write_side.
  rewrite (store_eq _ (((([AT] ++ name) ++ [LF]) ++ sequence) ++ [LF]) _ NUL PLUS
             (len name + 1 + 1 + len sequence + 1))
    by write_side.
  set (pre := ((((([AT] ++ name) ++ [LF]) ++ sequence) ++ [LF]) ++ [PLUS])).
  assert (Hpre : len pre = len name + 1 + 1 + len sequence + 1 + 1)
    by (subst pre; len_simpl; lia).
  rewrite <- Hpre.
  destruct two_headers; subst h; cbv beta iota.
  - rewrite (memcpy_eq _ pre (repeat NUL (length name))
               (NUL :: repeat NUL (length qualities) ++ [NUL]) name (len pre))
      by (subst pre; write_side).
    rewrite (store_eq _ (pre ++ name) _ NUL LF (len pre + len name))
      by (subst pre; write_side).
    rewrite (memcpy_eq _ ((pre ++ name) ++ [LF]) (repeat NUL (length qualities)) [NUL]
               qualities (len pre + len name + 1))
      by (subst pre; write_side).
    rewrite (store_eq _ (((pre ++ name) ++ [LF]) ++ qualities) [] NUL LF
               (len pre + len name + 1 + len qualities))
      by (subst pre; write_side).
    subst pre. rewrite <- ?app_assoc. reflexivity.
  - cbn [length repeat].
    rewrite (store_eq _ pre _ NUL LF (len pre)) by (subst pre; write_side).
    rewrite (memcpy_eq _ (pre ++ [LF]) (repeat NUL (length qualities)) [NUL]
               qualities (len pre + 1))
      by (subst pre; write_side).
    rewrite (store_eq _ ((pre ++ [LF]) ++ qualities) [] NUL LF
               (len pre + 1 + len qualities))
      by (subst pre; write_side).
    subst pre. rewrite <- ?app_assoc. reflexivity.
Qed.

Lemma len_fastq_text (name sequence qualities : bytes) (two_headers : bool) :
  len (fastq_text name sequence qualities two_headers)
  = len name + len sequence + len qualities + 6
    + (if two_headers then len name else 0).
Proof. unfold fastq_text. destruct two_headers; len_simpl; lia. Qed.

Lemma contains_crlf_app (a c : bytes) :
  contains_crlf (a ++ c)
  = contains_crlf a || (ends_with_cr a && Byte.eqb (hd NUL c) LF) || contains_crlf c.
Proof.
  unfold ends_with_cr. induction a as [|x a IH].
  - cbn. reflexivity.
  - cbn [app contains_crlf]. rewrite IH. destruct a as [|y a].
    + cbn. destruct (Byte.eqb x CR), (Byte.eqb (hd NUL c) LF), (contains_crlf c);
        reflexivity.
    + cbn [hd app last contains_crlf].
      destruct (Byte.eqb x CR && Byte.eqb y LF); [reflexivity |].
      cbn [orb]. reflexivity.
Qed.

Lemma text_data_1byte (enc : str -> bytes + exception) (s : str) :
  forallb (fun c => (c <? 256)%N) s = true ->
  text_data enc s = inl (map byte_of_code s).
Proof. intros H. unfold text_data, PyUnicode_KIND. rewrite H. reflexivity. Qed.

Lemma forallb_ascii_1byte (s : str) :
  forallb (fun c => (c <? 128)%N) s = true -> forallb (fun c => (c <? 256)%N) s = true.
Proof.
  rewrite !forallb_forall. intros H x Hx. specialize (H x Hx).
  apply N.ltb_lt in H. apply N.ltb_lt. lia.
Qed.

(** ** record_ids_match *)


Lemma strcspn_find_first (h : bytes) :
  strcspn h [SPACE; TAB] = find_first id_stop h.
Proof.
  induction h as [|c h IH]; cbn [strcspn find_first existsb]; [reflexivity |].
  unfold id_stop at 1. rewrite IH.
  destruct (Byte.eqb c NUL), (Byte.eqb c SPACE), (Byte.eqb c TAB); reflexivity.
Qed.

Lemma find_first_bounds (stop : byte -> bool) (h : bytes) :
  0 <= find_first stop h <= len h.
Proof.
  induction h as [|c h IH]; cbn [find_first]; len_simpl; [lia |].
  destruct (stop c); lia.
Qed.

Lemma header_byte_cons (c : byte) (h : bytes) (i : Z) :
  0 <= i -> header_byte (c :: h) (1 + i) = header_byte h i.
Proof.
  intros Hi. unfold header_byte.
  destruct (Z.ltb_spec (1 + i) 0), (Z.ltb_spec i 0); try lia.
  replace (Z.to_nat (1 + i)) with (S (Z.to_nat i)) by lia. reflexivity.
Qed.

(** At the end of the ID, a header shows a stop byte or nothing at all. *)
Lemma find_first_stops (stop : byte -> bool) (h : bytes) :
  match header_byte h (find_first stop h) with
  | None => find_first stop h = len h
  | Some c => stop c = true
  end.
Proof.
  induction h as [|c h IH]; cbn [find_first]; [reflexivity |].
  destruct (stop c) eqn:E; [exact E |].
  rewrite header_byte_cons by apply find_first_bounds.
  destruct (header_byte h (find_first stop h)); [exact IH |].
  len_simpl. lia.
Qed.

Lemma char_at_inside (h : bytes) (i : Z) :
  0 <= i < len h -> char_at h i = header_byte h i /\ header_byte h i <> None.
Proof.
  intros Hi. unfold char_at, header_byte, cstr, len in *.
  destruct (Z.leb_spec 0 i), (Z.leb_spec i (Z.of_nat (length h))),
    (Z.ltb_spec i 0); try lia.
  cbn [andb]. rewrite nth_error_app1 by lia. split; [reflexivity |].
  apply nth_error_Some. lia.
Qed.

Lemma char_at_terminator (h : bytes) :
  char_at h (len h) = Some NUL /\ header_byte h (len h) = None.
Proof.
  unfold char_at, header_byte, cstr, len.
  destruct (Z.leb_spec 0 (Z.of_nat (length h))),
    (Z.leb_spec (Z.of_nat (length h)) (Z.of_nat (length h))),
    (Z.ltb_spec (Z.of_nat (length h)) 0); try lia.
  cbn [andb]. rewrite Nat2Z.id. split.
  - rewrite nth_error_app2, Nat.sub_diag by lia. reflexivity.
  - apply nth_error_None. lia.
Qed.

Lemma char_at_in (h : bytes) (i : Z) :
  0 <= i <= len h -> exists c, char_at h i = Some c.
Proof.
  intros Hi. destruct (Z.eq_dec i (len h)) as [-> | Hne].
  - exists NUL. apply char_at_terminator.
  - destruct (char_at_inside h i ltac:(lia)) as [E Hn]. rewrite E.
    destruct (header_byte h i); [eauto | congruence].
Qed.

Lemma cmp_bytes_refl (a : bytes) : cmp_bytes a a = 0.
Proof. induction a as [|x a IH]; cbn [cmp_bytes]; [| rewrite beq_refl]; auto. Qed.

Lemma cmp_bytes_eq (a c : bytes) :
  length a = length c -> cmp_bytes a c = 0 -> a = c.
Proof.
  revert c. induction a as [|x a IH]; intros [|y c] Hl H; try discriminate; auto.
  cbn [cmp_bytes] in H. destruct (beq_spec x y) as [-> | Hxy].
  - f_equal. apply IH; [now inversion Hl | exact H].
  - exfalso. apply Hxy, byte_val_inj. lia.
Qed.

Lemma bytes_eqb_refl (a : bytes) : bytes_eqb a a = true.
Proof.
  unfold bytes_eqb. rewrite Nat.eqb_refl, cmp_bytes_refl. reflexivity.
Qed.

Lemma bytes_eqb_eq (a c : bytes) : bytes_eqb a c = true <-> a = c.
Proof.
  split; [| intros ->; apply bytes_eqb_refl].
  unfold bytes_eqb. intros H. apply andb_true_iff in H. destruct H as [H1 H2].
  apply Nat.eqb_eq in H1. apply Z.eqb_eq in H2. now apply cmp_bytes_eq.
Qed.

Lemma firstn_cstr (h : bytes) (k : Z) :
  0 <= k <= len h -> firstn (Z.to_nat k) (cstr h) = firstn (Z.to_nat k) h.
Proof.
  intros Hk. unfold cstr, len in *. rewrite firstn_app.
  replace (Z.to_nat k - length h)%nat with O by lia.
  cbn [firstn]. apply app_nil_r.
Qed.

Lemma result_bind {A B : Type} (m : traced A) (k : A -> traced B) :
  result (bind m k) = match result m with
                      | Some a => result (k a)
                      | None => None
                      end.
Proof.
  destruct m as [t [a |]]; cbn; [| reflexivity].
  destruct (k a); reflexivity.
Qed.

Lemma reads_bind {A B : Type} (m : traced A) (k : A -> traced B) :
  reads (bind m k) = match result m with
                     | Some a => reads m ++ reads (k a)
                     | None => reads m
                     end.
Proof.
  destruct m as [t [a |]]; cbn; [| reflexivity].
  destruct (k a); reflexivity.
Qed.

Lemma size_t_small (z : Z) : 0 <= z < 2 ^ 64 -> size_t z = z.
Proof. intros H. unfold size_t. now apply Z.mod_small. Qed.

Lemma result_memcmp (h1 h2 : bytes) (k : Z) :
  0 <= k -> k <= len h1 -> k <= len h2 ->
  result (memcmp h1 h2 k)
  = Some (cmp_bytes (firstn (Z.to_nat k) h1) (firstn (Z.to_nat k) h2)).
Proof.
  intros H0 H1 H2. unfold memcmp, result. cbn [snd].
  destruct (Z.leb_spec k (len h1 + 1)), (Z.leb_spec k (len h2 + 1)); try lia.
  cbn [andb]. rewrite !firstn_cstr by lia. reflexivity.
Qed.

Lemma bytes_eqb_firstn (h1 h2 : bytes) (k : Z) :
  0 <= k -> k <= len h1 -> k <= len h2 ->
  bytes_eqb (firstn (Z.to_nat k) h1) (firstn (Z.to_nat k) h2)
  = (cmp_bytes (firstn (Z.to_nat k) h1) (firstn (Z.to_nat k) h2) =? 0).
Proof.
  intros H0 H1 H2. unfold bytes_eqb, len in *.
  rewrite !length_firstn.
  replace (Nat.min (Z.to_nat k) (length h1)) with (Z.to_nat k) by lia.
  replace (Nat.min (Z.to_nat k) (length h2)) with (Z.to_nat k) by lia.
  now rewrite Nat.eqb_refl.
Qed.

(** Wherever the ID of header2 is not empty, the code computes the policy. *)
Lemma record_ids_match_policy (header1 header2 : bytes) (header1_length : Z) :
  header1_length <= len header1 ->
  len header2 < 2 ^ 64 ->
  0 < find_first id_stop header2 ->
  result (record_ids_match header1 header2 header1_length)
  = Some (IdMatcher_policy header1 header2 header1_length).
Proof.
  intros Hl1 Hl2 Hpos.
  pose proof (find_first_bounds id_stop header2) as Hb.
  unfold record_ids_match, IdMatcher_policy, id_policy.
  rewrite result_bind. unfold strcspn_traced at 1. cbn [result snd].
  rewrite strcspn_find_first.
  fold id_stop. set (id2 := find_first id_stop header2) in *.
  destruct (Z.ltb_spec header1_length id2) as [Hlt | Hge]; [reflexivity |].
  rewrite result_bind. unfold peek at 1. cbn [result snd].
  assert (Htail : exists c, char_at header1 id2 = Some c /\
            match header_byte header1 id2 with
            | Some c0 => Byte.eqb c0 NUL || Byte.eqb c0 SPACE || Byte.eqb c0 TAB
            | None => true
            end = id_stop c).
  { destruct (Z.eq_dec id2 (len header1)) as [E | E].
    - rewrite E. destruct (char_at_terminator header1) as [-> ->].
      exists NUL. split; reflexivity.
    - destruct (char_at_inside header1 id2 ltac:(lia)) as [-> Hn].
      destruct (header_byte header1 id2) as [c |]; [| congruence].
      exists c. split; reflexivity. }
  destruct Htail as (c & -> & ->).
  replace (negb (Byte.eqb c NUL) && negb (Byte.eqb c SPACE) && negb (Byte.eqb c TAB))
    with (negb (id_stop c))
    by (unfold id_stop; destruct (Byte.eqb c NUL), (Byte.eqb c SPACE), (Byte.eqb c TAB);
        reflexivity).
  destruct (id_stop c); cbn [negb]; [| reflexivity].
  rewrite size_t_small by lia.
  rewrite result_bind. unfold peek at 1. cbn [result snd].
  destruct (char_at_inside header1 (id2 - 1) ltac:(lia)) as [-> Hn1].
  destruct (header_byte header1 (id2 - 1)) as [c1 |]; [| congruence].
  rewrite result_bind. unfold peek at 1. cbn [result snd].
  destruct (char_at_inside header2 (id2 - 1) ltac:(lia)) as [-> Hn2].
  destruct (header_byte header2 (id2 - 1)) as [c2 |]; [| congruence].
  cbn [opt_is]. rewrite result_bind.
  destruct (is_pair_digit c1 && is_pair_digit c2).
  - rewrite result_memcmp by lia. cbn [ret result snd].
    now rewrite bytes_eqb_firstn by lia.
  - rewrite result_memcmp by lia. cbn [ret result snd].
    now rewrite bytes_eqb_firstn by lia.
Qed.

(** Identical headers match, as long as their ID is not empty. *)
Lemma IdMatcher_policy_refl (h : bytes) : IdMatcher_policy h h (len h) = true.
Proof.
  unfold IdMatcher_policy, id_policy. fold id_stop.
  pose proof (find_first_bounds id_stop h) as Hb.
  pose proof (find_first_stops id_stop h) as Hs.
  destruct (Z.ltb_spec (len h) (find_first id_stop h)); [lia |].
  destruct (header_byte h (find_first id_stop h)) as [c |].
  - unfold id_stop in Hs. rewrite Hs. cbn [negb]. apply bytes_eqb_refl.
  - cbn [negb]. apply bytes_eqb_refl.
Qed.

(** An empty ID in header2 sends the suffix test before the start of
    header1, whenever header1 passes the end-of-ID test at index 0. *)
Lemma record_ids_match_empty_id (header1 header2 : bytes) (header1_length : Z) :
  0 <= header1_length ->
  len header1 < 2 ^ 64 - 1 ->
  find_first id_stop header2 = 0 ->
  id_stop (hd NUL header1) = true ->
  record_ids_match header1 header2 header1_length
  = ([(Header2, 0); (Header1, 0); (Header1, 2 ^ 64 - 1)], None).
Proof.
  intros Hn Hsmall H0 Hstop.
  assert (Hc : char_at header1 0 = Some (hd NUL header1)).
  { unfold char_at, cstr. destruct header1; reflexivity. }
  assert (Hoob : char_at header1 (2 ^ 64 - 1) = None).
  { unfold char_at.
    destruct (Z.leb_spec (2 ^ 64 - 1) (len header1)); [lia |].
    rewrite andb_false_r. reflexivity. }
  assert (Hneg : negb (Byte.eqb (hd NUL header1) NUL)
                 && negb (Byte.eqb (hd NUL header1) SPACE)
                 && negb (Byte.eqb (hd NUL header1) TAB) = false).
  { unfold id_stop in Hstop.
    destruct (Byte.eqb (hd NUL header1) NUL), (Byte.eqb (hd NUL header1) SPACE),
      (Byte.eqb (hd NUL header1) TAB); try reflexivity; discriminate. }
  unfold record_ids_match, strcspn_traced, peek, bind.
  rewrite strcspn_find_first, H0.
  destruct (Z.ltb_spec header1_length 0); [lia |].
  rewrite Hc, Hneg.
  change (size_t (0 - 1)) with (2 ^ 64 - 1). rewrite Hoob.
  reflexivity.
Qed.

Lemma Forall_reads_bind {A B : Type} (P : access -> Prop) (m : traced A)
    (k : A -> traced B) :
  Forall P (reads m) ->
  (forall a, result m = Some a -> Forall P (reads (k a))) ->
  Forall P (reads (bind m k)).
Proof.
  intros Hm Hk. rewrite reads_bind. destruct (result m) as [a |]; [| exact Hm].
  apply Forall_app. split; [exact Hm | now apply Hk].
Qed.

Lemma in_zseq (n i : Z) : In i (zseq n) -> 0 <= i < n.
Proof.
  unfold zseq. rewrite in_map_iff. intros (k & <- & Hk).
  apply in_seq in Hk. lia.
Qed.

(** With a non-empty ID in header2, every byte read lies inside its header. *)
Lemma record_ids_match_in_bounds (header1 header2 : bytes) (header1_length : Z) :
  header1_length <= len header1 ->
  len header2 < 2 ^ 64 ->
  0 < find_first id_stop header2 ->
  Forall (in_bounds header1 header2)
    (reads (record_ids_match header1 header2 header1_length)).
Proof.
  intros Hl1 Hl2 Hpos.
  pose proof (find_first_bounds id_stop header2) as Hb.
  unfold record_ids_match.
  apply Forall_reads_bind.
  { unfold strcspn_traced, reads. cbn [fst]. rewrite strcspn_find_first.
    apply Forall_forall. intros a Ha. apply in_map_iff in Ha.
    destruct Ha as (i & <- & Hi). apply in_zseq in Hi.
    unfold in_bounds. cbn [fst snd]. lia. }
  intros id2 Hid. unfold strcspn_traced, result in Hid. cbn [snd] in Hid.
  rewrite strcspn_find_first in Hid. inversion Hid; subst id2. clear Hid.
  set (id2 := find_first id_stop header2) in *.
  destruct (Z.ltb_spec header1_length id2); [unfold ret, reads; constructor |].
  apply Forall_reads_bind.
  { unfold peek, reads. cbn [fst]. apply Forall_cons; [| apply Forall_nil].
    unfold in_bounds. cbn [fst snd]. lia. }
  intros c _.
  destruct (negb (Byte.eqb c NUL) && negb (Byte.eqb c SPACE) && negb (Byte.eqb c TAB));
    [unfold ret, reads; constructor |].
  rewrite size_t_small by lia.
  apply Forall_reads_bind.
  { unfold peek, reads. cbn [fst]. apply Forall_cons; [| apply Forall_nil].
    unfold in_bounds. cbn [fst snd]. lia. }
  intros c1 _.
  apply Forall_reads_bind.
  { unfold peek, reads. cbn [fst]. apply Forall_cons; [| apply Forall_nil].
    unfold in_bounds. cbn [fst snd]. lia. }
  intros c2 _.
  apply Forall_reads_bind; [| intros; unfold ret, reads; constructor].
  unfold memcmp, reads. cbn [fst].
  apply Forall_forall. intros a Ha. apply in_flat_map in Ha.
  destruct Ha as (i & Hi & Ha). apply in_zseq in Hi.
  destruct (is_pair_digit c1 && is_pair_digit c2);
    destruct Ha as [<- | [<- | []]]; unfold in_bounds; cbn [fst snd]; lia.
Qed.

(** ** memchr *)

Lemma index_of_Some (s : bytes) (i : nat) :
  index_of LF s = Some i ->
  exists l r, s = l ++ LF :: r /\ ~ In LF l /\ length l = i.
Proof.
  rewrite index_of_split_line.
  destruct (split_line s) as [[l r] |] eqn:E; [| discriminate].
  cbn. intros H. inversion H; subst.
  apply split_line_Some in E. destruct E as [-> Hn]. now exists l, r.
Qed.

Lemma index_of_None (s : bytes) : index_of LF s = None -> ~ In LF s.
Proof.
  rewrite index_of_split_line.
  destruct (split_line s) as [[l r] |] eqn:E; [discriminate |].
  intros _. now apply split_line_None.
Qed.

Lemma memchr_Some (buf : bytes) (pos n p : Z) :
  memchr buf pos LF n = Some p ->
  exists l r, slice buf pos n = l ++ LF :: r /\ ~ In LF l /\ p = pos + len l.
Proof.
  unfold memchr. destruct (index_of LF (slice buf pos n)) as [i |] eqn:E; [| discriminate].
  cbn. intros H. inversion H; subst.
  apply index_of_Some in E. destruct E as (l & r & Hs & Hn & <-).
  now exists l, r.
Qed.

Lemma memchr_None (buf : bytes) (pos n : Z) :
  memchr buf pos LF n = None -> ~ In LF (slice buf pos n).
Proof.
  unfold memchr. destruct (index_of LF (slice buf pos n)) eqn:E; [discriminate |].
  intros _. now apply index_of_None.
Qed.

(** A buffer cut around one of its slices. *)
Lemma buffer_cut (buf : bytes) (pos n : Z) :
  0 <= pos -> 0 <= n -> pos + n <= len buf ->
  exists pre post,
    buf = pre ++ slice buf pos n ++ post /\ len pre = pos
    /\ pre = firstn (Z.to_nat pos) buf.
Proof.
  intros H1 H2 H3. exists (firstn (Z.to_nat pos) buf), (skipn (Z.to_nat (pos + n)) buf).
  split; [now apply slice_split |]. split; [| reflexivity].
  apply len_firstn. lia.
Qed.

(** What a successful scan says about the prefixes of the buffer. *)
Lemma memchr_found (buf : bytes) (pos n p : Z) :
  0 <= pos -> 0 <= n -> pos + n <= len buf ->
  memchr buf pos LF n = Some p ->
  pos <= p < pos + n
  /\ byte_at buf p = LF
  /\ count LF (firstn (Z.to_nat (p + 1)) buf)
     = count LF (firstn (Z.to_nat pos) buf) + 1.
Proof.
  intros H1 H2 H3 Hm.
  destruct (memchr_Some _ _ _ _ Hm) as (l & r & Hs & Hn & ->).
  destruct (buffer_cut buf pos n H1 H2 H3) as (pre & post & Hbuf & Hpre & Hpre').
  assert (Hlen : len (slice buf pos n) = n) by now apply len_slice.
  rewrite Hs in Hbuf, Hlen. len_simpl. pose proof (len_nonneg l). pose proof (len_nonneg r).
  split; [lia |]. rewrite <- Hpre'. split.
  - rewrite Hbuf. replace (pre ++ (l ++ LF :: r) ++ post)
      with ((pre ++ l) ++ LF :: r ++ post)
      by (repeat (rewrite <- app_assoc; cbn [app]); reflexivity).
    apply byte_at_at. len_simpl. lia.
  - rewrite Hbuf at 1. replace (pre ++ (l ++ LF :: r) ++ post)
      with ((pre ++ l ++ [LF]) ++ r ++ post)
      by (repeat (rewrite <- app_assoc; cbn [app]); reflexivity).
    rewrite firstn_at by (len_simpl; lia).
    rewrite !count_app, (count_zero_notin LF l Hn), count_cons, beq_refl.
    change (count LF []) with 0. lia.
Qed.

Lemma memchr_not_found (buf : bytes) (pos n : Z) :
  0 <= pos -> 0 <= n -> pos + n <= len buf ->
  memchr buf pos LF n = None ->
  count LF (firstn (Z.to_nat (pos + n)) buf) = count LF (firstn (Z.to_nat pos) buf).
Proof.
  intros H1 H2 H3 Hm. apply memchr_None in Hm.
  destruct (buffer_cut buf pos n H1 H2 H3) as (pre & post & Hbuf & Hpre & Hpre').
  assert (Hlen : len (slice buf pos n) = n) by now apply len_slice.
  rewrite <- Hpre'. rewrite Hbuf at 1. rewrite app_assoc.
  rewrite firstn_at by (len_simpl; lia).
  rewrite count_app, (count_zero_notin LF _ Hm). lia.
Qed.

Lemma count_firstn_mono (l : bytes) (a c : Z) :
  0 <= a <= c -> count LF (firstn (Z.to_nat a) l) <= count LF (firstn (Z.to_nat c) l).
Proof.
  intros H.
  replace (Z.to_nat a) with (Nat.min (Z.to_nat a) (Z.to_nat c)) by lia.
  rewrite <- firstn_firstn.
  rewrite <- (firstn_skipn (Z.to_nat a) (firstn (Z.to_nat c) l)) at 2.
  rewrite count_app.
  pose proof (count_nonneg LF (skipn (Z.to_nat a) (firstn (Z.to_nat c) l))).
  lia.
Qed.

(** ** paired_fastq_heads *)

Lemma index_of_firstn (c : byte) (l : bytes) :
  forall m : nat,
    index_of c (firstn m l)
    = match index_of c l with
      | Some i => if (i <? m)%nat then Some i else None
      | None => None
      end.
Proof.
  induction l as [|x l IH]; intros m; [now rewrite firstn_nil |].
  destruct m as [|m]; cbn [firstn index_of].
  - destruct (Byte.eqb x c); [reflexivity |]. now destruct (index_of c l).
  - destruct (Byte.eqb x c); [reflexivity |]. rewrite IH.
    destruct (index_of c l) as [i |]; [| reflexivity]. cbn [option_map].
    change (S i <? S m)%nat with (i <? m)%nat. now destruct (i <? m)%nat.
Qed.

(** A scan whose count stays inside the block is the plain [memchr]. *)
Lemma memchr_size_t_inside (buf : bytes) (pos n : Z) (c : byte) :
  0 <= pos -> 0 <= n -> pos + n <= len buf ->
  memchr_size_t buf pos c n
  = match memchr buf pos c n with Some p => Found p | None => NotFound end.
Proof.
  intros H1 H2 H3. unfold memchr_size_t, memchr, slice.
  destruct (Z.ltb_spec n 0); [lia |]. cbv zeta. rewrite index_of_firstn.
  assert (Hl : len (skipn (Z.to_nat pos) buf) = len buf - pos)
    by (unfold len; rewrite length_skipn; unfold len in H3; lia).
  destruct (index_of c (skipn (Z.to_nat pos) buf)) as [i |]; cbn [option_map].
  - destruct (Nat.ltb_spec i (Z.to_nat n)), (Z.ltb_spec (Z.of_nat i) n);
      try lia; reflexivity.
  - rewrite Hl. destruct (Z.leb_spec n (len buf - pos)); [reflexivity | lia].
Qed.

Section PairedHeads.

Variables buf1 buf2 : bytes.
Variables e1 e2 : Z.
Hypothesis He1 : 0 <= e1 <= len buf1.
Hypothesis He2 : 0 <= e2 <= len buf2.

Lemma paired_fastq_heads_loop_spec (fuel : nat) :
  forall pos1 pos2 linebreaks record_start1 record_start2 k,
    e1 - pos1 < Z.of_nat fuel ->
    0 <= record_start1 <= pos1 -> pos1 <= e1 ->
    0 <= record_start2 <= pos2 -> pos2 <= e2 ->
    0 <= linebreaks < 4 -> 0 <= k ->
    newlines buf1 pos1 = 4 * k + linebreaks -> newlines buf2 pos2 = 4 * k + linebreaks ->
    newlines buf1 record_start1 = 4 * k -> newlines buf2 record_start2 = 4 * k ->
    at_boundary buf1 pos1 -> at_boundary buf2 pos2 ->
    at_boundary buf1 record_start1 -> at_boundary buf2 record_start2 ->
    exists r,
      paired_fastq_heads_loop fuel buf1 buf2 e1 e2 pos1 pos2 linebreaks
        record_start1 record_start2 = Some r
      /\ heads_post buf1 buf2 e1 e2 r.
Proof.
  induction fuel as [|fuel IH];
    intros pos1 pos2 lb rs1 rs2 k Hfuel Hr1 Hp1 Hr2 Hp2 Hlb Hk L1 L2 R1 R2 B1 B2 C1 C2;
    [lia |].
  cbn [paired_fastq_heads_loop].
  pose proof (count_firstn_mono buf1 pos1 e1 ltac:(lia)) as M1.
  pose proof (count_firstn_mono buf2 pos2 e2 ltac:(lia)) as M2.
  fold (newlines buf1 pos1) (newlines buf1 e1) in M1. fold (newlines buf2 pos2) (newlines buf2 e2) in M2.
  rewrite (memchr_size_t_inside buf1 pos1 (e1 - pos1)) by lia.
  destruct (memchr buf1 pos1 LF (e1 - pos1)) as [p1 |] eqn:E1.
  - destruct (memchr_found buf1 pos1 (e1 - pos1) p1 ltac:(lia) ltac:(lia) ltac:(lia) E1)
      as (Hp1' & Hb1 & Hc1).
    fold (newlines buf1 (p1 + 1)) (newlines buf1 pos1) in Hc1.
    pose proof (count_firstn_mono buf1 (p1 + 1) e1 ltac:(lia)) as M1'.
    fold (newlines buf1 (p1 + 1)) (newlines buf1 e1) in M1'.
    rewrite (memchr_size_t_inside buf2 pos2 (e2 - pos2)) by lia.
    destruct (memchr buf2 pos2 LF (e2 - pos2)) as [p2 |] eqn:E2.
    + destruct (memchr_found buf2 pos2 (e2 - pos2) p2 ltac:(lia) ltac:(lia) ltac:(lia) E2)
        as (Hp2' & Hb2 & Hc2).
      fold (newlines buf2 (p2 + 1)) (newlines buf2 pos2) in Hc2.
      assert (B1' : at_boundary buf1 (p1 + 1))
        by (right; now replace (p1 + 1 - 1) with p1 by lia).
      assert (B2' : at_boundary buf2 (p2 + 1))
        by (right; now replace (p2 + 1 - 1) with p2 by lia).
      destruct (Z.eqb_spec (lb + 1) 4) as [E4 | E4].
      * apply (IH (p1 + 1) (p2 + 1) 0 (p1 + 1) (p2 + 1) (k + 1)); try lia; assumption.
      * apply (IH (p1 + 1) (p2 + 1) (lb + 1) rs1 rs2 k); try lia; assumption.
    + exists (rs1, rs2). split; [reflexivity |].
      pose proof (memchr_not_found buf2 pos2 (e2 - pos2) ltac:(lia) ltac:(lia) ltac:(lia) E2)
        as N2.
      replace (pos2 + (e2 - pos2)) with e2 in N2 by lia.
      fold (newlines buf2 e2) (newlines buf2 pos2) in N2.
      unfold heads_post. cbn [fst snd]. repeat split; try lia; try assumption.
      * rewrite R1. f_equal. Z.div_mod_to_equations. lia.
      * rewrite R2. f_equal. Z.div_mod_to_equations. lia.
  - exists (rs1, rs2). split; [reflexivity |].
    pose proof (memchr_not_found buf1 pos1 (e1 - pos1) ltac:(lia) ltac:(lia) ltac:(lia) E1)
      as N1.
    replace (pos1 + (e1 - pos1)) with e1 in N1 by lia.
    fold (newlines buf1 e1) (newlines buf1 pos1) in N1.
    unfold heads_post. cbn [fst snd]. repeat split; try lia; try assumption.
    + rewrite R1. f_equal. Z.div_mod_to_equations. lia.
    + rewrite R2. f_equal. Z.div_mod_to_equations. lia.
Qed.

End PairedHeads.

(** A scan that finds a newline finds it inside the buffer, whatever its
    count was. *)
Lemma memchr_size_t_found (buf : bytes) (pos n p : Z) :
  0 <= pos <= len buf ->
  memchr_size_t buf pos LF n = Found p ->
  pos <= p < len buf
  /\ byte_at buf p = LF
  /\ newlines buf (p + 1) = newlines buf pos + 1.
Proof.
  intros Hpos H.
  assert (Hm : memchr buf pos LF (len buf - pos) = Some p).
  { unfold memchr_size_t in H. unfold memchr, slice.
    rewrite firstn_all2
      by (rewrite length_skipn; unfold len in *; lia).
    destruct (index_of LF (skipn (Z.to_nat pos) buf)) as [i |];
      [| destruct (_ <=? _); discriminate].
    destruct (Z.of_nat i <? _); [| discriminate]. now inversion H. }
  destruct (memchr_found buf pos (len buf - pos) p ltac:(lia) ltac:(lia) ltac:(lia) Hm)
    as (A & B & C).
  split; [lia |]. split; [exact B | exact C].
Qed.

(** Whatever the two ends are, a pair the loop returns marks the end of
    the same number of whole records in both buffers. *)
Lemma paired_fastq_heads_loop_shape (buf1 buf2 : bytes) (e1 e2 : Z) (fuel : nat) :
  forall pos1 pos2 linebreaks record_start1 record_start2 k r,
    0 <= pos1 <= len buf1 -> 0 <= pos2 <= len buf2 ->
    0 <= linebreaks < 4 ->
    newlines buf1 pos1 = 4 * k + linebreaks -> newlines buf2 pos2 = 4 * k + linebreaks ->
    newlines buf1 record_start1 = 4 * k -> newlines buf2 record_start2 = 4 * k ->
    at_boundary buf1 record_start1 -> at_boundary buf2 record_start2 ->
    paired_fastq_heads_loop fuel buf1 buf2 e1 e2 pos1 pos2 linebreaks
      record_start1 record_start2 = Some r ->
    at_boundary buf1 (fst r) /\ at_boundary buf2 (snd r)
    /\ newlines buf1 (fst r) = newlines buf2 (snd r)
    /\ newlines buf1 (fst r) mod 4 = 0.
Proof.
  assert (Hdone : forall rs1 rs2 k,
             newlines buf1 rs1 = 4 * k -> newlines buf2 rs2 = 4 * k ->
             at_boundary buf1 rs1 -> at_boundary buf2 rs2 ->
             at_boundary buf1 (fst (rs1, rs2)) /\ at_boundary buf2 (snd (rs1, rs2))
             /\ newlines buf1 (fst (rs1, rs2)) = newlines buf2 (snd (rs1, rs2))
             /\ newlines buf1 (fst (rs1, rs2)) mod 4 = 0).
  { intros rs1 rs2 k R1 R2 C1 C2. cbn [fst snd]. repeat split; try assumption.
    - congruence.
    - rewrite R1, Z.mul_comm. apply Z.mod_mul. lia. }
  induction fuel as [|fuel IH];
    intros pos1 pos2 lb rs1 rs2 k r Hp1 Hp2 Hlb L1 L2 R1 R2 C1 C2 H; [discriminate |].
  cbn [paired_fastq_heads_loop] in H.
  destruct (memchr_size_t buf1 pos1 LF (e1 - pos1)) as [p1 | |] eqn:E1;
    [| inversion H; subst r; now apply (Hdone rs1 rs2 k) | discriminate].
  destruct (memchr_size_t_found buf1 pos1 _ p1 Hp1 E1) as (A1 & B1 & N1).
  destruct (memchr_size_t buf2 pos2 LF (e2 - pos2)) as [p2 | |] eqn:E2;
    [| inversion H; subst r; now apply (Hdone rs1 rs2 k) | discriminate].
  destruct (memchr_size_t_found buf2 pos2 _ p2 Hp2 E2) as (A2 & B2 & N2).
  assert (B1' : at_boundary buf1 (p1 + 1))
    by (right; now replace (p1 + 1 - 1) with p1 by lia).
  assert (B2' : at_boundary buf2 (p2 + 1))
    by (right; now replace (p2 + 1 - 1) with p2 by lia).
  destruct (Z.eqb_spec (lb + 1) 4) as [E4 | E4].
  - apply (IH (p1 + 1) (p2 + 1) 0 (p1 + 1) (p2 + 1) (k + 1) r); try lia; assumption.
  - apply (IH (p1 + 1) (p2 + 1) (lb + 1) rs1 rs2 k r); try lia; assumption.
Qed.

Lemma paired_fastq_heads_shape (buf1 buf2 : bytes) (end1 end2 len1 len2 : Z) :
  paired_fastq_heads buf1 buf2 end1 end2 = Some (len1, len2) ->
  at_boundary buf1 len1 /\ at_boundary buf2 len2
  /\ newlines buf1 len1 = newlines buf2 len2
  /\ newlines buf1 len1 mod 4 = 0.
Proof.
  intros H. unfold paired_fastq_heads in H. cbv zeta in H.
  pose proof (len_nonneg buf1). pose proof (len_nonneg buf2).
  apply (paired_fastq_heads_loop_shape buf1 buf2 _ _ _ 0 0 0 0 0 0 (len1, len2)) in H;
    try lia; try reflexivity; try (now left).
  exact H.
Qed.

(** ** Locating a record in the buffer *)

Ltac reassoc :=
  repeat (first [rewrite <- app_assoc | progress cbn [app]]); reflexivity.

Lemma memchr_in_cut (buf pre x post : bytes) (start n : Z) :
  buf = pre ++ x ++ post -> start = len pre -> n = len x ->
  memchr buf start LF n
  = option_map (fun p => start + len (fst p)) (split_line x).
Proof.
  intros -> -> ->. unfold memchr. rewrite slice_at by reflexivity.
  rewrite index_of_split_line. destruct (split_line x) as [[l r] |]; reflexivity.
Qed.


Lemma buffer_pending (self : FastqIter) :
  in_buffer self ->
  exists pre post,
    buffer self = pre ++ pending self ++ post
    /\ len pre = record_start self
    /\ len (pending self) = bytes_in_buffer self - record_start self.
Proof.
  intros [H1 H2]. unfold pending.
  destruct (buffer_cut (buffer self) (record_start self)
              (bytes_in_buffer self - record_start self)) as (pre & post & Hb & Hp & _);
    try lia.
  exists pre, post. split; [exact Hb |]. split; [exact Hp |].
  apply len_slice; lia.
Qed.

Lemma locate_spec (self : FastqIter) :
  in_buffer self ->
  locate self
  = match split_record (pending self) with
    | Some (l1, l2, l3, l4, _) =>
        let name_end := record_start self + len l1 in
        let sequence_end := name_end + 1 + len l2 in
        let second_header_end := sequence_end + 1 + len l3 in
        Some (name_end, sequence_end, second_header_end,
              second_header_end + 1 + len l4)
    | None => None
    end.
Proof.
  intros Hin. destruct (buffer_pending self Hin) as (pre & post & Hb & Hp & Hl).
  unfold locate, split_record. cbv zeta.
  set (p := pending self) in *. set (rs := record_start self) in *.
  set (filled := bytes_in_buffer self) in *.
  rewrite (memchr_in_cut _ pre p post) by (auto; lia).
  destruct (split_line p) as [[l1 r1] |] eqn:E1; cbn [option_map fst]; [| reflexivity].
  apply split_line_Some in E1. destruct E1 as [E1 _].
  rewrite E1 in Hb, Hl. len_simpl.
  rewrite (memchr_in_cut _ (pre ++ l1 ++ [LF]) r1 post)
    by (try (len_simpl; lia); rewrite Hb; reassoc).
  destruct (split_line r1) as [[l2 r2] |] eqn:E2; cbn [option_map fst]; [| reflexivity].
  apply split_line_Some in E2. destruct E2 as [E2 _].
  rewrite E2 in Hb, Hl. len_simpl.
  rewrite (memchr_in_cut _ (pre ++ l1 ++ [LF] ++ l2 ++ [LF]) r2 post)
    by (try (len_simpl; lia); rewrite Hb; reassoc).
  destruct (split_line r2) as [[l3 r3] |] eqn:E3; cbn [option_map fst]; [| reflexivity].
  apply split_line_Some in E3. destruct E3 as [E3 _].
  rewrite E3 in Hb, Hl. len_simpl.
  rewrite (memchr_in_cut _ (pre ++ l1 ++ [LF] ++ l2 ++ [LF] ++ l3 ++ [LF]) r3 post)
    by (try (len_simpl; lia); rewrite Hb; reassoc).
  destruct (split_line r3) as [[l4 r4] |] eqn:E4; cbn [option_map fst]; reflexivity.
Qed.

(** ** Reading the record *)

Lemma first_byte_of_line (buf pre l post : bytes) (i : Z) :
  buf = pre ++ l ++ LF :: post -> i = len pre ->
  byte_at buf i = hd LF l.
Proof.
  intros -> ->. destruct l as [|c l]; cbn [app hd]; now apply byte_at_at.
Qed.

Lemma cr_test (buf pre t post : bytes) (c : byte) (i : Z) :
  buf = pre ++ c :: t ++ post -> i = len pre + len t -> c <> CR ->
  Byte.eqb (byte_at buf i) CR = Byte.eqb (last t NUL) CR.
Proof.
  intros -> -> Hc. destruct t as [|x t].
  - cbn [app last]. rewrite byte_at_at by (len_simpl; lia).
    rewrite beq_neq by exact Hc. reflexivity.
  - replace (pre ++ c :: (x :: t) ++ post) with ((pre ++ [c]) ++ (x :: t) ++ post)
      by reassoc.
    rewrite byte_at_last; [reflexivity | discriminate | len_simpl; lia].
Qed.

Lemma strip_cr_split (t : bytes) :
  t = strip_cr t ++ (if Byte.eqb (last t NUL) CR then [CR] else []).
Proof.
  unfold strip_cr. destruct (beq_spec (last t NUL) CR) as [E | E].
  - rewrite <- E. apply removelast_last_split. intros ->. discriminate.
  - now rewrite app_nil_r.
Qed.

Lemma len_strip_cr (t : bytes) (x : Z) :
  x = len t ->
  (if Byte.eqb (last t NUL) CR then x - 1 else x) = len (strip_cr t).
Proof.
  intros ->. pose proof (strip_cr_split t) as H. apply (f_equal len) in H.
  destruct (Byte.eqb (last t NUL) CR); len_simpl; lia.
Qed.

Lemma slice_strip_cr (buf pre t post : bytes) (i : Z) :
  buf = pre ++ t ++ post -> i = len pre ->
  slice buf i (len (strip_cr t)) = strip_cr t.
Proof.
  intros -> ->. rewrite (strip_cr_split t) at 1.
  rewrite <- app_assoc. now apply slice_at.
Qed.

Lemma strncmp_prefix (a c x y : bytes) (n : nat) :
  length a = n -> length c = n ->
  strncmp (a ++ x) (c ++ y) n = strncmp a c n.
Proof.
  revert a c. induction n as [|n IH]; intros a c Ha Hc; [reflexivity |].
  destruct a as [|p a]; [discriminate |]. destruct c as [|q c]; [discriminate |].
  cbn [strncmp app hd tl]. rewrite IH by (cbn in *; lia). reflexivity.
Qed.

Lemma strncmp_neq (a c : bytes) (n : nat) : strncmp a c n <> 0 -> a <> c.
Proof.
  revert a c. induction n as [|n IH]; intros a c H Heq; [now apply H |].
  subst c. cbn [strncmp] in H. rewrite beq_refl in H. cbn [negb] in H.
  destruct (Byte.eqb (hd NUL a) NUL); [now apply H |].
  now apply (IH (tl a) (tl a)).
Qed.

Lemma strncmp_in_buffer (buf pre1 t1 post1 pre2 t2 post2 : bytes) (i1 i2 n : Z) :
  buf = pre1 ++ t1 ++ post1 -> i1 = len pre1 ->
  buf = pre2 ++ t2 ++ post2 -> i2 = len pre2 ->
  n = len (strip_cr t1) -> len (strip_cr t2) = len (strip_cr t1) ->
  strncmp (skipn (Z.to_nat i1) buf) (skipn (Z.to_nat i2) buf) (Z.to_nat n)
  = strncmp (strip_cr t1) (strip_cr t2) (length (strip_cr t1)).
Proof.
  intros H1 -> H2 -> -> Hl.
  rewrite H1 at 1. rewrite skipn_at by reflexivity.
  rewrite H2. rewrite skipn_at by reflexivity.
  rewrite (strip_cr_split t1) at 1. rewrite (strip_cr_split t2) at 1.
  rewrite <- !app_assoc. unfold len in *. rewrite Nat2Z.id.
  apply strncmp_prefix; lia.
Qed.

Lemma hd_line_eq (l : bytes) (c : byte) :
  c <> LF -> Byte.eqb (hd LF l) c = true -> exists t, l = c :: t.
Proof.
  intros Hc H. destruct (beq_spec (hd LF l) c) as [E | E]; [| discriminate].
  destruct l as [|x t]; cbn [hd] in E; [congruence |]. subst. now exists t.
Qed.

Lemma slice_eq (buf pre x post : bytes) (i n : Z) :
  buf = pre ++ x ++ post -> i = len pre -> n = len x -> slice buf i n = x.
Proof. intros -> Hi Hn. now apply slice_at. Qed.

Ltac rd_side :=
  first [ reassoc | (unfold AT, LF, PLUS, CR; discriminate) | (len_simpl; lia) ].

(** [parse_record] on a buffer holding the four lines computes
    [check_record] on them. *)
Lemma parse_record_spec (self : FastqIter) (pre l1 l2 l3 l4 post : bytes) :
  buffer self = pre ++ l1 ++ LF :: l2 ++ LF :: l3 ++ LF :: l4 ++ LF :: post ->
  record_start self = len pre ->
  let name_end := record_start self + len l1 in
  let sequence_end := name_end + 1 + len l2 in
  let second_header_end := sequence_end + 1 + len l3 in
  let qualities_end := second_header_end + 1 + len l4 in
  parse_record self name_end sequence_end second_header_end qualities_end
  = match check_record (number_of_records self) l1 l2 l3 l4 with
    | Bad e => Raise e self
    | Good name sequence qualities second_header_length =>
        if (number_of_records self =? 0) && negb (yielded_two_headers self) then
          Return (VBool (negb (second_header_length =? 0)))
            (set_yielded_two_headers self true)
        else
          Return (materialize (save_as_bytes self) (use_custom_class self)
                    name sequence qualities)
            (set_record_start
               (set_number_of_records self (number_of_records self + 1))
               (qualities_end + 1))
    end.
Proof.
  intros Hb Hrs. cbv zeta. unfold parse_record, check_record. cbv zeta.
  rewrite Hrs, Hb.
  rewrite (first_byte_of_line _ pre l1 (l2 ++ LF :: l3 ++ LF :: l4 ++ LF :: post))
    by rd_side.
  destruct (Byte.eqb (hd LF l1) AT) eqn:E1; cbn [negb];
    [| destruct (chr (hd LF l1)); reflexivity].
  apply hd_line_eq in E1; [| discriminate]. destruct E1 as [t1 ->].
  rewrite (first_byte_of_line _ (pre ++ (AT :: t1) ++ LF :: l2 ++ [LF]) l3
             (l4 ++ LF :: post))
    by rd_side.
  destruct (Byte.eqb (hd LF l3) PLUS) eqn:E3; cbn [negb];
    [| destruct (chr (hd LF l3)); reflexivity].
  apply hd_line_eq in E3; [| discriminate]. destruct E3 as [t3 ->].
  rewrite (cr_test _ pre t1 (LF :: l2 ++ LF :: (PLUS :: t3) ++ LF :: l4 ++ LF :: post) AT
             (len pre + len (AT :: t1) - 1))
    by rd_side.
  rewrite (cr_test _ (pre ++ AT :: t1) l2 (LF :: (PLUS :: t3) ++ LF :: l4 ++ LF :: post) LF
             (len pre + len (AT :: t1) + 1 + len l2 - 1))
    by rd_side.
  rewrite (cr_test _ (pre ++ (AT :: t1) ++ LF :: l2 ++ [LF]) t3 (LF :: l4 ++ LF :: post) PLUS
             (len pre + len (AT :: t1) + 1 + len l2 + 1 + len (PLUS :: t3) - 1))
    by rd_side.
  rewrite (cr_test _ (pre ++ (AT :: t1) ++ LF :: l2 ++ LF :: PLUS :: t3) l4 (LF :: post) LF
             (len pre + len (AT :: t1) + 1 + len l2 + 1 + len (PLUS :: t3) + 1 + len l4 - 1))
    by rd_side.
  rewrite (len_strip_cr t1) by (len_simpl; lia).
  rewrite (len_strip_cr l2) by (len_simpl; lia).
  rewrite (len_strip_cr t3) by (len_simpl; lia).
  rewrite (len_strip_cr l4) by (len_simpl; lia).
  cbn [tl].
  rewrite (slice_eq _ (pre ++ [AT]) t1
             (LF :: l2 ++ LF :: (PLUS :: t3) ++ LF :: l4 ++ LF :: post)
             (len pre + 1) (len pre + len (AT :: t1) - (len pre + 1)))
    by rd_side.
  rewrite (slice_eq _ (pre ++ (AT :: t1) ++ LF :: l2 ++ LF :: [PLUS]) t3
             (LF :: l4 ++ LF :: post)
             (len pre + len (AT :: t1) + 1 + len l2 + 1 + 1)
             (len pre + len (AT :: t1) + 1 + len l2 + 1 + len (PLUS :: t3) -
              (len pre + len (AT :: t1) + 1 + len l2 + 1 + 1)))
    by rd_side.
  rewrite (slice_strip_cr _ (pre ++ [AT]) t1
             (LF :: l2 ++ LF :: (PLUS :: t3) ++ LF :: l4 ++ LF :: post)
             (len pre + 1))
    by rd_side.
  rewrite (slice_strip_cr _ (pre ++ (AT :: t1) ++ [LF]) l2
             (LF :: (PLUS :: t3) ++ LF :: l4 ++ LF :: post)
             (len pre + len (AT :: t1) + 1))
    by rd_side.
  rewrite (slice_strip_cr _ (pre ++ (AT :: t1) ++ LF :: l2 ++ LF :: (PLUS :: t3) ++ [LF])
             l4 (LF :: post)
             (len pre + len (AT :: t1) + 1 + len l2 + 1 + len (PLUS :: t3) + 1))
    by rd_side.
  destruct (Z.eqb_spec (len (strip_cr t1)) (len (strip_cr t3))) as [El | El];
    cbn [negb orb].
  - rewrite (strncmp_in_buffer _
               (pre ++ (AT :: t1) ++ LF :: l2 ++ LF :: [PLUS]) t3 (LF :: l4 ++ LF :: post)
               (pre ++ [AT]) t1 (LF :: l2 ++ LF :: (PLUS :: t3) ++ LF :: l4 ++ LF :: post))
      by first [ rd_side | reflexivity | assumption ].
    destruct (negb (len (strip_cr t3) =? 0)
              && negb (strncmp (strip_cr t3) (strip_cr t1) (length (strip_cr t3)) =? 0));
      [reflexivity |].
    destruct (negb (len (strip_cr l4) =? len (strip_cr l2))); reflexivity.
  - rewrite !andb_true_r.
    destruct (len (strip_cr t3) =? 0) eqn:E0; cbn [negb]; [| reflexivity].
    destruct (negb (len (strip_cr l4) =? len (strip_cr l2))); [reflexivity |].
    cbv iota beta. rewrite E0. reflexivity.
Qed.

(** ** Refilling the buffer *)

Ltac fields :=
  cbn [buffer_size buffer bytes_in_buffer sequence_class save_as_bytes
       use_custom_class extra_newline yielded_two_headers eof file record_start
       number_of_records set_buffer_size set_buffer set_bytes_in_buffer
       set_extra_newline set_yielded_two_headers set_eof set_file
       set_record_start set_number_of_records] in *.

Lemma wf_in_buffer (self : FastqIter) : wf self -> in_buffer self.
Proof. unfold wf, in_buffer. intros (? & ? & ? & ? & _). lia. Qed.


Lemma make_room_spec (self : FastqIter) :
  wf self ->
  let s := make_room self in
  record_start s = 0
  /\ bytes_in_buffer s = len (pending self)
  /\ (exists j junk, buffer s = pending self ++ j :: junk)
  /\ len (buffer s) = buffer_size s
  /\ 1 <= buffer_size s
  /\ file s = file self
  /\ same_flags s self.
Proof.
  intros Hwf. pose proof (wf_in_buffer _ Hwf) as Hin.
  destruct (buffer_pending self Hin) as (pre & post & Hb & Hp & Hl).
  destruct Hwf as (Hsz & Hlen & Hrs & Hbib & _).
  unfold make_room.
  destruct (Z.eqb_spec (record_start self) 0) as [E0 | E0];
    [destruct (Z.eqb_spec (bytes_in_buffer self) (buffer_size self)) as [E1 | E1] |];
    cbn [andb]; cbv zeta; fields.
  - (* doubled *)
    assert (Hpre : pre = []) by (apply len_zero; lia). subst pre. cbn [app] in Hb.
    assert (Hpost : post = []).
    { apply len_zero. apply (f_equal len) in Hb. len_simpl. lia. }
    subst post. rewrite app_nil_r in Hb.
    assert (Hrep : exists j junk,
               repeat NUL (Z.to_nat (buffer_size self * 2) - length (buffer self))
               = j :: junk).
    { unfold len in Hlen.
      replace (Z.to_nat (buffer_size self * 2) - length (buffer self))%nat
        with (S (Z.to_nat (buffer_size self) - 1)) by lia.
      cbn [repeat]. eauto. }
    destruct Hrep as (j & junk & Hrep).
    unfold PyMem_Realloc. rewrite Hrep.
    rewrite firstn_all2 by (unfold len in Hlen; lia).
    repeat split; try lia.
    + exists j, junk. now rewrite <- Hb.
    + len_simpl. apply (f_equal len) in Hrep. rewrite len_repeat in Hrep.
      len_simpl. unfold len in *. lia.
  - (* moved, record_start = 0 *)
    unfold memmove. fold (pending self).
    assert (Hsplit : exists old rest, buffer self = old ++ rest
                                      /\ len old = len (pending self)).
    { exists (firstn (length (pending self)) (buffer self)),
        (skipn (length (pending self)) (buffer self)).
      split; [now rewrite firstn_skipn |].
      unfold len in *. rewrite length_firstn. lia. }
    destruct Hsplit as (old & rest & Hs & Hlo).
    rewrite (memcpy_eq _ [] old rest (pending self)) by auto.
    cbn [app].
    assert (Hrest : rest <> []).
    { intros ->. apply (f_equal len) in Hs. len_simpl. lia. }
    destruct rest as [|j junk]; [congruence |].
    repeat split; try lia.
    + eauto.
    + apply (f_equal len) in Hs. len_simpl. lia.
  - (* moved, record_start > 0 *)
    unfold memmove. fold (pending self).
    assert (Hsplit : exists old rest, buffer self = old ++ rest
                                      /\ len old = len (pending self)).
    { exists (firstn (length (pending self)) (buffer self)),
        (skipn (length (pending self)) (buffer self)).
      split; [now rewrite firstn_skipn |].
      unfold len in *. rewrite length_firstn. lia. }
    destruct Hsplit as (old & rest & Hs & Hlo).
    rewrite (memcpy_eq _ [] old rest (pending self)) by auto.
    cbn [app].
    assert (Hrest : rest <> []).
    { intros ->. apply (f_equal len) in Hs. len_simpl. lia. }
    destruct rest as [|j junk]; [congruence |].
    repeat split; try lia.
    + eauto.
    + apply (f_equal len) in Hs. len_simpl. lia.
Qed.

Lemma file_read_spec (f : binary_file) (n : Z) :
  1 <= n ->
  let '(chunk, rest) := file_read f n in
  content f = chunk ++ content rest /\ len chunk <= n
  /\ (content f <> [] -> chunk <> []).
Proof.
  intros Hn. unfold file_read. destruct (Z.ltb_spec n 0); [lia |].
  set (limit := match short_reads f with
                | [] => n
                | m :: _ => Z.min n (Z.max 1 m)
                end).
  assert (Hl : 1 <= limit <= n) by (subst limit; destruct (short_reads f); lia).
  cbn [content].
  split; [now rewrite firstn_skipn |]. split.
  - unfold len. rewrite length_firstn. lia.
  - destruct (content f) as [|c l]; [congruence |]. intros _.
    replace (Z.to_nat limit) with (S (Z.to_nat limit - 1)) by lia. discriminate.
Qed.

Lemma file_read_empty (f : binary_file) (n : Z) :
  content f = [] ->
  exists rest, file_read f n = ([], rest) /\ content rest = [].
Proof.
  intros Hf. unfold file_read. rewrite Hf.
  destruct (n <? 0); [eexists; split; reflexivity |].
  rewrite firstn_nil, skipn_nil. eexists; split; reflexivity.
Qed.

(** While the file has bytes left, a refill moves some of them into the
    buffer and changes nothing a caller can see. *)
Lemma refill_more (self : FastqIter) :
  wf self -> content (file self) <> [] ->
  exists self',
    _read_into_buffer self = Return tt self'
    /\ wf self'
    /\ view_of self' = view_of self
    /\ (length (content (file self')) < length (content (file self)))%nat.
Proof.
  intros Hwf Hf.
  destruct (make_room_spec self Hwf)
    as (Hrs & Hbib & (j & junk & Hbuf) & Hlen & Hsz & Hfile & Hfl).
  destruct Hwf as (_ & _ & _ & _ & Hex & Hn & _).
  unfold _read_into_buffer. cbv zeta.
  set (s := make_room self) in *.
  assert (Hroom : 1 <= buffer_size s - bytes_in_buffer s).
  { rewrite <- Hlen, Hbuf, Hbib. len_simpl. pose proof (len_nonneg junk). lia. }
  pose proof (file_read_spec (file s) _ Hroom) as Hread.
  destruct (file_read (file s) (buffer_size s - bytes_in_buffer s)) as [chunk rest].
  destruct Hread as (Hsplit & Hcl & Hne). fields.
  destruct (Z.gtb_spec (len chunk) (buffer_size s - bytes_in_buffer s)); [lia |].
  assert (Hc : chunk <> []) by (apply Hne; congruence).
  destruct (Z.eqb_spec (len chunk) 0) as [E | E];
    [apply len_zero in E; congruence |].
  eexists. split; [reflexivity |].
  assert (Hj : exists old post, j :: junk = old ++ post /\ len old = len chunk).
  { exists (firstn (length chunk) (j :: junk)), (skipn (length chunk) (j :: junk)).
    split; [now rewrite firstn_skipn |].
    unfold len in *. rewrite length_firstn.
    rewrite <- Hlen, Hbuf, Hbib in Hcl. rewrite length_app in Hcl. lia. }
  destruct Hj as (old & post & Hj & Hlo).
  assert (Hnew : memcpy (buffer s) (bytes_in_buffer s) chunk
                 = pending self ++ chunk ++ post).
  { apply (memcpy_eq _ (pending self) old post); [| lia | exact Hlo].
    rewrite Hbuf, Hj. reflexivity. }
  destruct Hfl as (F1 & F2 & F3 & F4 & F5 & F6 & F7).
  split; [| split].
  - unfold wf. fields. rewrite Hnew, Hrs.
    assert (Hl2 : len (pending self ++ chunk ++ post) = buffer_size s).
    { rewrite <- Hlen, Hbuf, Hj. len_simpl. lia. }
    pose proof (len_nonneg (pending self)). pose proof (len_nonneg chunk).
    repeat split; try lia.
    intros Hx. rewrite F4 in Hx. apply Hex in Hx. congruence.
  - unfold view_of, pending. fields. rewrite Hnew, Hrs.
    rewrite (slice_eq _ [] (pending self ++ chunk) post)
      by (try reassoc; len_simpl; lia).
    rewrite <- app_assoc, <- Hsplit, Hfile. fold (pending self).
    now rewrite F2, F3, F4, F5, F6, F7.
  - rewrite <- Hfile, Hsplit, length_app. fields.
    destruct chunk; [congruence | cbn [length]; lia].
Qed.

(** What a refill does once the file is exhausted. *)
Lemma refill_at_eof (self : FastqIter) :
  wf self -> content (file self) = [] ->
  match pending self with
  | [] =>
      exists self',
        _read_into_buffer self = Return tt self'
        /\ wf self'
        /\ view_of self'
           = mkView [] (extra_newline self) (yielded_two_headers self) true
               (number_of_records self) (save_as_bytes self) (use_custom_class self)
  | _ :: _ =>
      if negb (extra_newline self) && negb (Byte.eqb (last (pending self) NUL) LF) then
        exists self',
          _read_into_buffer self = Return tt self'
          /\ wf self'
          /\ view_of self'
             = mkView (pending self ++ [LF]) true (yielded_two_headers self) (eof self)
                 (number_of_records self) (save_as_bytes self) (use_custom_class self)
          /\ content (file self') = []
      else
        exists e self',
          _read_into_buffer self = Raise e self'
          /\ wf self'
          /\ (Error e, view_of self') = premature (view_of self)
          /\ e <> StopIteration
  end.
Proof.
  intros Hwf Hf.
  destruct (make_room_spec self Hwf)
    as (Hrs & Hbib & (j & junk & Hbuf) & Hlen & Hsz & Hfile & Hfl).
  destruct Hwf as (_ & _ & _ & _ & Hex & Hn & _).
  destruct Hfl as (F1 & F2 & F3 & F4 & F5 & F6 & F7).
  unfold _read_into_buffer. cbv zeta.
  set (s := make_room self) in *.
  destruct (file_read_empty (file s) (buffer_size s - bytes_in_buffer s))
    as (after & Hread & Hafter); [now rewrite Hfile |].
  rewrite Hread. fields. change (len (@nil byte)) with 0.
  assert (Hroom : 1 <= buffer_size s - bytes_in_buffer s).
  { rewrite <- Hlen, Hbuf, Hbib. len_simpl. pose proof (len_nonneg junk). lia. }
  destruct (Z.gtb_spec 0 (buffer_size s - bytes_in_buffer s)); [lia |].
  cbn [Z.eqb].
  assert (Hnew : memcpy (buffer s) (bytes_in_buffer s) [] = buffer s).
  { rewrite Hbuf at 1.
    rewrite (memcpy_eq _ (pending self) [] (j :: junk) []) by auto.
    now rewrite Hbuf. }
  rewrite Hnew, Z.add_0_r.
  assert (Hsize : len (pending self) + 1 + len junk = buffer_size s).
  { rewrite <- Hlen, Hbuf. len_simpl. lia. }
  pose proof (len_nonneg junk) as Hjunk.
  destruct (pending self) as [|c p] eqn:Ep.
  - (* nothing left at all *)
    rewrite Hbib. cbn [Z.eqb len length Z.of_nat].
    eexists. split; [reflexivity |]. split.
    + unfold wf. fields. rewrite ?Hrs, ?Hbib, ?Hlen, ?Hafter. change (len (@nil byte)) with 0 in *.
      repeat split; try lia; try (intros; first [assumption | congruence]).
    + unfold view_of, pending. fields. rewrite ?Hrs, ?Hbib, ?Hafter.
      change (len (@nil byte)) with 0. cbn [slice Z.sub Z.to_nat firstn app].
      now rewrite F2, F3, F4, F5, F7.
  - assert (Hpos : 1 <= len (c :: p)) by (len_simpl; pose proof (len_nonneg p); lia).
    destruct (Z.eqb_spec (bytes_in_buffer s) 0) as [E | E]; [lia |].
    assert (Hlast : byte_at (buffer s) (bytes_in_buffer s - 1) = last (c :: p) NUL).
    { rewrite Hbuf. apply (byte_at_last [] (c :: p) (j :: junk)); [discriminate |].
      change (len (@nil byte)) with 0. lia. }
    rewrite Hlast, F4.
    destruct (negb (extra_newline self) && negb (Byte.eqb (last (c :: p) NUL) LF)) eqn:Enl.
    + (* the missing final newline is added *)
      eexists. split; [reflexivity |].
      assert (Hst : store (buffer s) (bytes_in_buffer s) LF = (c :: p) ++ LF :: junk).
      { apply (store_eq _ (c :: p) junk j); [exact Hbuf | lia]. }
      rewrite Hst. split; [| split].
      * unfold wf. fields. rewrite ?Hrs, ?Hbib, ?Hafter. len_simpl.
        repeat split; try lia; try (intros; first [assumption | congruence]).
      * unfold view_of, pending. fields. rewrite ?Hrs, ?Hbib, ?Hafter.
        rewrite (slice_eq _ [] ((c :: p) ++ [LF]) junk)
          by (try reassoc; len_simpl; lia).
        rewrite app_nil_r. now rewrite F2, F3, F5, F6, F7.
      * fields. exact Hafter.
    + (* incomplete FASTQ records are present *)
      unfold premature, view_of. cbn [v_extra_newline v_stream v_records with_stream].
      rewrite Ep, Hf, app_nil_r.
      destruct (extra_newline self) eqn:Ex; fields;
        cbn [v_extra_newline v_stream v_records v_yielded v_eof v_save_as_bytes
             v_use_custom_class with_stream].
      * assert (Htail : slice (buffer s) (record_start s)
                          (bytes_in_buffer s - 1 - record_start s)
                        = removelast (c :: p)).
        { rewrite Hrs, Hbuf.
          rewrite (removelast_last_split (c :: p)) at 1 by discriminate.
          apply (slice_eq _ [] (removelast (c :: p)) ([last (c :: p) NUL] ++ j :: junk));
            [reassoc | reflexivity |].
          pose proof (removelast_last_split (c :: p) ltac:(discriminate)) as Hs.
          apply (f_equal len) in Hs. rewrite len_app in Hs.
          change (len [last (c :: p) NUL]) with 1 in Hs. lia. }
        eexists. eexists. split; [reflexivity |]. fields.
        rewrite Htail, F7. split; [| split].
        -- unfold wf. fields. rewrite ?Hrs, ?Hbib, ?Hafter.
           repeat split; try lia; try (intros; first [assumption | congruence]).
        -- unfold pending. fields. rewrite Htail, Hafter, app_nil_r.
           now rewrite F2, F3, F4, F5, F6.
        -- discriminate.
      * assert (Htail : slice (buffer s) (record_start s)
                          (bytes_in_buffer s - record_start s)
                        = c :: p).
        { rewrite Hrs, Hbuf.
          apply (slice_eq _ [] (c :: p) (j :: junk)); [reflexivity | reflexivity | lia]. }
        eexists. eexists. split; [reflexivity |]. fields.
        rewrite Htail, F7. split; [| split].
        -- unfold wf. fields. rewrite ?Hrs, ?Hbib, ?Hafter.
           repeat split; try lia; try (intros; first [assumption | congruence]).
        -- unfold pending. fields. rewrite Htail, Hafter, app_nil_r.
           now rewrite F2, F3, F4, F5, F6.
        -- discriminate.
Qed.

(** ** The loop of __next__ *)

Lemma event_of_raise (e : exception) (self : FastqIter) :
  e <> StopIteration -> event_of (Raise e self) = Error e.
Proof. destruct e; cbn; congruence. Qed.

Lemma event_of_materialize (a c : bool) (name sequence qualities : bytes)
    (self : FastqIter) :
  event_of (Return (materialize a c name sequence qualities) self)
  = Record_ (materialize a c name sequence qualities).
Proof. unfold materialize. destruct a, c; reflexivity. Qed.

Lemma check_record_Bad (n : Z) (l1 l2 l3 l4 : bytes) (e : exception) :
  check_record n l1 l2 l3 l4 = Bad e -> e <> StopIteration.
Proof.
  unfold check_record, chr.
  repeat match goal with
         | |- (if ?c then _ else _) = _ -> _ => destruct c
         | |- match (if ?c then _ else _) with _ => _ end = _ -> _ => destruct c
         end;
    intros H; inversion H; discriminate.
Qed.

(** A located record: what [__next__] returns, seen from outside. *)
Lemma parse_record_view (self : FastqIter) (l1 l2 l3 l4 rest : bytes) :
  wf self ->
  split_record (pending self) = Some (l1, l2, l3, l4, rest) ->
  let name_end := record_start self + len l1 in
  let sequence_end := name_end + 1 + len l2 in
  let second_header_end := sequence_end + 1 + len l3 in
  let qualities_end := second_header_end + 1 + len l4 in
  let o := parse_record self name_end sequence_end second_header_end qualities_end in
  wf (state_of o)
  /\ (event_of o, view_of (state_of o))
     = emit (view_of self) l1 l2 l3 l4 (rest ++ content (file self)).
Proof.
  intros Hwf Hsp. cbv zeta.
  destruct (buffer_pending self (wf_in_buffer _ Hwf)) as (pre & post & Hb & Hp & Hl).
  apply split_record_Some in Hsp. destruct Hsp as (Hpend & _).
  assert (Hb' : buffer self
                = pre ++ l1 ++ LF :: l2 ++ LF :: l3 ++ LF :: l4 ++ LF :: (rest ++ post)).
  { rewrite Hb, Hpend. reassoc. }
  pose proof (parse_record_spec self pre l1 l2 l3 l4 (rest ++ post) Hb' (eq_sym Hp)) as Hpr.
  cbv zeta in Hpr. rewrite Hpr. clear Hpr.
  unfold emit. cbn [v_records view_of v_yielded v_stream v_extra_newline v_eof
                    v_save_as_bytes v_use_custom_class].
  destruct (check_record (number_of_records self) l1 l2 l3 l4)
    as [e | name sequence qualities shl] eqn:Ec.
  - split; [exact Hwf |]. cbn [state_of].
    rewrite event_of_raise by (eapply check_record_Bad; eauto). reflexivity.
  - destruct ((number_of_records self =? 0) && negb (yielded_two_headers self)).
    + cbn [state_of event_of]. split; [exact Hwf |]. reflexivity.
    + cbn [state_of]. rewrite event_of_materialize.
      rewrite Hpend in Hl. len_simpl.
      pose proof (len_nonneg l1). pose proof (len_nonneg l2).
      pose proof (len_nonneg l3). pose proof (len_nonneg l4).
      pose proof (len_nonneg rest).
      destruct Hwf as (W1 & W2 & W3 & W4 & W5 & W6 & W7).
      split.
      * unfold wf. fields. repeat split; try lia; try assumption.
      * f_equal. unfold view_of, pending. fields. f_equal. f_equal.
        apply (slice_eq _ (pre ++ l1 ++ LF :: l2 ++ LF :: l3 ++ LF :: l4 ++ [LF])
                 rest post); [rewrite Hb'; reassoc | len_simpl; lia | lia].
Qed.

Lemma pull_after_newline (v : view) :
  v_eof v = false -> v_extra_newline v = true -> v_stream v <> [] ->
  pull v = match split_record (v_stream v) with
           | Some (l1, l2, l3, l4, rest) => emit v l1 l2 l3 l4 rest
           | None => premature v
           end.
Proof.
  intros He Hx Hs. unfold pull. rewrite He, Hx.
  destruct (split_record (v_stream v)) as [[[[[l1 l2] l3] l4] rest] |]; [reflexivity |].
  destruct (v_stream v); [congruence | reflexivity].
Qed.

(** The buffered loop computes [pull], and never runs out of fuel. *)
Lemma next_loop_view (fuel : nat) :
  forall self,
    wf self ->
    (length (content (file self)) + (if extra_newline self then 0 else 1) + 2 <= fuel)%nat ->
    exists o,
      next_loop fuel self = Some o
      /\ wf (state_of o)
      /\ (event_of o, view_of (state_of o)) = pull (view_of self).
Proof.
  induction fuel as [|fuel IH]; intros self Hwf Hfuel; [lia |].
  cbn [next_loop].
  destruct (eof self) eqn:Eeof.
  { eexists. split; [reflexivity |]. split; [exact Hwf |].
    unfold pull. cbn [view_of v_eof]. rewrite Eeof. reflexivity. }
  rewrite (locate_spec self (wf_in_buffer _ Hwf)).
  destruct (split_record (pending self)) as [[[[[l1 l2] l3] l4] rest] |] eqn:Esp.
  { cbv zeta. eexists. split; [reflexivity |].
    destruct (parse_record_view self l1 l2 l3 l4 rest Hwf Esp) as [Hw Hv].
    split; [exact Hw |]. rewrite Hv.
    unfold pull. cbn [view_of v_eof v_stream]. rewrite Eeof.
    rewrite (split_record_extend _ _ _ _ _ _ (content (file self)) Esp). reflexivity. }
  destruct (content (file self)) as [|c f] eqn:Ef.
  - (* end of file *)
    pose proof (refill_at_eof self Hwf Ef) as Hr. rewrite Eeof in Hr.
    assert (Hpull : pull (view_of self)
                    = match pending self with
                      | [] => (End, mkView [] (extra_newline self) (yielded_two_headers self)
                                      true (number_of_records self) (save_as_bytes self)
                                      (use_custom_class self))
                      | _ :: _ =>
                          if negb (extra_newline self)
                             && negb (Byte.eqb (last (pending self) NUL) LF)
                          then pull (mkView (pending self ++ [LF]) true
                                       (yielded_two_headers self) false
                                       (number_of_records self) (save_as_bytes self)
                                       (use_custom_class self))
                          else premature (view_of self)
                      end).
    { unfold pull at 1. cbn [view_of v_eof v_stream v_extra_newline v_yielded v_records
                             v_save_as_bytes v_use_custom_class].
      rewrite Eeof, Ef, app_nil_r, Esp.
      destruct (pending self) as [|x p] eqn:Ep; [reflexivity |].
      destruct (negb (extra_newline self) && negb (Byte.eqb (last (x :: p) NUL) LF));
        [| unfold view_of; rewrite Ep, Ef, app_nil_r; reflexivity].
      rewrite pull_after_newline; [reflexivity | reflexivity | reflexivity |].
      cbn [v_stream app]. discriminate. }
    rewrite Hpull. clear Hpull.
    destruct (pending self) as [|x p] eqn:Ep.
    + destruct Hr as (self' & Hr & Hw & Hv). rewrite Hr.
      assert (He : eof self' = true) by (apply (f_equal v_eof) in Hv; exact Hv).
      destruct fuel as [|fuel]; [lia |]. cbn [next_loop]. rewrite He.
      eexists. split; [reflexivity |]. split; [exact Hw |].
      cbn [event_of state_of]. now rewrite Hv.
    + destruct (negb (extra_newline self) && negb (Byte.eqb (last (x :: p) NUL) LF)) eqn:Enl.
      * destruct Hr as (self' & Hr & Hw & Hv & Hf'). rewrite Hr.
        assert (Hx : extra_newline self' = true)
          by (apply (f_equal v_extra_newline) in Hv; exact Hv).
        destruct (IH self' Hw) as (o & Ho & Hwo & Hvo).
        { rewrite Hf', Hx. destruct (extra_newline self); cbn in *; [discriminate | lia]. }
        exists o. split; [exact Ho |]. split; [exact Hwo |]. now rewrite Hvo, Hv.
      * destruct Hr as (e & self' & Hr & Hw & Hv & Hne). rewrite Hr.
        eexists. split; [reflexivity |]. split; [exact Hw |].
        cbn [state_of]. rewrite event_of_raise by exact Hne. exact Hv.
  - (* more bytes to read *)
    destruct (refill_more self Hwf) as (self' & Hr & Hw & Hv & Hlt);
      [rewrite Ef; discriminate |].
    rewrite Hr.
    assert (Hx : extra_newline self' = extra_newline self)
      by (apply (f_equal v_extra_newline) in Hv; exact Hv).
    destruct (IH self' Hw) as (o & Ho & Hwo & Hvo).
    { rewrite Hx. rewrite Ef in Hlt. cbn [length] in *. lia. }
    exists o. split; [exact Ho |]. split; [exact Hwo |]. now rewrite Hvo, Hv.
Qed.

(** [__next__] always returns or raises, keeps the invariant, and what the
    caller sees is [pull] on the view. *)
Lemma next_view (self : FastqIter) :
  wf self ->
  exists o,
    __next__ self = Some o
    /\ wf (state_of o)
    /\ (event_of o, view_of (state_of o)) = pull (view_of self).
Proof.
  intros Hwf. apply next_loop_view; [exact Hwf |].
  destruct (extra_newline self); lia.
Qed.

Lemma run_pulls (n : nat) :
  forall self, wf self -> run n self = pulls n (view_of self).
Proof.
  induction n as [|n IH]; intros self Hwf; [reflexivity |].
  cbn [run pulls]. destruct (next_view self Hwf) as (o & Ho & Hw & Hv).
  rewrite Ho, <- Hv. f_equal. now apply IH.
Qed.

Lemma wf_state_after (n : nat) :
  forall self, wf self -> wf (state_after n self).
Proof.
  induction n as [|n IH]; intros self Hwf; [exact Hwf |].
  cbn [state_after]. destruct (next_view self Hwf) as (o & Ho & Hw & _).
  rewrite Ho. now apply IH.
Qed.

Lemma wf_init (f : binary_file) (cls : sequence_class_t) (capacity : Z) :
  1 <= capacity -> wf (FastqIter_init f cls capacity).
Proof.
  intros H. unfold wf, FastqIter_init, PyMem_Malloc. fields.
  rewrite len_repeat. repeat split; try lia; try discriminate.
Qed.

Lemma view_init (f : binary_file) (cls : sequence_class_t) (capacity : Z) :
  view_of (FastqIter_init f cls capacity)
  = mkView (content f) false false false 0
      (match cls with BytesSequenceClass => true | _ => false end)
      (match cls with CustomClass => true | _ => false end).
Proof.
  unfold view_of, pending, FastqIter_init. fields.
  unfold slice. cbn [Z.sub Z.to_nat Z.opp firstn app]. reflexivity.
Qed.

(** ** Case analysis of one call *)

Lemma worked_on_flags (v w : view) :
  worked_on v w ->
  v_yielded w = v_yielded v /\ v_eof w = v_eof v /\ v_records w = v_records v
  /\ v_save_as_bytes w = v_save_as_bytes v
  /\ v_use_custom_class w = v_use_custom_class v.
Proof. intros [-> | ->]; cbn; auto. Qed.

Lemma pull_cases (v : view) :
  (v_eof v = true /\ pull v = (End, v))
  \/ (v_eof v = false /\ v_stream v = []
      /\ pull v = (End, mkView [] (v_extra_newline v) (v_yielded v) true (v_records v)
                          (v_save_as_bytes v) (v_use_custom_class v)))
  \/ (v_eof v = false
      /\ exists w l1 l2 l3 l4 rest,
           worked_on v w
           /\ split_record (v_stream w) = Some (l1, l2, l3, l4, rest)
           /\ pull v = emit w l1 l2 l3 l4 rest)
  \/ (v_eof v = false
      /\ exists w, worked_on v w /\ split_record (v_stream w) = None
                   /\ pull v = premature w).
Proof.
  unfold pull. destruct (v_eof v) eqn:Ee; [left; auto |]. right.
  destruct (split_record (v_stream v)) as [[[[[l1 l2] l3] l4] rest] |] eqn:Es.
  { right. left. split; [reflexivity |].
    exists v, l1, l2, l3, l4, rest. repeat split; auto. now left. }
  destruct (v_stream v) as [|c s] eqn:Ev; [left; auto |]. right.
  destruct (negb (v_extra_newline v) && negb (Byte.eqb (last (c :: s) NUL) LF)).
  - cbv zeta. cbn [v_stream].
    assert (Hw : mkView ((c :: s) ++ [LF]) true (v_yielded v) false (v_records v)
                   (v_save_as_bytes v) (v_use_custom_class v) = with_newline v)
      by (unfold with_newline; rewrite Ev, Ee; reflexivity).
    rewrite Hw.
    assert (Hs : v_stream (with_newline v) = (c :: s) ++ [LF])
      by (unfold with_newline; cbn [v_stream]; now rewrite Ev).
    destruct (split_record ((c :: s) ++ [LF])) as [[[[[l1 l2] l3] l4] rest] |] eqn:Es'.
    + left. split; [reflexivity |].
      exists (with_newline v), l1, l2, l3, l4, rest.
      split; [now right |]. split; [now rewrite Hs | reflexivity].
    + right. split; [reflexivity |]. exists (with_newline v).
      split; [now right |]. split; [now rewrite Hs | reflexivity].
  - right. split; [reflexivity |]. exists v. split; [now left |].
    split; [now rewrite Ev | reflexivity].
Qed.

Lemma emit_cases (w : view) (l1 l2 l3 l4 rest : bytes) :
  (exists e, check_record (v_records w) l1 l2 l3 l4 = Bad e
             /\ emit w l1 l2 l3 l4 rest = (Error e, w))
  \/ (exists name sequence qualities shl,
        check_record (v_records w) l1 l2 l3 l4 = Good name sequence qualities shl
        /\ v_records w = 0 /\ v_yielded w = false
        /\ emit w l1 l2 l3 l4 rest
           = (Header (negb (shl =? 0)),
              mkView (v_stream w) (v_extra_newline w) true (v_eof w) (v_records w)
                (v_save_as_bytes w) (v_use_custom_class w)))
  \/ (exists name sequence qualities shl,
        check_record (v_records w) l1 l2 l3 l4 = Good name sequence qualities shl
        /\ (v_records w <> 0 \/ v_yielded w = true)
        /\ emit w l1 l2 l3 l4 rest
           = (Record_ (materialize (v_save_as_bytes w) (v_use_custom_class w)
                         name sequence qualities),
              mkView rest (v_extra_newline w) (v_yielded w) (v_eof w) (v_records w + 1)
                (v_save_as_bytes w) (v_use_custom_class w))).
Proof.
  unfold emit.
  destruct (check_record (v_records w) l1 l2 l3 l4) as [e | name sequence qualities shl].
  - left. eauto.
  - right. destruct (Z.eqb_spec (v_records w) 0) as [E | E];
      [destruct (v_yielded w) eqn:Ey |]; cbn [andb negb].
    + right. exists name, sequence, qualities, shl. auto.
    + left. exists name, sequence, qualities, shl. auto.
    + right. exists name, sequence, qualities, shl. auto.
Qed.

Lemma materialize_not_bool (a c : bool) (n s q : bytes) (x : bool) :
  materialize a c n s q <> VBool x.
Proof. unfold materialize. destruct a, c; discriminate. Qed.

(** The record flavour never changes. *)
Lemma pull_flags (v v' : view) (e : event) :
  pull v = (e, v') ->
  v_save_as_bytes v' = v_save_as_bytes v
  /\ v_use_custom_class v' = v_use_custom_class v.
Proof.
  intros H.
  destruct (pull_cases v) as [[_ Hp] | [(_ & _ & Hp) | [(_ & Hp) | (_ & Hp)]]].
  - rewrite Hp in H. inversion H; subst. auto.
  - rewrite Hp in H. inversion H; subst. auto.
  - destruct Hp as (w & l1 & l2 & l3 & l4 & rest & Hw & _ & Hp).
    apply worked_on_flags in Hw. destruct Hw as (_ & _ & _ & Hs & Hc).
    rewrite Hp in H.
    destruct (emit_cases w l1 l2 l3 l4 rest)
      as [(e0 & _ & He) | [(n & s & q & shl & _ & _ & _ & He)
                          | (n & s & q & shl & _ & _ & He)]];
      rewrite He in H; inversion H; subst; cbn; auto.
  - destruct Hp as (w & Hw & _ & Hp).
    apply worked_on_flags in Hw. destruct Hw as (_ & _ & _ & Hs & Hc).
    rewrite Hp in H. unfold premature in H.
    destruct (v_extra_newline w); inversion H; subst; cbn; auto.
Qed.

Lemma length_pulls (n : nat) : forall v, length (pulls n v) = n.
Proof.
  induction n as [|n IH]; intros v; [reflexivity |].
  cbn [pulls]. destruct (pull v) as [e v']. cbn [length]. now rewrite IH.
Qed.

Lemma pulls_S (n : nat) (v : view) :
  pulls (S n) v = fst (pull v) :: pulls n (snd (pull v)).
Proof. cbn [pulls]. destruct (pull v); reflexivity. Qed.

(** ** One call, by the shape of the stream *)

Lemma pull_Some (v : view) (l1 l2 l3 l4 rest : bytes) :
  v_eof v = false ->
  split_record (v_stream v) = Some (l1, l2, l3, l4, rest) ->
  pull v = emit v l1 l2 l3 l4 rest.
Proof. intros He Hs. unfold pull. now rewrite He, Hs. Qed.

Lemma pull_None_premature (v : view) :
  v_eof v = false ->
  split_record (v_stream v) = None ->
  v_stream v <> [] ->
  v_extra_newline v = true \/ last (v_stream v) NUL = LF ->
  pull v = premature v.
Proof.
  intros He Hs Hne Hx. unfold pull. rewrite He, Hs.
  destruct (v_stream v) as [|c s] eqn:Es; [congruence |].
  destruct Hx as [-> | ->]; [reflexivity |].
  rewrite beq_refl. cbn [negb]. now rewrite andb_false_r.
Qed.

Lemma pull_None_newline (v : view) :
  v_eof v = false ->
  split_record (v_stream v) = None ->
  v_stream v <> [] ->
  v_extra_newline v = false ->
  last (v_stream v) NUL <> LF ->
  pull v = match split_record (v_stream v ++ [LF]) with
           | Some (l1, l2, l3, l4, rest) => emit (with_newline v) l1 l2 l3 l4 rest
           | None => premature (with_newline v)
           end.
Proof.
  intros He Hs Hne Hx Hl. unfold pull, with_newline. rewrite He, Hs.
  destruct (v_stream v) as [|c s] eqn:Es; [congruence |].
  rewrite Hx, (beq_neq _ _ Hl). cbn [negb andb v_stream]. reflexivity.
Qed.

Lemma last_app_ne (a b : bytes) : b <> [] -> last (a ++ b) NUL = last b NUL.
Proof.
  intros Hb. induction a as [|x a IH]; [reflexivity |].
  cbn [app]. destruct (a ++ b) eqn:E.
  - apply app_eq_nil in E. destruct E. congruence.
  - rewrite <- IH. reflexivity.
Qed.

(** ** The errors of the structural checks *)

Lemma chr_cases (c : byte) :
  (byte_val c < 128 /\ chr c = inl [c])
  \/ (128 <= byte_val c /\ chr c = inr (ValueError chr_message)).
Proof.
  unfold chr. destruct (Z.leb_spec 128 (byte_val c)); [right | left]; auto.
Qed.

Lemma check_record_Bad_cases (n : Z) (l1 l2 l3 l4 : bytes) (e : exception) :
  check_record n l1 l2 l3 l4 = Bad e ->
  (e = FastqFormatError expected_at_message [[hd LF l1]] (n * 4)
   /\ hd LF l1 <> AT)
  \/ (e = FastqFormatError expected_plus_message [[hd LF l3]] (n * 4 + 2)
      /\ hd LF l1 = AT /\ hd LF l3 <> PLUS)
  \/ (e = FastqFormatError descriptions_message [tl l1; tl l3] (n * 4 + 2)
      /\ hd LF l1 = AT /\ hd LF l3 = PLUS
      /\ strip_cr (tl l3) <> [] /\ strip_cr (tl l3) <> strip_cr (tl l1))
  \/ (e = FastqFormatError lengths_message [] (n * 4 + 3)
      /\ hd LF l1 = AT /\ hd LF l3 = PLUS
      /\ len (strip_cr l4) <> len (strip_cr l2))
  \/ (e = ValueError chr_message
      /\ ((hd LF l1 <> AT /\ 128 <= byte_val (hd LF l1))
          \/ (hd LF l1 = AT /\ hd LF l3 <> PLUS /\ 128 <= byte_val (hd LF l3)))).
Proof.
  unfold check_record.
  destruct (beq_spec (hd LF l1) AT) as [E1 | E1]; cbn [negb].
  2: { destruct (chr_cases (hd LF l1)) as [[Hv ->] | [Hv ->]];
         intros H; inversion H; [left; auto | do 4 right; auto]. }
  destruct (beq_spec (hd LF l3) PLUS) as [E3 | E3]; cbn [negb].
  2: { destruct (chr_cases (hd LF l3)) as [[Hv ->] | [Hv ->]];
         intros H; inversion H; [right; left; auto | do 4 right; auto]. }
  destruct (negb (len (strip_cr (tl l3)) =? 0)
            && (negb (len (strip_cr (tl l1)) =? len (strip_cr (tl l3)))
                || negb (strncmp (strip_cr (tl l3)) (strip_cr (tl l1))
                           (length (strip_cr (tl l3))) =? 0))) eqn:Ed.
  - intros H. inversion H. right. right. left.
    apply andb_true_iff in Ed. destruct Ed as [Hne Hd].
    apply negb_true_iff, Z.eqb_neq in Hne.
    repeat split; auto.
    + intros Hnil. rewrite Hnil in Hne. now apply Hne.
    + apply orb_true_iff in Hd. destruct Hd as [Hd | Hd];
        apply negb_true_iff, Z.eqb_neq in Hd.
      * intros Heq. rewrite Heq in Hd. now apply Hd.
      * now apply strncmp_neq in Hd.
  - destruct (Z.eqb_spec (len (strip_cr l4)) (len (strip_cr l2))) as [E | E];
      cbn [negb]; [discriminate |].
    intros H. inversion H. right. right. right. left. auto.
Qed.

Lemma check_record_Good (n : Z) (l1 l2 l3 l4 name sequence qualities : bytes) (shl : Z) :
  check_record n l1 l2 l3 l4 = Good name sequence qualities shl ->
  name = strip_cr (tl l1) /\ sequence = strip_cr l2 /\ qualities = strip_cr l4
  /\ shl = len (strip_cr (tl l3)) /\ len qualities = len sequence.
Proof.
  unfold check_record.
  destruct (negb (Byte.eqb (hd LF l1) AT)); [destruct (chr _); discriminate |].
  destruct (negb (Byte.eqb (hd LF l3) PLUS)); [destruct (chr _); discriminate |].
  destruct (negb (len (strip_cr (tl l3)) =? 0) && _); [discriminate |].
  destruct (Z.eqb_spec (len (strip_cr l4)) (len (strip_cr l2))) as [E | E];
    cbn [negb]; [| discriminate].
  intros H. inversion H; subst. auto.
Qed.


(** * The claims *)

(** ** Buffer growth *)

Lemma run_same_content (f1 f2 : binary_file) (cls : sequence_class_t) (c1 c2 : Z)
    (n : nat) :
  content f1 = content f2 -> 1 <= c1 -> 1 <= c2 ->
  run n (FastqIter_init f1 cls c1) = run n (FastqIter_init f2 cls c2).
Proof.
  intros Hf H1 H2. rewrite !run_pulls by now apply wf_init.
  now rewrite !view_init, Hf.
Qed.

(** C8: for every input stream, however the file hands it out, and for
    every record class, a parser started with a buffer of one byte and a
    parser started with a buffer of [1 << 20] bytes produce the same
    events, call after call, for any number of calls; and every call does
    produce an event. *)
Theorem C8_initial_capacity_unobservable
    (input : bytes) (reads reads' : list Z) (cls : sequence_class_t) (n : nat) :
  run n (FastqIter_init (mkFile input reads) cls 1)
  = run n (FastqIter_init (mkFile input reads') cls (Z.shiftl 1 20))
  /\ length (run n (FastqIter_init (mkFile input reads) cls 1)) = n.
Proof.
  split.
  - apply run_same_content; [reflexivity | lia |].
    change (Z.shiftl 1 20) with 1048576. lia.
  - rewrite run_pulls by (apply wf_init; lia). apply length_pulls.
Qed.

(** ** The truncated final record *)

(** C1, as stated, fails: on [@r1\nACGT\n+\n!!] the parser does not raise
    the premature-end-of-file error carrying the stranded tail. *)
Lemma C1_counterexample :
  run 1 (FastqIter_init (BytesIO truncated_record) SequenceClass 16)
  = [Error (FastqFormatError lengths_message [] 3)]
  /\ ~ (exists (line : Z) (self' : FastqIter),
         __next__ (FastqIter_init (BytesIO truncated_record) SequenceClass 16)
         = Some (Raise (FastqFormatError premature_eof_message
                          [shorten truncated_record 500] line) self')).
Proof.
  split; [vm_compute; reflexivity |].
  intros (line & self' & H). vm_compute in H. discriminate H.
Qed.

(** C1, amended: whatever the record class and the initial buffer size,
    the first call on [@r1\nACGT\n+\n!!] raises the format error of line 3
    whose message is "Length of sequence and qualities differ" and which
    carries no rendering of the input: the newline the parser appends at
    end of file completes the record before the truncation is noticed. *)
Theorem C1_truncated_record_error
    (reads : list Z) (cls : sequence_class_t) (capacity : Z) :
  1 <= capacity ->
  run 1 (FastqIter_init (mkFile truncated_record reads) cls capacity)
  = [Error (FastqFormatError lengths_message [] 3)].
Proof.
  intros H. rewrite run_pulls by now apply wf_init.
  rewrite view_init; cbn [content]. destruct cls; vm_compute; reflexivity.
Qed.

Lemma C1_truncated_record_error_witness :
  run 1 (FastqIter_init (BytesIO truncated_record) SequenceClass 1)
  = [Error (FastqFormatError lengths_message [] 3)].
Proof. apply (C1_truncated_record_error [] SequenceClass 1). lia. Defined.

(** ** paired_fastq_heads *)

Lemma newlines_0 (buf : bytes) : newlines buf 0 = 0.
Proof. reflexivity. Qed.

(** C7: [paired_fastq_heads] does not look at the sign of its two ends.
    With [end1 = -1] the scan of [buf1] is handed [-1 - pos1] as a
    [size_t], a count of almost [2^64] bytes.  On an empty buffer this
    scan leaves the buffer at once, and so it does on any buffer once its
    newlines are used up: the call has no defined result where the claim
    promises a pair, here (0, 0).  While [buf1] still holds newlines the
    scans find them although they lie beyond [end1]: five newlines with
    [end1 = -1], against four newlines, give (4, 4), a prefix of four
    newlines where nothing may be scanned. *)
Theorem C7_negative_end_leaves_buffer :
  memchr_size_t [] 0 LF (Z.min (-1) (len (@nil byte)) - 0) = OutOfBounds
  /\ paired_fastq_heads [] [] (-1) 0 = None
  /\ paired_fastq_heads minimal_record minimal_record (-1) 16 = None
  /\ paired_fastq_heads [LF; LF; LF; LF; LF] [LF; LF; LF; LF] (-1) 4 = Some (4, 4)
  /\ newlines [LF; LF; LF; LF; LF] (Z.min (-1) 5) = 0.
Proof. repeat split; vm_compute; reflexivity. Qed.

(** ** Serialization *)

Lemma byte_of_code_to_N (c : byte) : byte_of_code (Byte.to_N c) = c.
Proof. unfold byte_of_code. now rewrite Byte.of_to_N. Qed.

Lemma data_of_str_of_bytes (l : bytes) : PyUnicode_1BYTE_DATA (str_of_bytes l) = l.
Proof.
  unfold PyUnicode_1BYTE_DATA, str_of_bytes. rewrite map_map.
  induction l as [|c l IH]; cbn [map]; [reflexivity |].
  now rewrite byte_of_code_to_N, IH.
Qed.

Lemma str_of_bytes_1byte (l : bytes) :
  forallb (fun c => (c <? 256)%N) (str_of_bytes l) = true.
Proof.
  apply forallb_forall. intros x Hx. apply in_map_iff in Hx.
  destruct Hx as (c & <- & _). apply N.ltb_lt.
  pose proof (Byte.to_N_bounded c). lia.
Qed.

Lemma contains_crlf_single (c : byte) : contains_crlf [c] = false.
Proof.
  cbn [contains_crlf hd]. change (Byte.eqb NUL LF) with false.
  now rewrite andb_false_r.
Qed.

Lemma ends_with_cr_single (c : byte) : c <> CR -> ends_with_cr [c] = false.
Proof. intros H. unfold ends_with_cr. cbn [last]. now apply beq_neq. Qed.

Lemma contains_crlf_text (name sequence qualities : bytes) (two_headers : bool) :
  contains_crlf (fastq_text name sequence qualities two_headers)
  = contains_crlf name || ends_with_cr name
    || contains_crlf sequence || ends_with_cr sequence
    || contains_crlf qualities || ends_with_cr qualities.
Proof.
  unfold fastq_text.
  assert (Hlf : forall t, Byte.eqb (hd NUL ([LF] ++ t)) LF = true)
    by (intros; cbn [app hd]; apply beq_refl).
  assert (Hnil : ends_with_cr [] = false) by reflexivity.
  assert (Hnilc : contains_crlf [] = false) by reflexivity.
  rewrite (contains_crlf_app [AT]), contains_crlf_single,
    (ends_with_cr_single AT) by discriminate.
  rewrite (contains_crlf_app name), Hlf.
  rewrite (contains_crlf_app [LF]), contains_crlf_single,
    (ends_with_cr_single LF) by discriminate.
  rewrite (contains_crlf_app sequence), Hlf.
  rewrite (contains_crlf_app [LF]), contains_crlf_single,
    (ends_with_cr_single LF) by discriminate.
  rewrite (contains_crlf_app [PLUS]), contains_crlf_single,
    (ends_with_cr_single PLUS) by discriminate.
  rewrite (contains_crlf_app (if two_headers then name else [])), Hlf.
  rewrite (contains_crlf_app [LF]), contains_crlf_single,
    (ends_with_cr_single LF) by discriminate.
  rewrite (contains_crlf_app qualities).
  change (Byte.eqb (hd NUL [LF]) LF) with true. rewrite contains_crlf_single.
  destruct two_headers; rewrite ?Hnil, ?Hnilc;
    destruct (contains_crlf name), (ends_with_cr name), (contains_crlf sequence),
      (ends_with_cr sequence), (contains_crlf qualities), (ends_with_cr qualities);
    reflexivity.
Qed.

(** C5, as stated, fails: a record whose name ends in a carriage return
    serializes to bytes that contain CR LF. *)
Lemma C5_counterexample :
  let out := bs "@r" ++ [CR; LF] ++ bs "A" ++ [LF] ++ bs "+" ++ [LF] ++ bs "!" ++ [LF] in
  Sequence_fastq_bytes (mkSequence [114; 13]%N [65]%N (Some [33]%N)) false = inl out
  /\ contains_crlf out = true.
Proof. cbv zeta. split; vm_compute; reflexivity. Qed.

(** C5, amended: for every record whose name is single-byte-encodable and
    whose sequence and qualities are ASCII, [fastq_bytes(two_headers)]
    returns exactly [@NAME LF SEQ LF + [NAME] LF QUAL LF] (the text and the
    bytes flavour alike), of length [name_len + seq_len + qual_len + 6]
    plus [name_len] with two headers; the serializer adds line feeds only,
    so the output contains CR LF exactly when a field contains CR LF or
    ends in a carriage return. *)
Theorem C5_fastq_bytes_layout
    (name sequence qualities : str) (two_headers : bool) :
  forallb (fun c => (c <? 256)%N) name = true ->
  forallb (fun c => (c <? 128)%N) sequence = true ->
  forallb (fun c => (c <? 128)%N) qualities = true ->
  let NAME := map byte_of_code name in
  let SEQ := map byte_of_code sequence in
  let QUAL := map byte_of_code qualities in
  let out := [AT] ++ NAME ++ [LF] ++ SEQ ++ [LF] ++ [PLUS]
             ++ (if two_headers then NAME else []) ++ [LF] ++ QUAL ++ [LF] in
  Sequence_fastq_bytes (mkSequence name sequence (Some qualities)) two_headers = inl out
  /\ BytesSequence_fastq_bytes (mkBytesSequence NAME SEQ QUAL) two_headers = out
  /\ len out = len name + len sequence + len qualities + 6
               + (if two_headers then len name else 0)
  /\ contains_crlf out
     = contains_crlf NAME || ends_with_cr NAME
       || contains_crlf SEQ || ends_with_cr SEQ
       || contains_crlf QUAL || ends_with_cr QUAL.
Proof.
  intros Hn Hs Hq. cbv zeta.
  fold (fastq_text (map byte_of_code name) (map byte_of_code sequence)
          (map byte_of_code qualities) two_headers).
  split; [| split; [| split]].
  - unfold Sequence_fastq_bytes. cbn [seq_name seq_sequence seq_qualities].
    rewrite (text_data_1byte _ name Hn).
    rewrite (text_data_1byte _ sequence (forallb_ascii_1byte _ Hs)).
    rewrite (text_data_1byte _ qualities (forallb_ascii_1byte _ Hq)).
    now rewrite create_fastq_record_text.
  - unfold BytesSequence_fastq_bytes. cbn [bseq_name bseq_sequence bseq_qualities].
    apply create_fastq_record_text.
  - rewrite len_fastq_text. unfold len. rewrite !length_map. reflexivity.
  - apply contains_crlf_text.
Qed.

Lemma C5_fastq_bytes_layout_witness :
  Sequence_fastq_bytes (mkSequence [114; 49]%N [65; 67]%N (Some [33; 33]%N)) true
  = inl (bs "@r1" ++ [LF] ++ bs "AC" ++ [LF] ++ bs "+r1" ++ [LF] ++ bs "!!" ++ [LF]).
Proof.
  exact (proj1 (C5_fastq_bytes_layout [114; 49]%N [65; 67]%N [33; 33]%N true
                  eq_refl eq_refl eq_refl)).
Defined.

(** ** ID matching *)

(** C4, as stated, fails: with a NUL byte inside the headers the code
    stops at the NUL and reports a match, while the policy that ends an ID
    only at a space or a tab compares all three bytes and reports none. *)
Lemma C4_counterexample :
  result (record_ids_match [x61; x00; x58] [x61; x00; x59] 3) = Some true
  /\ IdMatcher_policy_spec [x61; x00; x58] [x61; x00; x59] 3 = false.
Proof. split; vm_compute; reflexivity. Qed.

(** C4, amended: headers are C strings, so an ID ends at the first space,
    tab or NUL byte of header2 (or at its length), and header1 must show a
    NUL byte, a space or a tab at that offset.  For [header1_length] not
    larger than header1 and a non-empty ID in header2, [record_ids_match]
    returns exactly what the five steps of the policy give.  In particular
    the three examples of the specification hold, and every header with a
    non-empty ID matches itself. *)
Theorem C4_record_ids_match_policy
    (header1 header2 h : bytes) (header1_length : Z) :
  header1_length <= len header1 ->
  len header2 < 2 ^ 64 ->
  0 < find_first id_stop header2 ->
  len h < 2 ^ 64 ->
  0 < find_first id_stop h ->
  result (record_ids_match header1 header2 header1_length)
  = Some (IdMatcher_policy header1 header2 header1_length)
  /\ result (record_ids_match (bs "read/1 comment") (bs "read/2 other") 13) = Some true
  /\ result (record_ids_match (bs "readA") (bs "readB") 5) = Some false
  /\ result (record_ids_match (bs "read1") (bs "read1extra") 5) = Some false
  /\ result (record_ids_match h h (len h)) = Some true.
Proof.
  intros H1 H2 H3 H4 H5.
  split; [now apply record_ids_match_policy |].
  split; [vm_compute; reflexivity |].
  split; [vm_compute; reflexivity |].
  split; [vm_compute; reflexivity |].
  rewrite record_ids_match_policy by (auto; lia).
  now rewrite IdMatcher_policy_refl.
Qed.

Lemma C4_record_ids_match_policy_witness :
  result (record_ids_match (bs "read/1 comment") (bs "read/2 other") 14)
  = Some (IdMatcher_policy (bs "read/1 comment") (bs "read/2 other") 14).
Proof.
  refine (proj1 (C4_record_ids_match_policy (bs "read/1 comment") (bs "read/2 other")
                   (bs "read/1") 14 _ _ _ _ _)).
  - vm_compute. discriminate.
  - vm_compute. reflexivity.
  - vm_compute. reflexivity.
  - vm_compute. reflexivity.
  - vm_compute. reflexivity.
Defined.

(** C9 fails on the code: for two empty headers the ID of header2 is
    empty, header1 passes the end-of-ID test on its terminator, and the
    suffix test then reads [header1[id2_length - 1]] with the unsigned
    [id2_length - 1] wrapped to [2^64 - 1], the byte just before the
    header.  The read is outside the header and the call has no defined
    result. *)
Theorem C9_suffix_test_reads_before_header :
  record_ids_match [] [] 0
  = ([(Header2, 0); (Header1, 0); (Header1, 2 ^ 64 - 1)], None)
  /\ ~ in_bounds [] [] (Header1, 2 ^ 64 - 1)
  /\ record_names_match_bytes [] [] = record_ids_match [] [] 0.
Proof.
  split; [vm_compute; reflexivity |]. split; [| reflexivity].
  unfold in_bounds. cbn [fst snd]. change (len (@nil byte)) with 0. lia.
Qed.

(** ** The order of events *)

Lemma premature_event (w : view) :
  exists args line v',
    premature w = (Error (FastqFormatError premature_eof_message args line), v')
    /\ v_yielded v' = v_yielded w /\ v_records v' = v_records w
    /\ v_eof v' = v_eof w.
Proof.
  unfold premature. destruct (v_extra_newline w); cbn; eauto 10.
Qed.

(** What one call can produce, by the phase the parser is in. *)
Lemma pull_phases (v v' : view) (e : event) :
  pull v = (e, v') ->
  v_records v' = v_records v + (if is_record e then 1 else 0)
  /\ (match e with
      | Header _ => v_records v = 0 /\ v_yielded v = false /\ v_yielded v' = true
      | Record_ _ => (v_records v <> 0 \/ v_yielded v = true)
                     /\ v_yielded v' = v_yielded v
      | End => v_eof v' = true /\ v_yielded v' = v_yielded v
      | Error _ => v_yielded v' = v_yielded v /\ v_eof v' = v_eof v
      end).
Proof.
  intros H.
  destruct (pull_cases v) as [[He Hp] | [(He & _ & Hp) | [(He & Hp) | (He & Hp)]]].
  - rewrite Hp in H. inversion H; subst. cbn. split; [lia | auto].
  - rewrite Hp in H. inversion H; subst. cbn. split; [lia | auto].
  - destruct Hp as (w & l1 & l2 & l3 & l4 & rest & Hw & _ & Hp).
    apply worked_on_flags in Hw. destruct Hw as (Hy & Hf & Hr & _).
    rewrite Hp in H.
    destruct (emit_cases w l1 l2 l3 l4 rest)
      as [(e0 & Hc & Hm) | [(n & s & q & shl & _ & R0 & Y0 & Hm)
                           | (n & s & q & shl & _ & RY & Hm)]];
      rewrite Hm in H; inversion H; subst; cbn [v_records v_yielded v_eof is_record].
    + apply check_record_Bad in Hc.
      destruct e0; try congruence; cbn; (split; [lia | auto]).
    + split; [lia |]. rewrite <- Hr, <- Hy. auto.
    + split; [lia | rewrite <- Hr, <- Hy; auto].
  - destruct Hp as (w & Hw & _ & Hp).
    apply worked_on_flags in Hw. destruct Hw as (Hy & Hf & Hr & _).
    destruct (premature_event w) as (args & line & v0 & Hm & Y & R & E).
    rewrite Hp, Hm in H. inversion H; subst. cbn [is_record].
    split; [lia |]. split; congruence.
Qed.

Lemma no_header_after (n : nat) :
  forall v k, v_yielded v = true -> count_headers (firstn k (pulls n v)) = O.
Proof.
  induction n as [|n IH]; intros v k Hy; [now rewrite firstn_nil |].
  rewrite pulls_S. destruct (pull v) as [e v'] eqn:Hp. cbn [fst snd].
  destruct k as [|k]; [reflexivity |]. cbn [firstn].
  apply pull_phases in Hp. destruct Hp as [_ Hp].
  unfold count_headers in *. cbn [filter].
  destruct e; cbn [is_header].
  - destruct Hp as (_ & Hn & _). congruence.
  - apply IH. destruct Hp as [_ ->]. exact Hy.
  - apply IH. destruct Hp as [_ ->]. exact Hy.
  - apply IH. destruct Hp as [-> _]. exact Hy.
Qed.

Lemma one_header_before_record (n : nat) :
  forall v k r,
    v_records v = 0 -> v_yielded v = false ->
    nth_error (pulls n v) k = Some (Record_ r) ->
    count_headers (firstn k (pulls n v)) = 1%nat.
Proof.
  induction n as [|n IH]; intros v k r Hr Hy Hk; [destruct k; discriminate |].
  rewrite pulls_S in *. destruct (pull v) as [e v'] eqn:Hp. cbn [fst snd] in *.
  apply pull_phases in Hp. destruct Hp as [Hrec Hp].
  destruct k as [|k]; cbn [nth_error] in Hk.
  - inversion Hk; subst. destruct Hp as [[H | H] _]; congruence.
  - cbn [firstn]. unfold count_headers in *. cbn [filter].
    destruct e; cbn [is_header is_record] in *.
    + cbn [length]. f_equal. apply no_header_after. tauto.
    + destruct Hp as [[H | H] _]; congruence.
    + apply (IH v' k r); [lia | | exact Hk]. destruct Hp as [_ ->]. exact Hy.
    + apply (IH v' k r); [lia | | exact Hk]. destruct Hp as [-> _]. exact Hy.
Qed.

Lemma pulls_at_eof (n : nat) :
  forall v j, v_eof v = true -> (j < n)%nat -> nth_error (pulls n v) j = Some End.
Proof.
  induction n as [|n IH]; intros v j He Hj; [lia |].
  rewrite pulls_S. unfold pull at 1 2. rewrite He. cbn [fst snd].
  destruct j as [|j]; [reflexivity |]. cbn [nth_error]. apply IH; [exact He | lia].
Qed.

Lemma end_is_final (n : nat) :
  forall v k j,
    nth_error (pulls n v) k = Some End -> (k <= j < n)%nat ->
    nth_error (pulls n v) j = Some End.
Proof.
  induction n as [|n IH]; intros v k j Hk Hj; [lia |].
  rewrite pulls_S in *. destruct (pull v) as [e v'] eqn:Hp. cbn [fst snd] in *.
  destruct k as [|k]; cbn [nth_error] in Hk.
  - inversion Hk; subst. apply pull_phases in Hp. destruct Hp as [_ [He _]].
    destruct j as [|j]; [reflexivity |]. cbn [nth_error].
    apply pulls_at_eof; [exact He | lia].
  - destruct j as [|j]; [lia |]. cbn [nth_error]. apply (IH v' k j Hk). lia.
Qed.

(** C2, as stated, fails: on the empty stream the first call reports the
    end of the stream; no Header event is produced. *)
Lemma C2_counterexample :
  run 1 (FastqIter_init (BytesIO []) SequenceClass 1) = [End]
  /\ ~ (exists b,
         nth_error (run 1 (FastqIter_init (BytesIO []) SequenceClass 1)) 0
         = Some (Header b)).
Proof.
  split; [vm_compute; reflexivity |].
  intros [b H]. vm_compute in H. discriminate H.
Qed.

(** The event of a complete record depends on the counters and flags only. *)
Lemma fst_emit (v : view) (l1 l2 l3 l4 rest : bytes) :
  fst (emit v l1 l2 l3 l4 rest)
  = match check_record (v_records v) l1 l2 l3 l4 with
    | Bad e => Error e
    | Good name sequence qualities shl =>
        if (v_records v =? 0) && negb (v_yielded v)
        then Header (negb (shl =? 0))
        else Record_ (materialize (v_save_as_bytes v) (v_use_custom_class v)
                        name sequence qualities)
    end.
Proof.
  unfold emit. destruct (check_record (v_records v) l1 l2 l3 l4); [reflexivity |].
  now destruct ((v_records v =? 0) && negb (v_yielded v)).
Qed.

(** One call on a stream that has not been completed yet, read off the
    completed stream. *)
Lemma pull_by_stream (s : bytes) (y : bool) (k : Z) (a c : bool) :
  s <> [] ->
  fst (pull (mkView s false y false k a c))
  = match split_record (terminated s) with
    | Some (l1, l2, l3, l4, rest) =>
        fst (emit (mkView s false y false k a c) l1 l2 l3 l4 rest)
    | None =>
        Error (FastqFormatError premature_eof_message [shorten s 500]
                 (k * 4 + count LF s))
    end.
Proof.
  intros Hne. set (v := mkView s false y false k a c).
  unfold terminated.
  destruct (split_record s) as [[[[[l1 l2] l3] l4] rest] |] eqn:Esp.
  - rewrite (pull_Some v l1 l2 l3 l4 rest eq_refl Esp).
    destruct (Byte.eqb (last s NUL) LF); [now rewrite Esp |].
    rewrite (split_record_extend _ _ _ _ _ _ [LF] Esp). now rewrite !fst_emit.
  - destruct (beq_spec (last s NUL) LF) as [El | El].
    + rewrite Esp. rewrite (pull_None_premature v eq_refl Esp Hne (or_intror El)).
      reflexivity.
    + rewrite (pull_None_newline v eq_refl Esp Hne eq_refl El). cbn [v_stream v].
      destruct (split_record (s ++ [LF])) as [[[[[l1 l2] l3] l4] rest] |];
        [now rewrite !fst_emit |].
      unfold premature, with_newline, with_stream.
      cbn [v_extra_newline v_stream v_records fst v]. now rewrite removelast_last.
Qed.

(** C2, amended: the first call on a fresh parser produces End on the
    empty stream.  On any other stream, completed by a newline when its
    last byte is not one: when the stream starts with four lines that
    pass the checks, the call produces the Header event, which reports
    whether the second header (the third line after its '+', a final
    carriage return not counted) is non-empty; when the four lines fail a
    check, the call raises the error of that check, a format error of
    line 0, 2 or 3, or the [ValueError] of [chr] when the offending first
    byte is 0x80 or above; when the stream has fewer than four lines, the
    call raises the format error of a premature end of file, whose line is
    the number of newlines of the stream.  It never produces a Record.  In
    every sequence of calls, exactly one Header event precedes any Record.
    Once End has been produced every further call produces End, and a call
    on a parser whose [eof] flag is set raises StopIteration without
    changing it. *)
Theorem C2_header_records_end
    (input : bytes) (reads : list Z) (cls : sequence_class_t) (capacity : Z) :
  1 <= capacity ->
  let fresh := FastqIter_init (mkFile input reads) cls capacity in
  (input = [] -> run 1 fresh = [End])
  /\ (input <> [] ->
      match split_record (terminated input) with
      | Some (l1, l2, l3, l4, _) =>
          match check_record 0 l1 l2 l3 l4 with
          | Good _ _ _ _ =>
              run 1 fresh = [Header (negb (len (strip_cr (tl l3)) =? 0))]
          | Bad e =>
              run 1 fresh = [Error e]
              /\ ((exists message args line,
                     e = FastqFormatError message args line
                     /\ (line = 0 \/ line = 2 \/ line = 3))
                  \/ e = ValueError chr_message)
          end
      | None =>
          run 1 fresh
          = [Error (FastqFormatError premature_eof_message [shorten input 500]
                      (count LF input))]
      end)
  /\ (exists e, run 1 fresh = [e] /\ is_record e = false)
  /\ (forall n k r,
        nth_error (run n fresh) k = Some (Record_ r) ->
        count_headers (firstn k (run n fresh)) = 1%nat)
  /\ (forall n k j,
        nth_error (run n fresh) k = Some End -> (k <= j < n)%nat ->
        nth_error (run n fresh) j = Some End)
  /\ (forall self, eof self = true -> __next__ self = Some (Raise StopIteration self)).
Proof.
  intros Hc. cbv zeta.
  pose proof (wf_init (mkFile input reads) cls capacity Hc) as Hwf.
  split; [| split; [| split; [| split; [| split]]]].
  - intros ->. rewrite run_pulls by exact Hwf. rewrite view_init; cbn [content]. reflexivity.
  - intros Hne. rewrite run_pulls by exact Hwf. rewrite view_init; cbn [content].
    rewrite pulls_S. cbn [pulls]. rewrite (pull_by_stream input _ _ _ _ Hne).
    destruct (split_record (terminated input)) as [[[[[l1 l2] l3] l4] rest] |];
      [| reflexivity].
    rewrite fst_emit. cbn [v_records v_yielded].
    destruct (check_record 0 l1 l2 l3 l4) as [e | name sequence qualities shl] eqn:Eg.
    2: { apply check_record_Good in Eg. destruct Eg as (_ & _ & _ & -> & _).
         reflexivity. }
    split; [reflexivity |].
    apply check_record_Bad_cases in Eg.
    destruct Eg as [(-> & _) | [(-> & _) | [(-> & _) | [(-> & _) | (-> & _)]]]];
      [left | left | left | left | right; reflexivity];
      do 3 eexists; (split; [reflexivity | lia]).
  - rewrite run_pulls by exact Hwf. rewrite view_init; cbn [content].
    cbn [pulls]. destruct (pull _) as [e v'] eqn:Hp. exists e. split; [reflexivity |].
    apply pull_phases in Hp. destruct Hp as [_ Hp]. cbn [v_records v_yielded] in Hp.
    destruct e; try reflexivity. destruct Hp as [[H | H] _]; congruence.
  - intros n k r. rewrite run_pulls by exact Hwf. rewrite view_init; cbn [content].
    now apply one_header_before_record.
  - intros n k j. rewrite run_pulls by exact Hwf. apply end_is_final.
  - intros self He. unfold __next__.
    replace (length (content (file self)) + 3)%nat
      with (S (length (content (file self)) + 2)) by lia.
    cbn [next_loop]. now rewrite He.
Qed.

Lemma C2_header_records_end_witness :
  run 1 (FastqIter_init (mkFile minimal_record []) SequenceClass 1) = [Header false]
  /\ run 1 (FastqIter_init (mkFile [] []) SequenceClass 1) = [End].
Proof.
  pose proof (C2_header_records_end minimal_record [] SequenceClass 1 ltac:(lia)) as H.
  pose proof (C2_header_records_end [] [] SequenceClass 1 ltac:(lia)) as H0.
  cbv zeta in H, H0. split.
  - exact (proj1 (proj2 H) ltac:(discriminate)).
  - exact (proj1 H0 eq_refl).
Defined.

(** ** Round trip through the serializer *)

Lemma in_strip_cr (x : byte) (l : bytes) : In x (strip_cr l) -> In x l.
Proof.
  intros H. rewrite (strip_cr_split l). apply in_or_app. now left.
Qed.

Lemma strip_cr_id (l : bytes) : ends_with_cr l = false -> strip_cr l = l.
Proof. unfold ends_with_cr, strip_cr. now intros ->. Qed.

Lemma not_in_tl (x : byte) (l : bytes) : ~ In x l -> ~ In x (tl l).
Proof. destruct l; cbn; tauto. Qed.

(** A returned record is made of three newline-free fields, sequence and
    qualities of the same length. *)
Lemma pull_record_fields (v v' : view) (r : value) :
  pull v = (Record_ r, v') ->
  exists name sequence qualities,
    r = materialize (v_save_as_bytes v) (v_use_custom_class v) name sequence qualities
    /\ ~ In LF name /\ ~ In LF sequence /\ ~ In LF qualities
    /\ len qualities = len sequence.
Proof.
  intros H.
  destruct (pull_cases v) as [[He Hp] | [(He & _ & Hp) | [(He & Hp) | (He & Hp)]]].
  - rewrite Hp in H. discriminate.
  - rewrite Hp in H. discriminate.
  - destruct Hp as (w & l1 & l2 & l3 & l4 & rest & Hw & Hs & Hp).
    apply worked_on_flags in Hw. destruct Hw as (_ & _ & _ & Hb & Hc).
    apply split_record_Some in Hs. destruct Hs as (_ & N1 & N2 & N3 & N4).
    rewrite Hp in H.
    destruct (emit_cases w l1 l2 l3 l4 rest)
      as [(e0 & _ & Hm) | [(n & s & q & shl & _ & _ & _ & Hm)
                          | (n & s & q & shl & Hg & _ & Hm)]];
      rewrite Hm in H; inversion H; subst.
    apply check_record_Good in Hg. destruct Hg as (-> & -> & -> & _ & Hl).
    exists (strip_cr (tl l1)), (strip_cr l2), (strip_cr l4).
    rewrite Hb, Hc. split; [reflexivity |].
    repeat split; try exact Hl; intros Hin; apply in_strip_cr in Hin;
      [now apply (not_in_tl LF l1 N1) | now apply N2 | now apply N4].
  - destruct Hp as (w & _ & _ & Hp).
    destruct (premature_event w) as (args & line & v0 & Hm & _).
    rewrite Hp, Hm in H. discriminate.
Qed.

Lemma pulls_record_fields (n : nat) :
  forall v k r,
    nth_error (pulls n v) k = Some (Record_ r) ->
    exists name sequence qualities,
      r = materialize (v_save_as_bytes v) (v_use_custom_class v) name sequence qualities
      /\ ~ In LF name /\ ~ In LF sequence /\ ~ In LF qualities
      /\ len qualities = len sequence.
Proof.
  induction n as [|n IH]; intros v k r Hk; [destruct k; discriminate |].
  rewrite pulls_S in Hk. destruct (pull v) as [e v'] eqn:Hp. cbn [fst snd] in Hk.
  destruct k as [|k]; cbn [nth_error] in Hk.
  - inversion Hk; subst. eapply pull_record_fields; eauto.
  - destruct (pull_flags _ _ _ Hp) as [<- <-]. now apply (IH v' k r).
Qed.

Lemma fields_of_materialize (a c : bool) (name sequence qualities : bytes) :
  fields_of (materialize a c name sequence qualities) = Some (name, sequence, qualities).
Proof.
  unfold materialize. destruct a; [reflexivity |].
  destruct c; cbn [fields_of seq_name seq_sequence seq_qualities];
    now rewrite !data_of_str_of_bytes.
Qed.

Lemma fastq_bytes_materialize (a : bool) (name sequence qualities : bytes) :
  fastq_bytes (materialize a false name sequence qualities) false
  = inl (fastq_text name sequence qualities false).
Proof.
  unfold materialize. destruct a; cbn [fastq_bytes].
  - unfold BytesSequence_fastq_bytes. cbn [bseq_name bseq_sequence bseq_qualities].
    now rewrite create_fastq_record_text.
  - unfold Sequence_fastq_bytes. cbn [seq_name seq_sequence seq_qualities].
    rewrite !text_data_1byte by apply str_of_bytes_1byte.
    fold (PyUnicode_1BYTE_DATA (str_of_bytes name)).
    fold (PyUnicode_1BYTE_DATA (str_of_bytes sequence)).
    fold (PyUnicode_1BYTE_DATA (str_of_bytes qualities)).
    rewrite !data_of_str_of_bytes. now rewrite create_fastq_record_text.
Qed.

(** Parsing the text of one record. *)
Lemma pulls_fastq_text (a c : bool) (name sequence qualities : bytes) :
  ~ In LF name -> ~ In LF sequence -> ~ In LF qualities ->
  ends_with_cr name = false -> ends_with_cr sequence = false ->
  ends_with_cr qualities = false ->
  len qualities = len sequence ->
  pulls 3 (mkView (fastq_text name sequence qualities false) false false false 0 a c)
  = [Header false; Record_ (materialize a c name sequence qualities); End].
Proof.
  intros N1 N2 N3 E1 E2 E3 Hl.
  assert (Hs : split_record (fastq_text name sequence qualities false)
               = Some (AT :: name, sequence, [PLUS], qualities, [])).
  { unfold fastq_text. cbn [app].
    change (AT :: name ++ LF :: sequence ++ LF :: PLUS :: LF :: qualities ++ [LF])
      with ((AT :: name) ++ LF :: sequence ++ LF :: [PLUS] ++ LF :: qualities ++ LF :: []).
    apply split_record_app; try assumption.
    - intros [H | H]; [discriminate | contradiction].
    - intros [H | []]; discriminate. }
  assert (Hc : check_record 0 (AT :: name) sequence [PLUS] qualities
               = Good name sequence qualities 0).
  { unfold check_record. cbn [hd tl]. rewrite !beq_refl. cbn [negb].
    rewrite (strip_cr_id name E1), (strip_cr_id sequence E2), (strip_cr_id qualities E3).
    change (strip_cr []) with (@nil byte). change (len (@nil byte)) with 0.
    cbn [Z.eqb negb andb]. rewrite Hl, Z.eqb_refl. reflexivity. }
  cbn [pulls]. unfold pull at 1. cbn [v_eof v_stream]. rewrite Hs.
  unfold emit at 1. cbn [v_records v_yielded v_stream v_extra_newline v_eof
                         v_save_as_bytes v_use_custom_class]. rewrite Hc.
  cbn [Z.eqb negb andb].
  unfold pull at 1. cbn [v_eof v_stream]. rewrite Hs.
  unfold emit at 1. cbn [v_records v_yielded v_stream v_extra_newline v_eof
                         v_save_as_bytes v_use_custom_class]. rewrite Hc.
  cbn [Z.eqb negb andb]. reflexivity.
Qed.

(** C3, as stated, fails: the parser accepts [@r CR CR LF A LF + LF ! LF]
    and returns the record named [r CR]; its serialization parses to the
    record named [r]. *)
Lemma C3_counterexample :
  let r := VBytesSequence (mkBytesSequence [x72; CR] (bs "A") (bs "!")) in
  let r' := VBytesSequence (mkBytesSequence [x72] (bs "A") (bs "!")) in
  let text := bs "@r" ++ [CR; LF] ++ bs "A" ++ [LF] ++ bs "+" ++ [LF] ++ bs "!" ++ [LF] in
  run 3 (FastqIter_init (BytesIO cr_name_record) BytesSequenceClass 16)
  = [Header false; Record_ r; End]
  /\ fastq_bytes r false = inl text
  /\ run 3 (FastqIter_init (BytesIO text) BytesSequenceClass 16)
     = [Header false; Record_ r'; End]
  /\ r' <> r.
Proof.
  cbv zeta. split; [vm_compute; reflexivity |].
  split; [vm_compute; reflexivity |].
  split; [vm_compute; reflexivity |]. discriminate.
Qed.

(** C3, amended: for every record r returned by the parser (text or bytes
    flavour) none of whose three fields ends in a carriage return, the
    bytes [r.fastq_bytes(two_headers=false)] parse, whatever the initial
    buffer size, to the header flag [false], then exactly one record, equal
    to r, then the end of the stream. *)
Theorem C3_serialize_then_parse
    (input : bytes) (reads reads' : list Z) (cls : sequence_class_t)
    (capacity capacity' : Z) (n k : nat)
    (r : value) (name sequence qualities : bytes) :
  1 <= capacity -> 1 <= capacity' ->
  cls <> CustomClass ->
  nth_error (run n (FastqIter_init (mkFile input reads) cls capacity)) k = Some (Record_ r) ->
  fields_of r = Some (name, sequence, qualities) ->
  ends_with_cr name = false ->
  ends_with_cr sequence = false ->
  ends_with_cr qualities = false ->
  exists text,
    fastq_bytes r false = inl text
    /\ run 3 (FastqIter_init (mkFile text reads') cls capacity')
       = [Header false; Record_ r; End].
Proof.
  intros Hc Hc' Hcls Hk Hf E1 E2 E3.
  rewrite run_pulls in Hk by now apply wf_init. rewrite view_init in Hk; cbn [content] in Hk.
  apply pulls_record_fields in Hk.
  destruct Hk as (nm & sq & ql & Hr & N1 & N2 & N3 & Hl).
  cbn [v_save_as_bytes v_use_custom_class] in Hr.
  rewrite Hr, fields_of_materialize in Hf. inversion Hf; subst nm sq ql. clear Hf.
  exists (fastq_text name sequence qualities false).
  assert (Hcust : match cls with CustomClass => true | _ => false end = false)
    by (destruct cls; congruence).
  rewrite Hcust in Hr. subst r.
  split; [apply fastq_bytes_materialize |].
  rewrite run_pulls by now apply wf_init. rewrite view_init, Hcust; cbn [content].
  now apply pulls_fastq_text.
Qed.

Lemma C3_serialize_then_parse_witness :
  exists text,
    fastq_bytes (VBytesSequence (mkBytesSequence (bs "r1") (bs "ACGT") (bs "!!!!"))) false
    = inl text
    /\ run 3 (FastqIter_init (mkFile text []) BytesSequenceClass 1)
       = [Header false;
          Record_ (VBytesSequence (mkBytesSequence (bs "r1") (bs "ACGT") (bs "!!!!")));
          End].
Proof.
  refine (C3_serialize_then_parse minimal_record [] [] BytesSequenceClass 4 1 2 1
            (VBytesSequence (mkBytesSequence (bs "r1") (bs "ACGT") (bs "!!!!")))
            (bs "r1") (bs "ACGT") (bs "!!!!") _ _ _ _ _ _ _ _).
  - lia.
  - lia.
  - discriminate.
  - vm_compute. reflexivity.
  - reflexivity.
  - vm_compute. reflexivity.
  - vm_compute. reflexivity.
  - vm_compute. reflexivity.
Defined.

(** ** Line numbers of format errors *)

(** Each structural defect of a complete record is reported, in the order
    of the checks; the first two reports need an offending byte that [chr]
    accepts. *)
Lemma check_record_reports (n : Z) (l1 l2 l3 l4 : bytes) :
  (hd LF l1 <> AT -> byte_val (hd LF l1) < 128 ->
   check_record n l1 l2 l3 l4
   = Bad (FastqFormatError expected_at_message [[hd LF l1]] (n * 4)))
  /\ (hd LF l1 = AT -> hd LF l3 <> PLUS -> byte_val (hd LF l3) < 128 ->
      check_record n l1 l2 l3 l4
      = Bad (FastqFormatError expected_plus_message [[hd LF l3]] (n * 4 + 2)))
  /\ (hd LF l1 = AT -> hd LF l3 = PLUS ->
      strip_cr (tl l3) <> [] -> len (strip_cr (tl l3)) <> len (strip_cr (tl l1)) ->
      check_record n l1 l2 l3 l4
      = Bad (FastqFormatError descriptions_message [tl l1; tl l3] (n * 4 + 2)))
  /\ (hd LF l1 = AT -> hd LF l3 = PLUS -> strip_cr (tl l3) = [] ->
      len (strip_cr l4) <> len (strip_cr l2) ->
      check_record n l1 l2 l3 l4
      = Bad (FastqFormatError lengths_message [] (n * 4 + 3))).
Proof.
  unfold check_record. repeat split.
  - intros H Hv. rewrite (beq_neq _ _ H). cbn [negb].
    destruct (chr_cases (hd LF l1)) as [[_ ->] | [Hv' _]]; [reflexivity | lia].
  - intros -> H Hv. rewrite beq_refl, (beq_neq _ _ H). cbn [negb].
    destruct (chr_cases (hd LF l3)) as [[_ ->] | [Hv' _]]; [reflexivity | lia].
  - intros -> -> Hne Hl. rewrite !beq_refl. cbn [negb].
    assert (H0 : len (strip_cr (tl l3)) <> 0) by (intros H; now apply len_zero in H).
    apply Z.eqb_neq in H0. rewrite H0. cbn [negb andb].
    assert (H1 : len (strip_cr (tl l1)) <> len (strip_cr (tl l3))) by congruence.
    apply Z.eqb_neq in H1. rewrite H1. reflexivity.
  - intros -> -> Hnil Hl. rewrite !beq_refl. cbn [negb]. rewrite Hnil.
    change (len (@nil byte)) with 0. cbn [Z.eqb negb andb].
    apply Z.eqb_neq in Hl. rewrite Hl. reflexivity.
Qed.

Lemma count_records_cons (e : event) (l : list event) :
  count_records (e :: l) = (if is_record e then 1 else 0) + count_records l.
Proof.
  unfold count_records. cbn [filter]. destruct (is_record e); len_simpl; lia.
Qed.

Lemma records_counted (k : nat) :
  forall self,
    wf self ->
    number_of_records (state_after k self)
    = number_of_records self + count_records (run k self).
Proof.
  induction k as [|k IH]; intros self Hwf.
  - cbn [state_after run]. change (count_records []) with 0. lia.
  - cbn [state_after run]. destruct (next_view self Hwf) as (o & Ho & Hw & Hv).
    rewrite Ho. rewrite (IH _ Hw), count_records_cons.
    symmetry in Hv. apply pull_phases in Hv. destruct Hv as [Hv _].
    cbn [view_of v_records] in Hv. lia.
Qed.

Lemma count_removelast (c : byte) (l : bytes) : count c (removelast l) <= count c l.
Proof.
  destruct l as [|x l]; [cbn; lia |].
  rewrite (removelast_last_split (x :: l)) at 2 by discriminate.
  rewrite count_app. pose proof (count_nonneg c [last (x :: l) NUL]). lia.
Qed.

Lemma count_split_line (s l r : bytes) :
  split_line s = Some (l, r) -> count LF s = 1 + count LF r.
Proof.
  intros H. apply split_line_Some in H. destruct H as [-> Hn].
  rewrite count_app, count_cons, beq_refl, (count_zero_notin LF l Hn). lia.
Qed.

Lemma count_no_line (s : bytes) : split_line s = None -> count LF s = 0.
Proof. intros H. apply count_zero_notin. now apply split_line_None. Qed.

(** Without four complete lines there are at most three newlines. *)
Lemma count_no_record (s : bytes) : split_record s = None -> count LF s <= 3.
Proof.
  unfold split_record.
  destruct (split_line s) as [[l1 r1] |] eqn:E1;
    [rewrite (count_split_line _ _ _ E1) | rewrite (count_no_line _ E1); lia].
  destruct (split_line r1) as [[l2 r2] |] eqn:E2;
    [rewrite (count_split_line _ _ _ E2) | rewrite (count_no_line _ E2); lia].
  destruct (split_line r2) as [[l3 r3] |] eqn:E3;
    [rewrite (count_split_line _ _ _ E3) | rewrite (count_no_line _ E3); lia].
  destruct (split_line r3) as [[l4 r4] |] eqn:E4;
    [discriminate | rewrite (count_no_line _ E4); lia].
Qed.

Lemma premature_line (w : view) :
  split_record (v_stream w) = None ->
  exists tail v',
    premature w
    = (Error (FastqFormatError premature_eof_message [shorten tail 500]
                (v_records w * 4 + count LF tail)), v')
    /\ 0 <= count LF tail <= 3.
Proof.
  intros Hs. apply count_no_record in Hs. unfold premature.
  destruct (v_extra_newline w); cbn [v_stream v_records with_stream].
  - exists (removelast (v_stream w)). eexists. split; [reflexivity |].
    pose proof (count_removelast LF (v_stream w)).
    pose proof (count_nonneg LF (removelast (v_stream w))). lia.
  - exists (v_stream w). eexists. split; [reflexivity |].
    pose proof (count_nonneg LF (v_stream w)). lia.
Qed.

(** C6: whenever a call of the parser raises a format error, with n the
    number of records returned so far, the error is one of these.  Either
    the unconsumed input (with the final newline added if it was missing)
    starts with four complete lines and the error is that of a structural
    check: a first byte other than '@', at line 4n; a third line not
    starting with '+', at line 4n+2; a non-empty second header different
    from the name, at line 4n+2; a quality length different from the
    sequence length, at line 4n+3.  Or it is the report of a premature end
    of file, whose line is 4n plus the number of newlines, at most three,
    of the stranded tail. *)
Theorem C6_format_error_lines
    (input : bytes) (reads : list Z) (cls : sequence_class_t) (capacity : Z) (k : nat)
    (message : string) (args : list bytes) (line : Z) (self' : FastqIter) :
  1 <= capacity ->
  let fresh := FastqIter_init (mkFile input reads) cls capacity in
  let self := state_after k fresh in
  let n := count_records (run k fresh) in
  __next__ self = Some (Raise (FastqFormatError message args line) self') ->
  number_of_records self = n
  /\ ((exists w l1 l2 l3 l4 rest,
         worked_on (view_of self) w
         /\ split_record (v_stream w) = Some (l1, l2, l3, l4, rest)
         /\ ((message = expected_at_message /\ line = 4 * n /\ hd LF l1 <> AT)
             \/ (message = expected_plus_message /\ line = 4 * n + 2
                 /\ hd LF l3 <> PLUS)
             \/ (message = descriptions_message /\ line = 4 * n + 2
                 /\ strip_cr (tl l3) <> []
                 /\ strip_cr (tl l3) <> strip_cr (tl l1))
             \/ (message = lengths_message /\ line = 4 * n + 3
                 /\ len (strip_cr l4) <> len (strip_cr l2))))
      \/ (message = premature_eof_message
          /\ exists tail,
               args = [shorten tail 500]
               /\ line = 4 * n + count LF tail
               /\ 0 <= count LF tail <= 3)).
Proof.
  intros Hc. cbv zeta. intros Hnext.
  pose proof (wf_init (mkFile input reads) cls capacity Hc) as Hwf0.
  pose proof (wf_state_after k _ Hwf0) as Hwf.
  pose proof (records_counted k _ Hwf0) as Hn.
  change (number_of_records (FastqIter_init (mkFile input reads) cls capacity))
    with 0 in Hn.
  rewrite Z.add_0_l in Hn. split; [exact Hn |]. rewrite <- Hn.
  set (self := state_after k (FastqIter_init (mkFile input reads) cls capacity)) in *.
  destruct (next_view self Hwf) as (o & Ho & _ & Hv).
  rewrite Hnext in Ho. inversion Ho; subst o. clear Ho.
  cbn [event_of state_of] in Hv. symmetry in Hv.
  destruct (pull_cases (view_of self))
    as [[He Hp] | [(He & _ & Hp) | [(He & Hp) | (He & Hp)]]].
  - rewrite Hp in Hv. discriminate.
  - rewrite Hp in Hv. discriminate.
  - left. destruct Hp as (w & l1 & l2 & l3 & l4 & rest & Hw & Hs & Hp).
    exists w, l1, l2, l3, l4, rest. split; [exact Hw |]. split; [exact Hs |].
    apply worked_on_flags in Hw. destruct Hw as (_ & _ & Hr & _).
    cbn [view_of v_records] in Hr.
    rewrite Hp in Hv.
    destruct (emit_cases w l1 l2 l3 l4 rest)
      as [(e0 & Hb & Hm) | [(nm & s & q & shl & _ & _ & _ & Hm)
                           | (nm & s & q & shl & _ & _ & Hm)]];
      rewrite Hm in Hv; inversion Hv; subst.
    rewrite Hr in Hb. apply check_record_Bad_cases in Hb.
    destruct Hb as [(Hb & H1) | [(Hb & _ & H3) | [(Hb & _ & _ & H5 & H6)
                                                 | [(Hb & _ & _ & H7) | (Hb & _)]]]];
      inversion Hb; subst.
    + left. repeat split; auto; lia.
    + right. left. repeat split; auto; lia.
    + right. right. left. repeat split; auto; lia.
    + right. right. right. repeat split; auto; lia.
  - right. destruct Hp as (w & Hw & Hs & Hp).
    apply worked_on_flags in Hw. destruct Hw as (_ & _ & Hr & _).
    cbn [view_of v_records] in Hr.
    destruct (premature_line w Hs) as (tail & v0 & Hm & Hcount).
    rewrite Hp, Hm in Hv. inversion Hv; subst.
    split; [reflexivity |]. exists tail. rewrite Hr.
    split; [reflexivity |]. split; [lia | exact Hcount].
Qed.

(** The input of scenario 3: the second header [r2] differs from [r1]. *)
Lemma C6_format_error_lines_witness :
  exists self',
    __next__ (FastqIter_init
                (mkFile (bs "@r1" ++ [LF] ++ bs "ACGT" ++ [LF] ++ bs "+r2" ++ [LF]
                         ++ bs "!!!!" ++ [LF]) []) SequenceClass 4)
    = Some (Raise (FastqFormatError descriptions_message [bs "r1"; bs "r2"] 2) self')
    /\ number_of_records
         (FastqIter_init
            (mkFile (bs "@r1" ++ [LF] ++ bs "ACGT" ++ [LF] ++ bs "+r2" ++ [LF]
                     ++ bs "!!!!" ++ [LF]) []) SequenceClass 4) = 0.
Proof.
  eexists. split; [vm_compute; reflexivity |].
  refine (proj1 (C6_format_error_lines
                   (bs "@r1" ++ [LF] ++ bs "ACGT" ++ [LF] ++ bs "+r2" ++ [LF]
                    ++ bs "!!!!" ++ [LF]) [] SequenceClass 4 0
                   descriptions_message [bs "r1"; bs "r2"] 2 _ _ _)).
  - lia.
  - vm_compute. reflexivity.
Defined.

(** ** The header call *)

Lemma event_of_record (o : outcome value) (r : value) :
  event_of o = Record_ r -> o = Return r (state_of o).
Proof.
  destruct o as [a s | e s]; cbn.
  - destruct a; intros H; inversion H; reflexivity.
  - destruct e; discriminate.
Qed.

(** After the header flag, the next call returns the record the flag was
    computed from. *)
Lemma pull_header_then_record (v v' : view) (b : bool) :
  pull v = (Header b, v') ->
  v_records v = 0 /\ v_yielded v = false /\ v_eof v = false
  /\ v_records v' = 0 /\ v_yielded v' = true /\ v_eof v' = false
  /\ exists l1 l2 l3 l4 rest name sequence qualities shl,
       split_record (v_stream v') = Some (l1, l2, l3, l4, rest)
       /\ check_record 0 l1 l2 l3 l4 = Good name sequence qualities shl
       /\ b = negb (shl =? 0)
       /\ pull v'
          = (Record_ (materialize (v_save_as_bytes v) (v_use_custom_class v)
                        name sequence qualities),
             mkView rest (v_extra_newline v') true false 1
               (v_save_as_bytes v) (v_use_custom_class v)).
Proof.
  intros H.
  destruct (pull_cases v) as [[He Hp] | [(He & _ & Hp) | [(He & Hp) | (He & Hp)]]].
  - rewrite Hp in H. discriminate.
  - rewrite Hp in H. discriminate.
  - destruct Hp as (w & l1 & l2 & l3 & l4 & rest & Hw & Hs & Hp).
    apply worked_on_flags in Hw. destruct Hw as (Hy & Hf & Hr & Hb & Hc).
    rewrite Hp in H.
    destruct (emit_cases w l1 l2 l3 l4 rest)
      as [(e0 & _ & Hm) | [(n & s & q & shl & Hg & R0 & Y0 & Hm)
                          | (n & s & q & shl & _ & _ & Hm)]];
      rewrite Hm in H; inversion H; subst.
    cbn [v_records v_yielded v_eof v_stream v_extra_newline].
    rewrite R0 in Hg.
    repeat split; try congruence.
    exists l1, l2, l3, l4, rest, n, s, q, shl.
    split; [exact Hs |]. split; [exact Hg |]. split; [reflexivity |].
    unfold pull. cbn [v_eof v_stream]. rewrite Hf, He, Hs.
    unfold emit. cbn [v_records v_yielded v_stream v_extra_newline v_eof
                      v_save_as_bytes v_use_custom_class].
    rewrite R0, Hg, Hb, Hc. reflexivity.
  - destruct Hp as (w & _ & _ & Hp).
    destruct (premature_event w) as (args & line & v0 & Hm & _).
    rewrite Hp, Hm in H. discriminate.
Qed.

(** The view a header call leaves: the one it found with the flag set,
    after the missing final newline was added if the call met the end of
    the file. *)
Lemma pull_header_view (v v' : view) (b : bool) :
  pull v = (Header b, v') ->
  v' = mkView (v_stream v) (v_extra_newline v) true (v_eof v) (v_records v)
         (v_save_as_bytes v) (v_use_custom_class v)
  \/ (v_extra_newline v = false /\ last (v_stream v) NUL <> LF
      /\ v' = mkView (v_stream v ++ [LF]) true true (v_eof v) (v_records v)
                (v_save_as_bytes v) (v_use_custom_class v)).
Proof.
  intros H.
  assert (Hemit : forall w l1 l2 l3 l4 rest,
             emit w l1 l2 l3 l4 rest = (Header b, v') ->
             v' = mkView (v_stream w) (v_extra_newline w) true (v_eof w) (v_records w)
                    (v_save_as_bytes w) (v_use_custom_class w)).
  { intros w l1 l2 l3 l4 rest Hw. unfold emit in Hw.
    destruct (check_record (v_records w) l1 l2 l3 l4); [discriminate |].
    destruct ((v_records w =? 0) && negb (v_yielded w)); inversion Hw. reflexivity. }
  unfold pull in H. destruct (v_eof v) eqn:Ee; [discriminate |].
  destruct (split_record (v_stream v)) as [[[[[l1 l2] l3] l4] rest] |] eqn:Es.
  { left. rewrite <- Ee. exact (Hemit v _ _ _ _ _ H). }
  destruct (v_stream v) as [|c s] eqn:Ev; [discriminate |].
  destruct (v_extra_newline v) eqn:Ex; cbn [negb andb] in H.
  { unfold premature in H. rewrite Ex in H. discriminate. }
  destruct (beq_spec (last (c :: s) NUL) LF) as [El | El]; cbn [negb] in H.
  { unfold premature in H. rewrite Ex in H. discriminate. }
  cbv zeta in H. cbn [v_stream] in H.
  destruct (split_record ((c :: s) ++ [LF])) as [[[[[l1 l2] l3] l4] rest] |].
  - right. split; [reflexivity |]. split; [exact El |].
    apply Hemit in H. exact H.
  - unfold premature in H. cbn [v_extra_newline] in H. discriminate.
Qed.

Lemma check_record_Good_heads (n : Z) (l1 l2 l3 l4 name sequence qualities : bytes)
    (shl : Z) :
  check_record n l1 l2 l3 l4 = Good name sequence qualities shl ->
  hd LF l1 = AT /\ hd LF l3 = PLUS.
Proof.
  unfold check_record.
  destruct (beq_spec (hd LF l1) AT) as [E1 | E1]; cbn [negb];
    [| destruct (chr _); discriminate].
  destruct (beq_spec (hd LF l3) PLUS) as [E3 | E3]; cbn [negb];
    [| destruct (chr _); discriminate].
  auto.
Qed.

Lemma sequence_class_refill (self : FastqIter) :
  sequence_class (state_of (_read_into_buffer self)) = sequence_class self.
Proof.
  unfold _read_into_buffer, make_room.
  repeat match goal with
         | |- context [let '(_, _) := ?p in _] => destruct p
         | |- context [if ?c then _ else _] => destruct c
         end; reflexivity.
Qed.

Lemma sequence_class_parse (self : FastqIter) (a b c d : Z) :
  sequence_class (state_of (parse_record self a b c d)) = sequence_class self.
Proof.
  unfold parse_record. cbv zeta.
  repeat match goal with
         | |- context [chr ?c] => destruct (chr c)
         | |- context [if ?c then _ else _] => destruct c
         end; reflexivity.
Qed.

Lemma sequence_class_next_loop (fuel : nat) :
  forall self o,
    next_loop fuel self = Some o -> sequence_class (state_of o) = sequence_class self.
Proof.
  induction fuel as [|fuel IH]; intros self o H; [discriminate |].
  cbn [next_loop] in H.
  destruct (eof self); [inversion H; reflexivity |].
  destruct (locate self) as [[[[a b] c] d] |].
  - inversion H. apply sequence_class_parse.
  - pose proof (sequence_class_refill self) as Hr.
    destruct (_read_into_buffer self) as [u s | e s]; cbn [state_of] in Hr.
    + rewrite (IH _ _ H). exact Hr.
    + inversion H. exact Hr.
Qed.

(** The record class is fixed when the parser is built. *)
Lemma flags_state_after (k : nat) :
  forall self,
    wf self ->
    save_as_bytes (state_after k self) = save_as_bytes self
    /\ use_custom_class (state_after k self) = use_custom_class self.
Proof.
  induction k as [|k IH]; intros self Hwf; [split; reflexivity |].
  cbn [state_after]. destruct (next_view self Hwf) as (o & Ho & Hw & Hv).
  rewrite Ho. destruct (IH _ Hw) as [-> ->].
  symmetry in Hv. apply pull_flags in Hv. exact Hv.
Qed.

(** C10, as stated, fails: the call that returns the header flag sets more
    than [yielded_two_headers].  On an input whose last line has no
    newline the call reaches the end of the file, appends the newline and
    sets [extra_newline]. *)
Lemma C10_counterexample :
  exists self',
    __next__ (FastqIter_init
                (BytesIO (bs "@r1" ++ [LF] ++ bs "ACGT" ++ [LF] ++ bs "+" ++ [LF]
                          ++ bs "!!!!")) SequenceClass 32)
    = Some (Return (VBool false) self')
    /\ extra_newline
         (FastqIter_init
            (BytesIO (bs "@r1" ++ [LF] ++ bs "ACGT" ++ [LF] ++ bs "+" ++ [LF]
                      ++ bs "!!!!")) SequenceClass 32) = false
    /\ extra_newline self' = true
    /\ self' <> set_yielded_two_headers
                  (FastqIter_init
                     (BytesIO (bs "@r1" ++ [LF] ++ bs "ACGT" ++ [LF] ++ bs "+" ++ [LF]
                               ++ bs "!!!!")) SequenceClass 32) true.
Proof.
  eexists. split; [vm_compute; reflexivity |].
  split; [reflexivity |]. split; [reflexivity |].
  intros H. apply (f_equal extra_newline) in H. vm_compute in H. discriminate H.
Qed.

(** C10, amended: on a parser reached by any number of calls from a fresh
    one, a call that returns the header flag leaves [record_start] and the
    record counter as they were (at 0), sets [yielded_two_headers], and
    leaves [eof] and the record class alone.  It may have read from the
    file into the buffer; the bytes not consumed yet, those of the buffer
    followed by those of the file, are the same as before, unless the call
    met the end of a file whose last byte is no newline: then it has
    appended the newline and set [extra_newline].  These bytes start with
    four lines: the first begins with '@', the third with '+', the flag
    tells whether the rest of the third line, without a final carriage
    return, is non-empty, and the fourth line is as long as the second,
    carriage returns not counted.  The next call returns the record whose
    name is the first line without its '@', whose sequence is the second
    line and whose qualities are the fourth line, each without one final
    carriage return: as bytes for [BytesSequence], decoded as latin-1 for
    [Sequence], and handed as decoded strings to a custom class.  That
    call counts one record and keeps what follows the four lines. *)
Theorem C10_header_call_keeps_first_record
    (input : bytes) (reads : list Z) (cls : sequence_class_t) (capacity : Z) (k : nat)
    (b : bool) (self' : FastqIter) :
  1 <= capacity ->
  let self := state_after k (FastqIter_init (mkFile input reads) cls capacity) in
  let before := pending self ++ content (file self) in
  let after := pending self' ++ content (file self') in
  __next__ self = Some (Return (VBool b) self') ->
  record_start self' = record_start self
  /\ number_of_records self' = number_of_records self
  /\ number_of_records self = 0
  /\ yielded_two_headers self = false
  /\ yielded_two_headers self' = true
  /\ eof self' = eof self
  /\ sequence_class self' = sequence_class self
  /\ save_as_bytes self' = save_as_bytes self
  /\ use_custom_class self' = use_custom_class self
  /\ ((extra_newline self' = extra_newline self /\ after = before)
      \/ (extra_newline self = false /\ extra_newline self' = true
          /\ last before NUL <> LF /\ after = before ++ [LF]))
  /\ exists l1 l2 l3 l4 rest,
       split_record after = Some (l1, l2, l3, l4, rest)
       /\ hd LF l1 = AT /\ hd LF l3 = PLUS
       /\ len (strip_cr l4) = len (strip_cr l2)
       /\ b = negb (len (strip_cr (tl l3)) =? 0)
       /\ exists self'',
            __next__ self'
            = Some (Return
                      match cls with
                      | SequenceClass =>
                          VSequence (mkSequence (str_of_bytes (strip_cr (tl l1)))
                                       (str_of_bytes (strip_cr l2))
                                       (Some (str_of_bytes (strip_cr l4))))
                      | BytesSequenceClass =>
                          VBytesSequence (mkBytesSequence (strip_cr (tl l1))
                                            (strip_cr l2) (strip_cr l4))
                      | CustomClass =>
                          VCustom (str_of_bytes (strip_cr (tl l1)))
                            (str_of_bytes (strip_cr l2)) (str_of_bytes (strip_cr l4))
                      end self'')
            /\ number_of_records self'' = 1
            /\ pending self'' ++ content (file self'') = rest.
Proof.
  intros Hc. cbv zeta. intros Hnext.
  pose proof (wf_init (mkFile input reads) cls capacity Hc) as Hwf0.
  pose proof (wf_state_after k _ Hwf0) as Hwf.
  destruct (flags_state_after k _ Hwf0) as [Fb Fc].
  set (self := state_after k (FastqIter_init (mkFile input reads) cls capacity)) in *.
  pose proof (sequence_class_next_loop _ _ _ Hnext) as Hcls. cbn [state_of] in Hcls.
  destruct (next_view self Hwf) as (o & Ho & Hwf' & Hv).
  rewrite Hnext in Ho. inversion Ho; subst o. clear Ho.
  cbn [event_of state_of] in Hv, Hwf'. symmetry in Hv.
  pose proof (pull_header_view _ _ _ Hv) as Hview.
  pose proof (pull_flags _ _ _ Hv) as [Gb Gc].
  cbn [view_of v_save_as_bytes v_use_custom_class] in Gb, Gc.
  apply pull_header_then_record in Hv.
  destruct Hv as (R0 & Y0 & E0 & R1 & Y1 & E1 & l1 & l2 & l3 & l4 & rest & name
                  & sequence & qualities & shl & Hs & Hg & Hb & Hpull).
  cbn [view_of v_records v_yielded v_eof v_stream v_save_as_bytes
       v_use_custom_class v_extra_newline] in R0, Y0, E0, R1, Y1, E1, Hs.
  assert (RS : record_start self = 0) by (now apply Hwf).
  assert (RS' : record_start self' = 0) by (now apply Hwf').
  repeat (split; [congruence |]).
  split.
  { destruct Hview as [Hview | (Hx & Hl & Hview)].
    - left. split.
      + exact (f_equal v_extra_newline Hview).
      + exact (f_equal v_stream Hview).
    - right. cbn [view_of v_extra_newline v_stream] in Hx, Hl.
      split; [exact Hx |]. split; [exact (f_equal v_extra_newline Hview) |].
      split; [exact Hl | exact (f_equal v_stream Hview)]. }
  destruct (check_record_Good_heads _ _ _ _ _ _ _ _ _ Hg) as [H1 H3].
  apply check_record_Good in Hg. destruct Hg as (-> & -> & -> & -> & Hl).
  exists l1, l2, l3, l4, rest.
  split; [exact Hs |]. split; [exact H1 |]. split; [exact H3 |].
  split; [exact Hl |]. split; [exact Hb |].
  destruct (next_view self' Hwf') as (o' & Ho' & _ & Hv').
  rewrite Hpull in Hv'.
  pose proof (f_equal fst Hv') as Hev. pose proof (f_equal snd Hv') as Hst.
  cbn [fst snd view_of v_save_as_bytes v_use_custom_class] in Hev, Hst.
  apply event_of_record in Hev. exists (state_of o').
  split.
  { rewrite Ho'. f_equal. rewrite Hev. f_equal.
    rewrite Fb, Fc. unfold FastqIter_init. cbn [save_as_bytes use_custom_class].
    destruct cls; reflexivity. }
  split.
  - exact (f_equal v_records Hst).
  - exact (f_equal v_stream Hst).
Qed.

Lemma C10_header_call_keeps_first_record_witness :
  exists self',
    __next__ (FastqIter_init (mkFile minimal_record []) SequenceClass 2)
    = Some (Return (VBool false) self')
    /\ record_start self' = 0.
Proof.
  eexists. split; [vm_compute; reflexivity |].
  refine (proj1 (C10_header_call_keeps_first_record minimal_record [] SequenceClass 2 0
                   false _ _ _)).
  - lia.
  - vm_compute. reflexivity.
Defined.

(** * Further properties of the parser loop *)

Lemma exception_eq_dec_stop (e : exception) : e = StopIteration \/ e <> StopIteration.
Proof. destruct e; (now left) || (right; discriminate). Qed.

(** More iterations than needed change nothing. *)
Lemma next_loop_more_fuel (fuel : nat) :
  forall self o fuel',
    next_loop fuel self = Some o -> (fuel <= fuel')%nat -> next_loop fuel' self = Some o.
Proof.
  induction fuel as [|fuel IH]; intros self o fuel' H Hle; [discriminate |].
  destruct fuel' as [|fuel']; [lia |].
  cbn [next_loop] in *.
  destruct (eof self); [exact H |].
  destruct (locate self) as [[[[a b] c] d] |]; [exact H |].
  destruct (_read_into_buffer self) as [u s | e s]; [| exact H].
  apply (IH _ _ _ H). lia.
Qed.

(** The only exceptions a call lets out, besides the end of the
    iteration, are a format error and the [ValueError] of [chr]. *)
Lemma pull_error_kind (v v' : view) (e : exception) :
  pull v = (Error e, v') ->
  (exists m a l, e = FastqFormatError m a l) \/ e = ValueError chr_message.
Proof.
  intros H.
  destruct (pull_cases v) as [[He Hp] | [(He & _ & Hp) | [(He & Hp) | (He & Hp)]]].
  - rewrite Hp in H. discriminate.
  - rewrite Hp in H. discriminate.
  - destruct Hp as (w & l1 & l2 & l3 & l4 & rest & _ & _ & Hp). rewrite Hp in H.
    destruct (emit_cases w l1 l2 l3 l4 rest)
      as [(e0 & Hb & Hm) | [(nm & s & q & shl & _ & _ & _ & Hm)
                           | (nm & s & q & shl & _ & _ & Hm)]];
      rewrite Hm in H; inversion H; subst.
    apply check_record_Bad_cases in Hb.
    destruct Hb as [(-> & _) | [(-> & _) | [(-> & _) | [(-> & _) | (-> & _)]]]];
      eauto 6.
  - destruct Hp as (w & _ & _ & Hp).
    destruct (premature_event w) as (args & line & v0 & Hm & _).
    rewrite Hp, Hm in H. inversion H. eauto 6.
Qed.

(** X1: every call of [__next__] on a parser reached from a fresh one comes
    to an end: its loop takes at most three iterations more than the file
    has bytes left, whatever the buffer size and however the file splits
    its reads.  With one of the two built-in record classes the call
    returns a value, or raises [StopIteration], a [FastqFormatError], or
    the [ValueError] of [chr] when the byte a format error would have shown
    is 0x80 or above; nothing else. *)
Theorem next_terminates_within_file_size
    (input : bytes) (reads : list Z) (cls : sequence_class_t) (capacity : Z)
    (k fuel : nat) :
  1 <= capacity ->
  let self := state_after k (FastqIter_init (mkFile input reads) cls capacity) in
  (length (content (file self)) + 3 <= fuel)%nat ->
  exists o,
    next_loop fuel self = Some o
    /\ __next__ self = Some o
    /\ (cls <> CustomClass ->
        match o with
        | Return _ _ => True
        | Raise e _ =>
            e = StopIteration
            \/ (exists m a l, e = FastqFormatError m a l)
            \/ e = ValueError chr_message
        end).
Proof.
  intros Hc. cbv zeta. intros Hfuel.
  pose proof (wf_state_after k _ (wf_init (mkFile input reads) cls capacity Hc)) as Hwf.
  destruct (next_view _ Hwf) as (o & Ho & _ & Hv).
  exists o. split; [| split; [exact Ho |]].
  - unfold __next__ in Ho. apply (next_loop_more_fuel _ _ _ _ Ho Hfuel).
  - intros _. destruct o as [r s | e s]; [exact I |].
    destruct (exception_eq_dec_stop e) as [-> | Hne]; [now left | right].
    rewrite (event_of_raise e s Hne) in Hv. symmetry in Hv.
    now apply pull_error_kind in Hv.
Qed.

Lemma next_terminates_within_file_size_witness :
  exists o,
    next_loop 40 (state_after 1 (FastqIter_init (mkFile minimal_record [1; 2]) SequenceClass 2))
    = Some o
    /\ __next__ (state_after 1 (FastqIter_init (mkFile minimal_record [1; 2]) SequenceClass 2))
       = Some o
    /\ (SequenceClass <> CustomClass ->
        match o with
        | Return _ _ => True
        | Raise e _ =>
            e = StopIteration
            \/ (exists m a l, e = FastqFormatError m a l)
            \/ e = ValueError chr_message
        end).
Proof.
  apply (next_terminates_within_file_size minimal_record [1; 2] SequenceClass 2 1 40).
  - lia.
  - vm_compute. lia.
Defined.

(** X2: between calls the parser state stays inside its allocation: the
    buffer holds exactly [buffer_size] bytes (no write went past its end),
    [0 <= record_start <= bytes_in_buffer <= buffer_size], and a refill
    always asks the file for at least one byte, so that an empty chunk can
    only mean the end of the file. *)
Theorem buffer_stays_in_bounds
    (input : bytes) (reads : list Z) (cls : sequence_class_t) (capacity : Z) (k : nat) :
  1 <= capacity ->
  let self := state_after k (FastqIter_init (mkFile input reads) cls capacity) in
  len (buffer self) = buffer_size self
  /\ 0 <= record_start self <= bytes_in_buffer self
  /\ bytes_in_buffer self <= buffer_size self
  /\ 1 <= buffer_size (make_room self) - bytes_in_buffer (make_room self)
  /\ len (buffer (make_room self)) = buffer_size (make_room self).
Proof.
  intros Hc. cbv zeta.
  pose proof (wf_state_after k _ (wf_init (mkFile input reads) cls capacity Hc)) as Hwf.
  destruct (make_room_spec _ Hwf) as (_ & Hbib & (j & junk & Hbuf) & Hlen & _).
  destruct Hwf as (_ & W2 & W3 & W4 & _).
  repeat split; try lia; try assumption.
  rewrite <- Hlen, Hbuf, Hbib. len_simpl. pose proof (len_nonneg junk). lia.
Qed.

Lemma buffer_stays_in_bounds_witness :
  let self := state_after 2 (FastqIter_init (mkFile minimal_record [3]) BytesSequenceClass 1) in
  len (buffer self) = buffer_size self
  /\ 0 <= record_start self <= bytes_in_buffer self
  /\ bytes_in_buffer self <= buffer_size self
  /\ 1 <= buffer_size (make_room self) - bytes_in_buffer (make_room self)
  /\ len (buffer (make_room self)) = buffer_size (make_room self).
Proof.
  apply (buffer_stays_in_bounds minimal_record [3] BytesSequenceClass 1 2). lia.
Defined.

(** ** How the buffer grows *)

Lemma wf_refill (self : FastqIter) : wf self -> wf (state_of (_read_into_buffer self)).
Proof.
  intros Hwf. destruct (content (file self)) as [|c f] eqn:Ef.
  - pose proof (refill_at_eof self Hwf Ef) as Hr.
    destruct (pending self) as [|x p].
    + destruct Hr as (s & -> & Hw & _). exact Hw.
    + destruct (negb (extra_newline self) && negb (Byte.eqb (last (x :: p) NUL) LF)).
      * destruct Hr as (s & -> & Hw & _). exact Hw.
      * destruct Hr as (e & s & -> & Hw & _). exact Hw.
  - destruct (refill_more self Hwf) as (s & -> & Hw & _); [rewrite Ef; discriminate |].
    exact Hw.
Qed.

(** The bytes not consumed yet, counting the newline that may still be added. *)
Lemma refill_stream (self : FastqIter) :
  wf self ->
  let s := state_of (_read_into_buffer self) in
  len (v_stream (view_of s)) + (if extra_newline s then 0 else 1)
  <= len (v_stream (view_of self)) + (if extra_newline self then 0 else 1).
Proof.
  intros Hwf. cbv zeta.
  set (m := len (v_stream (view_of self))).
  assert (Hm : m = len (pending self) + len (content (file self)))
    by (subst m; cbn [view_of v_stream]; now rewrite len_app).
  clearbody m.
  destruct (content (file self)) as [|c f] eqn:Ef.
  - pose proof (refill_at_eof self Hwf Ef) as Hr.
    change (len (@nil byte)) with 0 in Hm.
    destruct (pending self) as [|x p] eqn:Ep.
    + destruct Hr as (s & -> & _ & Hv). cbn [state_of].
      pose proof (f_equal v_extra_newline Hv) as Hx. cbn in Hx. rewrite Hx, Hv.
      cbn [v_stream]. change (len (@nil byte)) with 0 in *. lia.
    + destruct (negb (extra_newline self) && negb (Byte.eqb (last (x :: p) NUL) LF)) eqn:En.
      * destruct Hr as (s & -> & _ & Hv & _). cbn [state_of].
        pose proof (f_equal v_extra_newline Hv) as Hx. cbn in Hx. rewrite Hx, Hv.
        cbn [v_stream]. apply andb_true_iff in En. destruct En as [En _].
        apply negb_true_iff in En. rewrite En. len_simpl. lia.
      * destruct Hr as (e & s & -> & _ & Hv & _). cbn [state_of].
        unfold premature in Hv. cbn [view_of v_extra_newline v_stream] in Hv.
        rewrite Ep, Ef, app_nil_r in Hv.
        pose proof (removelast_last_split (x :: p) ltac:(discriminate)) as Hl.
        apply (f_equal len) in Hl. rewrite len_app in Hl.
        change (len [last (x :: p) NUL]) with 1 in Hl.
        pose proof (len_nonneg (removelast (x :: p))).
        apply (f_equal snd) in Hv. cbn [snd] in Hv.
        pose proof (f_equal v_extra_newline Hv) as Hx.
        pose proof (f_equal v_stream Hv) as Hst.
        destruct (extra_newline self) eqn:Ex;
          cbn [with_stream v_extra_newline v_stream view_of] in Hx, Hst;
          rewrite ?Ef, ?app_nil_r in Hst;
          cbn [view_of v_stream]; rewrite Hx, Hst, ?Ex, ?Ep; lia.
  - destruct (refill_more self Hwf) as (s & -> & _ & Hv & _); [rewrite Ef; discriminate |].
    cbn [state_of]. pose proof (f_equal v_extra_newline Hv) as Hx. cbn in Hx.
    rewrite Hx, Hv. cbn [view_of v_stream]. rewrite Ef, len_app. lia.
Qed.

Lemma buffer_size_read (self : FastqIter) :
  buffer_size (state_of (_read_into_buffer self)) = buffer_size (make_room self).
Proof.
  unfold _read_into_buffer. cbv zeta.
  destruct (file_read (file (make_room self))
              (buffer_size (make_room self) - bytes_in_buffer (make_room self)))
    as [chunk rest].
  fields.
  repeat match goal with
         | |- context [if ?c then _ else _] => destruct c
         end; reflexivity.
Qed.

Lemma buffer_size_make_room (self : FastqIter) :
  buffer_size (make_room self)
  = if (record_start self =? 0) && (bytes_in_buffer self =? buffer_size self)
    then buffer_size self * 2 else buffer_size self.
Proof.
  unfold make_room.
  destruct ((record_start self =? 0) && (bytes_in_buffer self =? buffer_size self));
    reflexivity.
Qed.

Lemma buffer_size_parse (self : FastqIter) (a b c d : Z) :
  buffer_size (state_of (parse_record self a b c d)) = buffer_size self.
Proof.
  unfold parse_record. cbv zeta.
  repeat match goal with
         | |- context [chr ?c] => destruct (chr c)
         | |- context [if ?c then _ else _] => destruct c
         end; reflexivity.
Qed.

Lemma emit_stream (v v' : view) (l1 l2 l3 l4 rest : bytes) (e : event) :
  emit v l1 l2 l3 l4 rest = (e, v') ->
  v_extra_newline v' = v_extra_newline v
  /\ (v_stream v' = v_stream v \/ v_stream v' = rest).
Proof.
  unfold emit. destruct (check_record (v_records v) l1 l2 l3 l4).
  - intros H. inversion H. auto.
  - destruct ((v_records v =? 0) && negb (v_yielded v)); intros H; inversion H; cbn; auto.
Qed.

Lemma grown_refill (capacity bound : Z) (self : FastqIter) :
  wf self -> grown capacity bound self ->
  grown capacity bound (state_of (_read_into_buffer self)).
Proof.
  intros Hwf (Hs & (j & Hj) & Hb). unfold grown.
  split; [pose proof (refill_stream self Hwf) as H; cbv zeta in H; lia |].
  rewrite buffer_size_read, buffer_size_make_room.
  destruct (Z.eqb_spec (record_start self) 0) as [E0 | E0]; cbn [andb]; [| eauto].
  destruct (Z.eqb_spec (bytes_in_buffer self) (buffer_size self)) as [E1 | E1]; [| eauto].
  split.
  - exists (S j). rewrite Hj, Nat2Z.inj_succ, Z.pow_succ_r by lia. lia.
  - destruct (buffer_pending self (wf_in_buffer _ Hwf)) as (pre & post & _ & _ & Hl).
    cbn [view_of v_stream] in Hs. rewrite len_app in Hs.
    pose proof (len_nonneg (content (file self))).
    destruct (extra_newline self); lia.
Qed.

Lemma grown_parse (capacity bound : Z) (self : FastqIter) (l1 l2 l3 l4 rest : bytes) :
  wf self -> grown capacity bound self ->
  split_record (pending self) = Some (l1, l2, l3, l4, rest) ->
  let name_end := record_start self + len l1 in
  let sequence_end := name_end + 1 + len l2 in
  let second_header_end := sequence_end + 1 + len l3 in
  let qualities_end := second_header_end + 1 + len l4 in
  grown capacity bound
    (state_of (parse_record self name_end sequence_end second_header_end qualities_end)).
Proof.
  intros Hwf (Hs & Hj & Hb) Hsp. cbv zeta. unfold grown.
  rewrite buffer_size_parse. split; [| auto].
  destruct (parse_record_view self l1 l2 l3 l4 rest Hwf Hsp) as [_ Hv].
  cbv zeta in Hv. symmetry in Hv. apply emit_stream in Hv.
  destruct Hv as [Hx Hst]. cbn [view_of v_extra_newline] in Hx.
  rewrite Hx.
  destruct Hst as [-> | ->]; [exact Hs |].
  apply split_record_Some in Hsp. destruct Hsp as [Hp _].
  cbn [view_of v_stream] in Hs. rewrite Hp in Hs. len_simpl.
  pose proof (len_nonneg l1). pose proof (len_nonneg l2).
  pose proof (len_nonneg l3). pose proof (len_nonneg l4). lia.
Qed.

Lemma grown_next_loop (capacity bound : Z) (fuel : nat) :
  forall self o,
    wf self -> grown capacity bound self -> next_loop fuel self = Some o ->
    grown capacity bound (state_of o).
Proof.
  induction fuel as [|fuel IH]; intros self o Hwf Hg H; [discriminate |].
  cbn [next_loop] in H.
  destruct (eof self); [inversion H; exact Hg |].
  rewrite (locate_spec self (wf_in_buffer _ Hwf)) in H.
  destruct (split_record (pending self)) as [[[[[l1 l2] l3] l4] rest] |] eqn:Esp.
  - cbv zeta in H. inversion H. now apply (grown_parse _ _ self l1 l2 l3 l4 rest).
  - pose proof (grown_refill _ _ self Hwf Hg) as Hg'.
    pose proof (wf_refill self Hwf) as Hw'.
    destruct (_read_into_buffer self) as [u s | e s]; cbn [state_of] in *.
    + now apply (IH s).
    + inversion H. exact Hg'.
Qed.

Lemma grown_state_after (capacity bound : Z) (k : nat) :
  forall self,
    wf self -> grown capacity bound self -> grown capacity bound (state_after k self).
Proof.
  induction k as [|k IH]; intros self Hwf Hg; [exact Hg |].
  cbn [state_after]. destruct (next_view self Hwf) as (o & Ho & Hw & _).
  rewrite Ho. apply IH; [exact Hw |].
  unfold __next__ in Ho. exact (grown_next_loop _ _ _ self o Hwf Hg Ho).
Qed.

(** X3: the buffer only ever doubles: after any number of calls its size is
    the initial size times a power of two, and it never exceeds the larger
    of the initial size and twice the size of the input plus one (the
    input and the newline that may be added to it). *)
Theorem buffer_doubles_up_to_input_size
    (input : bytes) (reads : list Z) (cls : sequence_class_t) (capacity : Z) (k : nat) :
  1 <= capacity ->
  let self := state_after k (FastqIter_init (mkFile input reads) cls capacity) in
  (exists j : nat, buffer_size self = capacity * 2 ^ Z.of_nat j)
  /\ capacity <= buffer_size self
  /\ buffer_size self <= Z.max capacity (2 * (len input + 1)).
Proof.
  intros Hc. cbv zeta.
  pose proof (grown_state_after capacity (len input + 1) k
                (FastqIter_init (mkFile input reads) cls capacity)
                (wf_init _ cls capacity Hc)) as H.
  cbv zeta in H. destruct H as (_ & (j & Hj) & Hb).
  - split; [| split].
    + rewrite view_init. cbn. lia.
    + exists O. cbn. lia.
    + cbn. lia.
  - split; [eauto |]. split; [| exact Hb].
    rewrite Hj. pose proof (Z.pow_pos_nonneg 2 (Z.of_nat j)). nia.
Qed.

Lemma buffer_doubles_up_to_input_size_witness :
  let self := state_after 2 (FastqIter_init (mkFile minimal_record []) SequenceClass 1) in
  (exists j : nat, buffer_size self = 1 * 2 ^ Z.of_nat j)
  /\ 1 <= buffer_size self
  /\ buffer_size self <= Z.max 1 (2 * (len minimal_record + 1)).
Proof.
  apply (buffer_doubles_up_to_input_size minimal_record [] SequenceClass 1 2). lia.
Defined.

(** * Further properties of the records returned *)

Lemma len_str_of_bytes (l : bytes) : len (str_of_bytes l) = len l.
Proof. unfold len, str_of_bytes. now rewrite length_map. Qed.

(** X4: every record the parser returns has qualities exactly as long as
    its sequence and no newline in any field.  The parser builds its
    records without running [__init__], but the constructor of the record
    class, called on the same three fields, accepts them. *)
Theorem parsed_records_pass_constructor
    (input : bytes) (reads : list Z) (cls : sequence_class_t) (capacity : Z)
    (n k : nat) (r : value) :
  1 <= capacity ->
  nth_error (run n (FastqIter_init (mkFile input reads) cls capacity)) k
  = Some (Record_ r) ->
  exists name sequence qualities,
    ~ In LF name /\ ~ In LF sequence /\ ~ In LF qualities
    /\ len qualities = len sequence
    /\ match cls with
       | BytesSequenceClass =>
           r = VBytesSequence (mkBytesSequence name sequence qualities)
           /\ BytesSequence_call name sequence qualities
              = inl (mkBytesSequence name sequence qualities)
       | SequenceClass =>
           r = VSequence (mkSequence (str_of_bytes name) (str_of_bytes sequence)
                            (Some (str_of_bytes qualities)))
           /\ Sequence_call (str_of_bytes name) (str_of_bytes sequence)
                (Some (str_of_bytes qualities))
              = inl (mkSequence (str_of_bytes name) (str_of_bytes sequence)
                       (Some (str_of_bytes qualities)))
       | CustomClass =>
           r = VCustom (str_of_bytes name) (str_of_bytes sequence)
                 (str_of_bytes qualities)
       end.
Proof.
  intros Hc Hk. rewrite run_pulls in Hk by now apply wf_init.
  rewrite view_init in Hk. apply pulls_record_fields in Hk.
  destruct Hk as (name & sequence & qualities & Hr & H1 & H2 & H3 & Hl).
  exists name, sequence, qualities. repeat (split; [assumption |]).
  cbn [v_save_as_bytes v_use_custom_class] in Hr.
  destruct cls; cbn [materialize] in Hr.
  - split; [exact Hr |]. unfold Sequence_call, Sequence_init.
    rewrite !len_str_of_bytes, Hl, Z.eqb_refl. reflexivity.
  - split; [exact Hr |]. unfold BytesSequence_call, BytesSequence_init.
    rewrite Hl, Z.eqb_refl. reflexivity.
  - exact Hr.
Qed.

Lemma parsed_records_pass_constructor_witness :
  exists name sequence qualities,
    ~ In LF name /\ ~ In LF sequence /\ ~ In LF qualities
    /\ len qualities = len sequence
    /\ VBytesSequence (mkBytesSequence (bs "r1") (bs "ACGT") (bs "!!!!"))
       = VBytesSequence (mkBytesSequence name sequence qualities)
    /\ BytesSequence_call name sequence qualities
       = inl (mkBytesSequence name sequence qualities).
Proof.
  apply (parsed_records_pass_constructor minimal_record [] BytesSequenceClass 1 2 1
           (VBytesSequence (mkBytesSequence (bs "r1") (bs "ACGT") (bs "!!!!")))).
  - lia.
  - vm_compute. reflexivity.
Defined.

(** ** The three record flavours *)

Lemma pull_decode (s : bytes) (xn y ef : bool) (k : Z) :
  pull (mkView s xn y ef k false false)
  = (decode_event (fst (pull (mkView s xn y ef k true false))),
     let v := snd (pull (mkView s xn y ef k true false)) in
     mkView (v_stream v) (v_extra_newline v) (v_yielded v) (v_eof v) (v_records v)
       false false).
Proof.
  unfold pull, emit, premature.
  cbn [v_stream v_extra_newline v_yielded v_eof v_records v_save_as_bytes
       v_use_custom_class with_stream].
  destruct ef; [reflexivity |].
  destruct (split_record s) as [[[[[l1 l2] l3] l4] rest] |].
  - destruct (check_record k l1 l2 l3 l4); [reflexivity |].
    destruct ((k =? 0) && negb y); reflexivity.
  - destruct s as [|c s]; [reflexivity |].
    destruct (negb xn && negb (Byte.eqb (last (c :: s) NUL) LF)).
    + cbn [v_stream v_extra_newline v_yielded v_eof v_records v_save_as_bytes
           v_use_custom_class with_stream].
      destruct (split_record ((c :: s) ++ [LF])) as [[[[[l1 l2] l3] l4] rest] |].
      * destruct (check_record k l1 l2 l3 l4); [reflexivity |].
        destruct ((k =? 0) && negb y); reflexivity.
      * reflexivity.
    + destruct xn; reflexivity.
Qed.

Lemma pull_as_custom (s : bytes) (xn y ef : bool) (k : Z) :
  pull (mkView s xn y ef k false true)
  = (as_custom_event (fst (pull (mkView s xn y ef k false false))),
     let v := snd (pull (mkView s xn y ef k false false)) in
     mkView (v_stream v) (v_extra_newline v) (v_yielded v) (v_eof v) (v_records v)
       false true).
Proof.
  unfold pull, emit, premature.
  cbn [v_stream v_extra_newline v_yielded v_eof v_records v_save_as_bytes
       v_use_custom_class with_stream].
  destruct ef; [reflexivity |].
  destruct (split_record s) as [[[[[l1 l2] l3] l4] rest] |].
  - destruct (check_record k l1 l2 l3 l4); [reflexivity |].
    destruct ((k =? 0) && negb y); reflexivity.
  - destruct s as [|c s]; [reflexivity |].
    destruct (negb xn && negb (Byte.eqb (last (c :: s) NUL) LF)).
    + cbn [v_stream v_extra_newline v_yielded v_eof v_records v_save_as_bytes
           v_use_custom_class with_stream].
      destruct (split_record ((c :: s) ++ [LF])) as [[[[[l1 l2] l3] l4] rest] |].
      * destruct (check_record k l1 l2 l3 l4); [reflexivity |].
        destruct ((k =? 0) && negb y); reflexivity.
      * reflexivity.
    + destruct xn; reflexivity.
Qed.

Lemma view_eta (v : view) :
  v = mkView (v_stream v) (v_extra_newline v) (v_yielded v) (v_eof v) (v_records v)
        (v_save_as_bytes v) (v_use_custom_class v).
Proof. destruct v; reflexivity. Qed.

Lemma pulls_decode (n : nat) :
  forall s xn y ef k,
    pulls n (mkView s xn y ef k false false)
    = map decode_event (pulls n (mkView s xn y ef k true false)).
Proof.
  induction n as [|n IH]; intros s xn y ef k; [reflexivity |].
  rewrite !pulls_S, pull_decode. cbn [fst snd map]. f_equal.
  destruct (pull (mkView s xn y ef k true false)) as [e v] eqn:Hp. cbn [fst snd].
  apply pull_flags in Hp. cbn [v_save_as_bytes v_use_custom_class] in Hp.
  destruct Hp as [Ha Hc].
  rewrite (view_eta v) at 6. rewrite Ha, Hc. apply IH.
Qed.

Lemma pulls_as_custom (n : nat) :
  forall s xn y ef k,
    pulls n (mkView s xn y ef k false true)
    = map as_custom_event (pulls n (mkView s xn y ef k false false)).
Proof.
  induction n as [|n IH]; intros s xn y ef k; [reflexivity |].
  rewrite !pulls_S, pull_as_custom. cbn [fst snd map]. f_equal.
  destruct (pull (mkView s xn y ef k false false)) as [e v] eqn:Hp. cbn [fst snd].
  apply pull_flags in Hp. cbn [v_save_as_bytes v_use_custom_class] in Hp.
  destruct Hp as [Ha Hc].
  rewrite (view_eta v) at 6. rewrite Ha, Hc. apply IH.
Qed.

(** X5: the record class changes nothing but the type of the records.
    Parsing with [Sequence] gives, call by call, the latin-1 decoding of
    what parsing with [BytesSequence] gives, with the same header flag,
    the same errors and the same end; a custom class is called with the
    very strings a [Sequence] would be built from. *)
Theorem record_class_only_changes_the_type
    (input : bytes) (reads1 reads2 reads3 : list Z) (c1 c2 c3 : Z) (n : nat) :
  1 <= c1 -> 1 <= c2 -> 1 <= c3 ->
  run n (FastqIter_init (mkFile input reads1) SequenceClass c1)
  = map decode_event (run n (FastqIter_init (mkFile input reads2) BytesSequenceClass c2))
  /\ run n (FastqIter_init (mkFile input reads3) CustomClass c3)
     = map as_custom_event (run n (FastqIter_init (mkFile input reads1) SequenceClass c1)).
Proof.
  intros H1 H2 H3. rewrite !run_pulls by now apply wf_init.
  rewrite !view_init. cbn [content]. split; [apply pulls_decode | apply pulls_as_custom].
Qed.

Lemma record_class_only_changes_the_type_witness :
  run 3 (FastqIter_init (mkFile minimal_record []) SequenceClass 1)
  = map decode_event
      (run 3 (FastqIter_init (mkFile minimal_record [2]) BytesSequenceClass 5))
  /\ run 3 (FastqIter_init (mkFile minimal_record [1]) CustomClass 64)
     = map as_custom_event
         (run 3 (FastqIter_init (mkFile minimal_record []) SequenceClass 1)).
Proof.
  apply (record_class_only_changes_the_type minimal_record [] [2] [1] 1 5 64 3); lia.
Defined.

(** ** Files of several records *)

Lemma strip_cr_app_cr (x : bytes) : strip_cr (x ++ [CR]) = x.
Proof.
  unfold strip_cr. rewrite last_app_cons, beq_refl. apply removelast_last.
Qed.

Lemma strncmp_refl (a : bytes) : strncmp a a (length a) = 0.
Proof.
  induction a as [|x a IH]; [reflexivity |].
  cbn [strncmp length hd tl]. rewrite beq_refl. cbn [negb].
  destruct (Byte.eqb x NUL); [reflexivity | exact IH].
Qed.

Lemma not_in_app_cr (x cr : bytes) :
  cr = [] \/ cr = [CR] -> ~ In LF x -> ~ In LF (x ++ cr).
Proof.
  intros Hcr Hx Hin. apply in_app_or in Hin. destruct Hin as [Hin | Hin]; [tauto |].
  destruct Hcr as [-> | ->]; cbn in Hin; [tauto |].
  destruct Hin as [Hin | []]. unfold CR, LF in Hin. discriminate.
Qed.

(** The line ending [cr ++ [LF]] is removed without loss from the fields
    of [r]: it is CR LF, or it is LF and no field ends in CR. *)
Lemma split_record_lines (cr : bytes) (two_headers : bool) (r : BytesSequence)
    (rest : bytes) :
  cr = [] \/ cr = [CR] ->
  one_line_fields r ->
  split_record (record_lines (cr ++ [LF]) two_headers r ++ rest)
  = Some (AT :: bseq_name r ++ cr, bseq_sequence r ++ cr,
          PLUS :: (if two_headers then bseq_name r else []) ++ cr,
          bseq_qualities r ++ cr, rest).
Proof.
  intros Hcr (H1 & H2 & H3 & _).
  replace (record_lines (cr ++ [LF]) two_headers r ++ rest)
    with ((AT :: bseq_name r ++ cr) ++ LF :: (bseq_sequence r ++ cr)
          ++ LF :: (PLUS :: (if two_headers then bseq_name r else []) ++ cr)
          ++ LF :: (bseq_qualities r ++ cr) ++ LF :: rest)
    by (unfold record_lines; reassoc).
  apply split_record_app.
  - intros [Hin | Hin]; [unfold AT, LF in Hin; discriminate |].
    now apply (not_in_app_cr _ cr Hcr H1).
  - now apply not_in_app_cr.
  - intros [Hin | Hin]; [unfold PLUS, LF in Hin; discriminate |].
    revert Hin. apply (not_in_app_cr _ cr Hcr). destruct two_headers; [exact H1 | tauto].
  - now apply not_in_app_cr.
Qed.

Lemma check_record_lines (n : Z) (cr : bytes) (two_headers : bool) (r : BytesSequence) :
  strip_cr (bseq_name r ++ cr) = bseq_name r ->
  strip_cr (bseq_sequence r ++ cr) = bseq_sequence r ->
  strip_cr (bseq_qualities r ++ cr) = bseq_qualities r ->
  strip_cr cr = [] ->
  len (bseq_qualities r) = len (bseq_sequence r) ->
  check_record n (AT :: bseq_name r ++ cr) (bseq_sequence r ++ cr)
    (PLUS :: (if two_headers then bseq_name r else []) ++ cr)
    (bseq_qualities r ++ cr)
  = Good (bseq_name r) (bseq_sequence r) (bseq_qualities r)
      (if two_headers then len (bseq_name r) else 0).
Proof.
  intros Hn Hs Hq Hcr Hl. unfold check_record. cbn [hd tl].
  rewrite !beq_refl. cbn [negb]. rewrite Hn, Hs, Hq.
  destruct two_headers.
  - rewrite Hn, Z.eqb_refl, strncmp_refl. cbn [Z.eqb negb orb].
    rewrite andb_false_r, Hl, Z.eqb_refl. reflexivity.
  - cbn [app]. rewrite Hcr. change (len (@nil byte)) with 0.
    cbn [Z.eqb negb andb]. rewrite Hl, Z.eqb_refl. reflexivity.
Qed.

Lemma pulls_eof (n : nat) (v : view) : v_eof v = true -> pulls n v = repeat End n.
Proof.
  intros He. induction n as [|n IH]; [reflexivity |].
  rewrite pulls_S. unfold pull at 1 2. rewrite He. cbn [fst snd repeat]. now rewrite IH.
Qed.

(** The fields of [r] survive the removal of [cr]. *)
Lemma pulls_record_lines (cr : bytes) (two_headers a c : bool) :
  cr = [] \/ cr = [CR] ->
  forall (rs : list BytesSequence) (xn : bool) (k : Z),
    Forall (fun r => one_line_fields r
                     /\ strip_cr (bseq_name r ++ cr) = bseq_name r
                     /\ strip_cr (bseq_sequence r ++ cr) = bseq_sequence r
                     /\ strip_cr (bseq_qualities r ++ cr) = bseq_qualities r) rs ->
    pulls (length rs + 1)
      (mkView (concat (map (record_lines (cr ++ [LF]) two_headers) rs)) xn true false k a c)
    = map (fun r => Record_ (materialize a c (bseq_name r) (bseq_sequence r)
                               (bseq_qualities r))) rs
      ++ [End].
Proof.
  intros Hcr rs. induction rs as [|r rs IH]; intros xn k Hall.
  - reflexivity.
  - inversion Hall as [|r0 rs0 (Hone & Hn & Hs & Hq) Hrest]; subst.
    cbn [length Nat.add map concat app]. rewrite pulls_S.
    assert (Hstrip : strip_cr cr = []).
    { destruct Hcr as [-> | ->]; [reflexivity | apply (strip_cr_app_cr [])]. }
    assert (Hp : pull (mkView (record_lines (cr ++ [LF]) two_headers r
                               ++ concat (map (record_lines (cr ++ [LF]) two_headers) rs))
                         xn true false k a c)
                 = (Record_ (materialize a c (bseq_name r) (bseq_sequence r)
                               (bseq_qualities r)),
                    mkView (concat (map (record_lines (cr ++ [LF]) two_headers) rs))
                      xn true false (k + 1) a c)).
    { unfold pull. cbn [v_eof v_stream].
      rewrite (split_record_lines cr two_headers r _ Hcr Hone).
      unfold emit. cbn [v_records v_yielded v_stream v_extra_newline v_eof
                        v_save_as_bytes v_use_custom_class].
      destruct Hone as (_ & _ & _ & Hl).
      rewrite (check_record_lines k cr two_headers r Hn Hs Hq Hstrip Hl).
      cbn [negb]. rewrite andb_false_r. reflexivity. }
    rewrite Hp. cbn [fst snd]. f_equal. apply IH. exact Hrest.
Qed.

Lemma run_record_lines (cr : bytes) (two_headers : bool) (rs : list BytesSequence)
    (reads : list Z) (capacity : Z) :
  cr = [] \/ cr = [CR] ->
  1 <= capacity ->
  Forall (fun r => one_line_fields r
                   /\ strip_cr (bseq_name r ++ cr) = bseq_name r
                   /\ strip_cr (bseq_sequence r ++ cr) = bseq_sequence r
                   /\ strip_cr (bseq_qualities r ++ cr) = bseq_qualities r) rs ->
  run (length (events_of_records two_headers rs) + 1)
    (FastqIter_init
       (mkFile (concat (map (record_lines (cr ++ [LF]) two_headers) rs)) reads)
       BytesSequenceClass capacity)
  = events_of_records two_headers rs ++ [End].
Proof.
  intros Hcr Hc Hall. rewrite run_pulls by now apply wf_init.
  rewrite view_init. cbn [content].
  destruct rs as [|r rs]; [reflexivity |].
  unfold events_of_records. cbn [length Nat.add]. rewrite length_map.
  rewrite pulls_S.
  assert (Hstrip : strip_cr cr = []).
  { destruct Hcr as [-> | ->]; [reflexivity | apply (strip_cr_app_cr [])]. }
  inversion Hall as [|r0 rs0 (Hone & Hn & Hs & Hq) Hrest]; subst.
  assert (Hp : pull (mkView (concat (map (record_lines (cr ++ [LF]) two_headers) (r :: rs)))
                       false false false 0 true false)
               = (Header (two_headers && negb (len (bseq_name r) =? 0)),
                  mkView (concat (map (record_lines (cr ++ [LF]) two_headers) (r :: rs)))
                    false true false 0 true false)).
  { unfold pull. cbn [v_eof v_stream map concat].
    rewrite (split_record_lines cr two_headers r _ Hcr Hone).
    unfold emit. cbn [v_records v_yielded v_stream v_extra_newline v_eof
                      v_save_as_bytes v_use_custom_class].
    destruct Hone as (_ & _ & _ & Hl).
    rewrite (check_record_lines 0 cr two_headers r Hn Hs Hq Hstrip Hl).
    cbn [Z.eqb negb andb]. destruct two_headers; reflexivity. }
  rewrite Hp. cbn [fst snd app]. f_equal.
  match goal with
  | |- pulls ?n _ = _ =>
      replace n with (length (r :: rs) + 1)%nat by (cbn [length]; lia)
  end.
  rewrite (pulls_record_lines cr two_headers true false Hcr (r :: rs) false 0 Hall).
  f_equal. apply map_ext. intros [nm sq ql]. reflexivity.
Qed.

Lemma record_lines_fastq_bytes (two_headers : bool) (r : BytesSequence) :
  BytesSequence_fastq_bytes r two_headers = record_lines [LF] two_headers r.
Proof.
  unfold BytesSequence_fastq_bytes. rewrite create_fastq_record_text. reflexivity.
Qed.

(** X6: writing records and reading them back.  For any list of records
    whose fields hold no newline and do not end in a carriage return, and
    whose qualities are as long as their sequences, the parser run on the
    concatenation of their [fastq_bytes] returns the header flag, then
    exactly these records in order, then the end of the stream.  The flag
    is true when the records were written with [two_headers] and the first
    name is not empty; an empty file gives the end at once. *)
Theorem written_records_are_read_back
    (rs : list BytesSequence) (two_headers : bool) (reads : list Z) (capacity : Z) :
  1 <= capacity ->
  Forall plain_fields rs ->
  run (length (events_of_records two_headers rs) + 1)
    (FastqIter_init
       (mkFile (concat (map (fun r => BytesSequence_fastq_bytes r two_headers) rs)) reads)
       BytesSequenceClass capacity)
  = events_of_records two_headers rs ++ [End].
Proof.
  intros Hc Hall.
  rewrite (map_ext _ (record_lines [LF] two_headers))
    by (intros r; apply record_lines_fastq_bytes).
  apply (run_record_lines [] two_headers rs reads capacity); [auto | exact Hc |].
  eapply Forall_impl; [| exact Hall].
  intros r (Hone & H1 & H2 & H3). rewrite !app_nil_r.
  split; [exact Hone |]. repeat split; now apply strip_cr_id.
Qed.

Lemma written_records_are_read_back_witness :
  run 4
    (FastqIter_init
       (mkFile (concat (map (fun r => BytesSequence_fastq_bytes r true)
                          [mkBytesSequence (bs "r1") (bs "ACGT") (bs "!!!!");
                           mkBytesSequence (bs "r2") (bs "A") (bs "#")])) [3; 1])
       BytesSequenceClass 2)
  = [Header true;
     Record_ (VBytesSequence (mkBytesSequence (bs "r1") (bs "ACGT") (bs "!!!!")));
     Record_ (VBytesSequence (mkBytesSequence (bs "r2") (bs "A") (bs "#")));
     End].
Proof.
  apply (written_records_are_read_back
           [mkBytesSequence (bs "r1") (bs "ACGT") (bs "!!!!");
            mkBytesSequence (bs "r2") (bs "A") (bs "#")] true [3; 1] 2).
  - lia.
  - repeat constructor; cbn; try reflexivity;
      intros H; repeat (destruct H as [H | H]; [discriminate H |]); exact H.
Defined.

(** X7: Windows line endings.  A file whose lines end in CR LF parses to
    the header flag, the records whose fields were written, and the end
    of the stream: the carriage return before each newline is dropped
    from the name, the sequence, the second header and the qualities, and
    only that one, so that a field which itself ends in a carriage return
    comes back whole.  When no field ends in a carriage return, the file
    written with LF alone parses to the same events. *)
Theorem crlf_lines_give_the_same_records
    (rs : list BytesSequence) (two_headers : bool) (reads reads' : list Z)
    (capacity capacity' : Z) :
  1 <= capacity -> 1 <= capacity' ->
  Forall one_line_fields rs ->
  let crlf := concat (map (record_lines [CR; LF] two_headers) rs) in
  let lf := concat (map (record_lines [LF] two_headers) rs) in
  let calls := (length (events_of_records two_headers rs) + 1)%nat in
  run calls (FastqIter_init (mkFile crlf reads) BytesSequenceClass capacity)
  = events_of_records two_headers rs ++ [End]
  /\ (Forall plain_fields rs ->
      run calls (FastqIter_init (mkFile crlf reads) BytesSequenceClass capacity)
      = run calls (FastqIter_init (mkFile lf reads') BytesSequenceClass capacity')).
Proof.
  intros Hc Hc' Hall. cbv zeta.
  assert (Hcrlf : run (length (events_of_records two_headers rs) + 1)
                    (FastqIter_init
                       (mkFile (concat (map (record_lines [CR; LF] two_headers) rs)) reads)
                       BytesSequenceClass capacity)
                  = events_of_records two_headers rs ++ [End]).
  { apply (run_record_lines [CR] two_headers rs reads capacity); [auto | exact Hc |].
    eapply Forall_impl; [| exact Hall].
    intros r Hone. rewrite !strip_cr_app_cr. auto. }
  split; [exact Hcrlf |].
  intros Hplain. rewrite Hcrlf. symmetry.
  apply (run_record_lines [] two_headers rs reads' capacity'); [auto | exact Hc' |].
  eapply Forall_impl; [| exact Hplain].
  intros r (Hone & H1 & H2 & H3). rewrite !app_nil_r.
  split; [exact Hone |]. repeat split; now apply strip_cr_id.
Qed.

Lemma crlf_lines_give_the_same_records_witness :
  run 3
    (FastqIter_init
       (mkFile (concat (map (record_lines [CR; LF] false)
                          [mkBytesSequence (bs "r1") (bs "ACGT") (bs "!!!!")])) [])
       BytesSequenceClass 1)
  = [Header false;
     Record_ (VBytesSequence (mkBytesSequence (bs "r1") (bs "ACGT") (bs "!!!!")));
     End]
  /\ run 3
       (FastqIter_init
          (mkFile (concat (map (record_lines [CR; LF] false)
                             [mkBytesSequence (bs "r1") (bs "ACGT") (bs "!!!!")])) [])
          BytesSequenceClass 1)
     = run 3
         (FastqIter_init
            (mkFile (concat (map (record_lines [LF] false)
                               [mkBytesSequence (bs "r1") (bs "ACGT") (bs "!!!!")])) [2])
            BytesSequenceClass 4).
Proof.
  assert (Hone : Forall one_line_fields
                   [mkBytesSequence (bs "r1") (bs "ACGT") (bs "!!!!")]).
  { repeat constructor; cbn; try reflexivity;
      intros H; repeat (destruct H as [H | H]; [discriminate H |]); exact H. }
  destruct (crlf_lines_give_the_same_records
              [mkBytesSequence (bs "r1") (bs "ACGT") (bs "!!!!")] false [] [2] 1 4
              ltac:(lia) ltac:(lia) Hone) as [H1 H2].
  split; [exact H1 |]. apply H2.
  repeat constructor; cbn; try reflexivity;
    intros H; repeat (destruct H as [H | H]; [discriminate H |]); exact H.
Defined.

(** * The end of the input, and errors *)

(** What follows a record ends as the stream does. *)
Lemma split_record_rest_last (s l1 l2 l3 l4 rest : bytes) :
  split_record s = Some (l1, l2, l3, l4, rest) ->
  (rest = [] -> last s NUL = LF) /\ (rest <> [] -> last s NUL = last rest NUL).
Proof.
  intros H. apply split_record_Some in H. destruct H as [-> _].
  replace (l1 ++ LF :: l2 ++ LF :: l3 ++ LF :: l4 ++ LF :: rest)
    with ((l1 ++ LF :: l2 ++ LF :: l3 ++ LF :: l4) ++ LF :: rest) by reassoc.
  rewrite last_app_ne by discriminate. split.
  - intros ->. reflexivity.
  - intros Hne. destruct rest; [congruence | reflexivity].
Qed.

Lemma existsb_pulls_S (n : nat) (v : view) :
  existsb is_error (pulls (S n) v) = false ->
  is_error (fst (pull v)) = false /\ existsb is_error (pulls n (snd (pull v))) = false.
Proof. rewrite pulls_S. cbn [existsb]. apply orb_false_iff. Qed.

Lemma premature_is_error (v : view) : is_error (fst (premature v)) = true.
Proof. reflexivity. Qed.

(** Once the stream ends in a newline, whether that newline was added
    makes no difference until an error is met. *)
Lemma pulls_added_newline (n : nat) :
  forall s y k a c,
    s = [] \/ last s NUL = LF ->
    existsb is_error (pulls n (mkView s false y false k a c)) = false ->
    pulls n (mkView s true y false k a c) = pulls n (mkView s false y false k a c).
Proof.
  induction n as [|n IH]; intros s y k a c Hs Herr; [reflexivity |].
  apply existsb_pulls_S in Herr. destruct Herr as [He Herr].
  rewrite !pulls_S.
  destruct (split_record s) as [[[[[l1 l2] l3] l4] rest] |] eqn:Esp.
  - rewrite (pull_Some (mkView s true y false k a c) l1 l2 l3 l4 rest eq_refl Esp).
    rewrite (pull_Some (mkView s false y false k a c) l1 l2 l3 l4 rest eq_refl Esp)
      in He, Herr |- *.
    unfold emit in *.
    cbn [v_records v_yielded v_stream v_extra_newline v_eof v_save_as_bytes
         v_use_custom_class] in *.
    destruct (check_record k l1 l2 l3 l4); [discriminate He |].
    destruct ((k =? 0) && negb y); cbn [fst snd] in *; f_equal.
    + now apply IH.
    + apply IH; [| exact Herr].
      destruct (split_record_rest_last _ _ _ _ _ _ Esp) as [_ Hl].
      destruct rest as [|x rest]; [now left | right].
      rewrite <- Hl by discriminate. destruct Hs as [-> | Hs]; [discriminate | exact Hs].
  - destruct s as [|x s].
    + unfold pull. cbn [v_eof v_stream split_record split_line fst snd].
      f_equal. now rewrite !pulls_eof by reflexivity.
    + destruct Hs as [Hs | Hs]; [discriminate |].
      rewrite (pull_None_premature (mkView (x :: s) false y false k a c))
        in He by (cbn; auto; discriminate).
      discriminate He.
Qed.

(** A stream that lacks its final newline, against the same stream with it. *)
Lemma pulls_without_final_newline (n : nat) :
  forall s y k a c,
    s <> [] -> last s NUL <> LF ->
    existsb is_error (pulls n (mkView (s ++ [LF]) false y false k a c)) = false ->
    pulls n (mkView s false y false k a c)
    = pulls n (mkView (s ++ [LF]) false y false k a c).
Proof.
  induction n as [|n IH]; intros s y k a c Hne Hl Herr; [reflexivity |].
  apply existsb_pulls_S in Herr. destruct Herr as [He Herr].
  rewrite !pulls_S.
  destruct (split_record s) as [[[[[l1 l2] l3] l4] rest] |] eqn:Esp.
  - pose proof (split_record_extend _ _ _ _ _ _ [LF] Esp) as Esp'.
    rewrite (pull_Some (mkView s false y false k a c) l1 l2 l3 l4 rest eq_refl Esp).
    rewrite (pull_Some (mkView (s ++ [LF]) false y false k a c) l1 l2 l3 l4 (rest ++ [LF])
               eq_refl Esp') in He, Herr |- *.
    unfold emit in *.
    cbn [v_records v_yielded v_stream v_extra_newline v_eof v_save_as_bytes
         v_use_custom_class] in *.
    destruct (check_record k l1 l2 l3 l4); [discriminate He |].
    destruct ((k =? 0) && negb y); cbn [fst snd] in *; f_equal.
    + now apply IH.
    + destruct (split_record_rest_last _ _ _ _ _ _ Esp) as [Hl0 Hl1].
      destruct rest as [|x rest]; [now specialize (Hl0 eq_refl) |].
      apply IH; [discriminate | | exact Herr].
      rewrite <- Hl1 by discriminate. exact Hl.
  - rewrite (pull_None_newline (mkView s false y false k a c) eq_refl Esp Hne eq_refl Hl).
    cbn [v_stream].
    assert (Hlast : last (s ++ [LF]) NUL = LF) by (now rewrite last_app_ne by discriminate).
    destruct (split_record (s ++ [LF])) as [[[[[l1 l2] l3] l4] rest] |] eqn:Esp'.
    + rewrite (pull_Some (mkView (s ++ [LF]) false y false k a c) l1 l2 l3 l4 rest
                 eq_refl Esp') in He, Herr |- *.
      unfold emit, with_newline in *.
      cbn [v_records v_yielded v_stream v_extra_newline v_eof v_save_as_bytes
           v_use_custom_class] in *.
      destruct (check_record k l1 l2 l3 l4); [discriminate He |].
      destruct ((k =? 0) && negb y); cbn [fst snd] in *; f_equal.
      * apply pulls_added_newline; [now right | exact Herr].
      * apply pulls_added_newline; [| exact Herr].
        destruct (split_record_rest_last _ _ _ _ _ _ Esp') as [_ Hl1].
        destruct rest as [|x rest]; [now left | right].
        rewrite <- Hl1 by discriminate. exact Hlast.
    + rewrite (pull_None_premature (mkView (s ++ [LF]) false y false k a c)) in He.
      * discriminate He.
      * reflexivity.
      * exact Esp'.
      * cbn [v_stream]. intros H. apply app_eq_nil in H. destruct H. discriminate.
      * now right.
Qed.

(** X8: a missing final newline is harmless.  On an input that does not
    end in a newline the parser returns, call by call, exactly what it
    returns on the same input with the newline added, for as many calls
    as the latter meets no format error. *)
Theorem missing_final_newline_is_harmless
    (input : bytes) (reads1 reads2 : list Z) (cls : sequence_class_t) (c1 c2 : Z)
    (n : nat) :
  1 <= c1 -> 1 <= c2 ->
  input <> [] -> last input NUL <> LF ->
  existsb is_error (run n (FastqIter_init (mkFile (input ++ [LF]) reads2) cls c2)) = false ->
  run n (FastqIter_init (mkFile input reads1) cls c1)
  = run n (FastqIter_init (mkFile (input ++ [LF]) reads2) cls c2).
Proof.
  intros H1 H2 Hne Hl. rewrite !run_pulls by now apply wf_init.
  rewrite !view_init. cbn [content]. now apply pulls_without_final_newline.
Qed.

Lemma missing_final_newline_is_harmless_witness :
  run 4 (FastqIter_init
           (mkFile (bs "@r1" ++ [LF] ++ bs "ACGT" ++ [LF] ++ bs "+" ++ [LF] ++ bs "!!!!") [2])
           SequenceClass 3)
  = run 4 (FastqIter_init
             (mkFile ((bs "@r1" ++ [LF] ++ bs "ACGT" ++ [LF] ++ bs "+" ++ [LF] ++ bs "!!!!")
                      ++ [LF]) [])
             SequenceClass 1).
Proof.
  apply (missing_final_newline_is_harmless
           (bs "@r1" ++ [LF] ++ bs "ACGT" ++ [LF] ++ bs "+" ++ [LF] ++ bs "!!!!")
           [2] [] SequenceClass 3 1 4).
  - lia.
  - lia.
  - discriminate.
  - vm_compute. discriminate.
  - vm_compute. reflexivity.
Defined.

(** ** Errors stay *)

Lemma pulls_fixed (v : view) (e : event) :
  pull v = (e, v) ->
  forall n j, (j < n)%nat -> nth_error (pulls n v) j = Some e.
Proof.
  intros Hp n. induction n as [|n IH]; intros j Hj; [lia |].
  rewrite pulls_S, Hp. cbn [fst snd].
  destruct j as [|j]; [reflexivity |]. cbn [nth_error]. apply IH. lia.
Qed.

Lemma pull_structural_error_repeats (v v' : view) (m : string) (args : list bytes)
    (line : Z) :
  pull v = (Error (FastqFormatError m args line), v') ->
  m <> premature_eof_message ->
  pull v' = (Error (FastqFormatError m args line), v').
Proof.
  intros H Hm.
  destruct (pull_cases v) as [[He Hp] | [(He & _ & Hp) | [(He & Hp) | (He & Hp)]]].
  - rewrite Hp in H. discriminate.
  - rewrite Hp in H. discriminate.
  - destruct Hp as (w & l1 & l2 & l3 & l4 & rest & Hw & Hs & Hp). rewrite Hp in H.
    destruct (emit_cases w l1 l2 l3 l4 rest)
      as [(e0 & Hb & Hem) | [(nm & s & q & shl & _ & _ & _ & Hem)
                            | (nm & s & q & shl & _ & _ & Hem)]];
      rewrite Hem in H; inversion H; subst.
    destruct Hw as [-> | ->].
    + now rewrite Hp.
    + rewrite pull_after_newline.
      * cbn [v_stream with_newline] in Hs |- *. now rewrite Hs.
      * exact He.
      * reflexivity.
      * cbn [v_stream with_newline]. intros Hn. apply app_eq_nil in Hn.
        destruct Hn. discriminate.
  - destruct Hp as (w & _ & _ & Hp).
    destruct (premature_event w) as (a0 & l0 & v0 & Hpm & _).
    rewrite Hp, Hpm in H. inversion H. congruence.
Qed.

Lemma pulls_structural_error_repeats (m : string) (args : list bytes) (line : Z)
    (n : nat) :
  m <> premature_eof_message ->
  forall v k j,
    nth_error (pulls n v) k = Some (Error (FastqFormatError m args line)) ->
    (k <= j < n)%nat ->
    nth_error (pulls n v) j = Some (Error (FastqFormatError m args line)).
Proof.
  intros Hm. induction n as [|n IH]; intros v k j Hk Hj; [lia |].
  rewrite pulls_S in *. destruct (pull v) as [e v'] eqn:Hp. cbn [fst snd] in *.
  destruct k as [|k]; cbn [nth_error] in Hk.
  - inversion Hk; subst.
    destruct j as [|j]; [reflexivity |]. cbn [nth_error].
    apply pulls_fixed; [| lia].
    now apply (pull_structural_error_repeats v).
  - destruct j as [|j]; [lia |]. cbn [nth_error]. apply (IH v' k j Hk). lia.
Qed.

(** X9: the parser does not step over a malformed record.  Once a call
    has raised one of the four structural format errors, every later call
    raises the same error again, with the same message arguments and the
    same line number. *)
Theorem format_error_is_raised_again
    (input : bytes) (reads : list Z) (cls : sequence_class_t) (capacity : Z)
    (n k j : nat) (m : string) (args : list bytes) (line : Z) :
  1 <= capacity ->
  m <> premature_eof_message ->
  nth_error (run n (FastqIter_init (mkFile input reads) cls capacity)) k
  = Some (Error (FastqFormatError m args line)) ->
  (k <= j < n)%nat ->
  nth_error (run n (FastqIter_init (mkFile input reads) cls capacity)) j
  = Some (Error (FastqFormatError m args line)).
Proof.
  intros Hc Hm. rewrite !run_pulls by now apply wf_init.
  now apply pulls_structural_error_repeats.
Qed.

Lemma format_error_is_raised_again_witness :
  nth_error (run 5 (FastqIter_init (mkFile truncated_record []) BytesSequenceClass 1)) 4
  = Some (Error (FastqFormatError lengths_message [] 3)).
Proof.
  apply (format_error_is_raised_again truncated_record [] BytesSequenceClass 1 5 0 4).
  - lia.
  - vm_compute. discriminate.
  - vm_compute. reflexivity.
  - lia.
Defined.

(** * Further properties of paired_fastq_heads *)

Lemma firstn_succ_byte_at (buf : bytes) (i : Z) :
  0 <= i < len buf ->
  firstn (Z.to_nat (i + 1)) buf = firstn (Z.to_nat i) buf ++ [byte_at buf i].
Proof.
  intros Hi.
  pose proof (firstn_skipn (Z.to_nat i) buf) as Hsplit.
  assert (Hl : len (firstn (Z.to_nat i) buf) = i) by (apply len_firstn; lia).
  destruct (skipn (Z.to_nat i) buf) as [|c rest] eqn:E.
  - rewrite app_nil_r in Hsplit. rewrite Hsplit in Hl. lia.
  - rewrite <- Hsplit at 1 3.
    rewrite (byte_at_at (firstn (Z.to_nat i) buf) rest c i) by lia.
    replace (firstn (Z.to_nat i) buf ++ c :: rest)
      with ((firstn (Z.to_nat i) buf ++ [c]) ++ rest) by (now rewrite <- app_assoc).
    apply firstn_at. len_simpl. change (len [c]) with 1. lia.
Qed.

(** Of two prefixes with the same number of newlines, the one that ends
    right after a newline is not the longer one. *)
Lemma boundary_unique (buf : bytes) (a b : Z) :
  0 <= a <= b -> b <= len buf ->
  at_boundary buf b -> newlines buf a = newlines buf b -> a = b.
Proof.
  intros Hab Hb Hat Hn.
  destruct (Z.eq_dec a b) as [E | E]; [exact E | exfalso].
  destruct Hat as [-> | Hlf]; [lia |].
  unfold newlines in Hn.
  pose proof (firstn_succ_byte_at buf (b - 1) ltac:(lia)) as Hs.
  replace (b - 1 + 1) with b in Hs by lia.
  rewrite Hs, Hlf, count_app, count_cons, beq_refl in Hn.
  change (count LF []) with 0 in Hn.
  pose proof (count_firstn_mono buf a (b - 1) ltac:(lia)). lia.
Qed.

(** The loop ends, and its result has the promised shape. *)
Lemma paired_fastq_heads_post (buf1 buf2 : bytes) (end1 end2 : Z) :
  0 <= end1 -> 0 <= end2 ->
  exists r,
    paired_fastq_heads buf1 buf2 end1 end2 = Some r
    /\ heads_post buf1 buf2 (Z.min end1 (len buf1)) (Z.min end2 (len buf2)) r.
Proof.
  intros H1 H2. unfold paired_fastq_heads. cbv zeta.
  pose proof (len_nonneg buf1). pose proof (len_nonneg buf2).
  apply (paired_fastq_heads_loop_spec buf1 buf2
           (Z.min end1 (len buf1)) (Z.min end2 (len buf2))
           ltac:(lia) ltac:(lia) (S (length buf1)) 0 0 0 0 0 0);
    try lia; try apply newlines_0; try (now left).
  unfold len. lia.
Qed.

(** X26: for non-negative [end1] and [end2], [paired_fastq_heads] returns
    a pair [(len1, len2)] inside the scanned parts of the buffers such that
    [buf1[:len1]] and [buf2[:len2]] hold the same number of newlines, this
    number is [4 * min (n1 / 4) (n2 / 4)] for [n1], [n2] the newline counts
    of the scanned parts (all of a buffer when [end] is not smaller than
    its length), and each prefix is empty or ends right after a newline. *)
Theorem paired_fastq_heads_counts_whole_records (buf1 buf2 : bytes) (end1 end2 : Z) :
  0 <= end1 -> 0 <= end2 ->
  exists len1 len2,
    paired_fastq_heads buf1 buf2 end1 end2 = Some (len1, len2)
    /\ 0 <= len1 <= Z.min end1 (len buf1)
    /\ 0 <= len2 <= Z.min end2 (len buf2)
    /\ newlines buf1 len1 = newlines buf2 len2
    /\ newlines buf1 len1
       = 4 * Z.min (newlines buf1 (Z.min end1 (len buf1)) / 4)
                   (newlines buf2 (Z.min end2 (len buf2)) / 4)
    /\ (len buf1 <= end1 -> newlines buf1 (Z.min end1 (len buf1)) = count LF buf1)
    /\ (len buf2 <= end2 -> newlines buf2 (Z.min end2 (len buf2)) = count LF buf2)
    /\ at_boundary buf1 len1 /\ at_boundary buf2 len2.
Proof.
  intros H1 H2.
  destruct (paired_fastq_heads_post buf1 buf2 end1 end2 H1 H2)
    as ([len1 len2] & Hr & Hpost).
  exists len1, len2. split; [exact Hr |].
  destruct Hpost as (P1 & P2 & P3 & P4 & P5 & P6). cbn [fst snd] in *.
  repeat split; try lia; try assumption.
  - intros Hle. rewrite Z.min_r by lia. unfold newlines, len.
    now rewrite Nat2Z.id, firstn_all.
  - intros Hle. rewrite Z.min_r by lia. unfold newlines, len.
    now rewrite Nat2Z.id, firstn_all.
Qed.

Lemma paired_fastq_heads_counts_whole_records_witness :
  exists len1 len2,
    paired_fastq_heads (minimal_record ++ truncated_record) minimal_record 100 100
    = Some (len1, len2)
    /\ 0 <= len1 <= Z.min 100 (len (minimal_record ++ truncated_record))
    /\ 0 <= len2 <= Z.min 100 (len minimal_record)
    /\ newlines (minimal_record ++ truncated_record) len1 = newlines minimal_record len2
    /\ newlines (minimal_record ++ truncated_record) len1
       = 4 * Z.min (newlines (minimal_record ++ truncated_record)
                      (Z.min 100 (len (minimal_record ++ truncated_record))) / 4)
                   (newlines minimal_record (Z.min 100 (len minimal_record)) / 4)
    /\ (len (minimal_record ++ truncated_record) <= 100 ->
        newlines (minimal_record ++ truncated_record)
          (Z.min 100 (len (minimal_record ++ truncated_record)))
        = count LF (minimal_record ++ truncated_record))
    /\ (len minimal_record <= 100 ->
        newlines minimal_record (Z.min 100 (len minimal_record))
        = count LF minimal_record)
    /\ at_boundary (minimal_record ++ truncated_record) len1
    /\ at_boundary minimal_record len2.
Proof.
  apply (paired_fastq_heads_counts_whole_records
           (minimal_record ++ truncated_record) minimal_record 100 100); lia.
Defined.

Lemma heads_post_unique (buf1 buf2 : bytes) (e1 e2 : Z) (r r' : Z * Z) :
  e1 <= len buf1 -> e2 <= len buf2 ->
  heads_post buf1 buf2 e1 e2 r -> heads_post buf1 buf2 e1 e2 r' -> r = r'.
Proof.
  intros He1 He2 (A1 & A2 & A3 & A4 & A5 & A6) (B1 & B2 & B3 & B4 & B5 & B6).
  destruct r as [a b], r' as [a' b']. cbn [fst snd] in *. f_equal.
  - destruct (Z.le_ge_cases a a').
    + apply (boundary_unique buf1 a a'); [lia | lia | exact B5 | congruence].
    + symmetry. apply (boundary_unique buf1 a' a); [lia | lia | exact A5 | congruence].
  - destruct (Z.le_ge_cases b b').
    + apply (boundary_unique buf2 b b'); [lia | lia | exact B6 | congruence].
    + symmetry. apply (boundary_unique buf2 b' b); [lia | lia | exact A6 | congruence].
Qed.

Lemma newlines_firstn (buf : bytes) (e k : Z) :
  0 <= k <= e -> newlines (firstn (Z.to_nat e) buf) k = newlines buf k.
Proof.
  intros Hk. unfold newlines. rewrite firstn_firstn.
  now replace (Nat.min (Z.to_nat k) (Z.to_nat e)) with (Z.to_nat k) by lia.
Qed.

Lemma at_boundary_firstn (buf : bytes) (e k : Z) :
  0 <= k <= e -> at_boundary (firstn (Z.to_nat e) buf) k <-> at_boundary buf k.
Proof.
  intros Hk. unfold at_boundary, byte_at.
  destruct (Z.eq_dec k 0) as [-> | Hk0]; [tauto |].
  destruct (Z.ltb_spec (k - 1) 0); [lia |].
  rewrite nth_firstn.
  destruct (Nat.ltb_spec (Z.to_nat (k - 1)) (Z.to_nat e)); [tauto | lia].
Qed.

Lemma len_firstn_min (buf : bytes) (e : Z) :
  0 <= e -> len (firstn (Z.to_nat e) buf) = Z.min e (len buf).
Proof. intros He. unfold len. rewrite length_firstn. lia. Qed.

Lemma heads_post_firstn (buf1 buf2 : bytes) (end1 end2 : Z) (r : Z * Z) :
  0 <= end1 -> 0 <= end2 ->
  heads_post (firstn (Z.to_nat end1) buf1) (firstn (Z.to_nat end2) buf2)
    (Z.min end1 (len buf1)) (Z.min end2 (len buf2)) r ->
  heads_post buf1 buf2 (Z.min end1 (len buf1)) (Z.min end2 (len buf2)) r.
Proof.
  intros H1 H2 (A1 & A2 & A3 & A4 & A5 & A6).
  pose proof (len_nonneg buf1). pose proof (len_nonneg buf2).
  rewrite !newlines_firstn in A3, A4 by lia.
  apply at_boundary_firstn in A5; [| lia]. apply at_boundary_firstn in A6; [| lia].
  unfold heads_post. auto 10.
Qed.

Lemma paired_fastq_heads_firstn (buf1 buf2 : bytes) (end1 end2 : Z) :
  0 <= end1 -> 0 <= end2 ->
  paired_fastq_heads buf1 buf2 end1 end2
  = paired_fastq_heads (firstn (Z.to_nat end1) buf1) (firstn (Z.to_nat end2) buf2)
      end1 end2.
Proof.
  intros H1 H2.
  destruct (paired_fastq_heads_post buf1 buf2 end1 end2 H1 H2) as (r & Hr & Hp).
  destruct (paired_fastq_heads_post (firstn (Z.to_nat end1) buf1)
              (firstn (Z.to_nat end2) buf2) end1 end2 H1 H2) as (r' & Hr' & Hp').
  rewrite Hr, Hr'. f_equal.
  rewrite !len_firstn_min in Hp' by lia.
  replace (Z.min end1 (Z.min end1 (len buf1))) with (Z.min end1 (len buf1)) in Hp' by lia.
  replace (Z.min end2 (Z.min end2 (len buf2))) with (Z.min end2 (len buf2)) in Hp' by lia.
  apply heads_post_firstn in Hp'; [| lia | lia].
  apply (heads_post_unique buf1 buf2 (Z.min end1 (len buf1)) (Z.min end2 (len buf2)) r r');
    [lia | lia | exact Hp | exact Hp'].
Qed.

(** X10: [paired_fastq_heads] looks at nothing at or beyond [end1] and
    [end2]: two pairs of buffers that agree on their first [end1] and
    [end2] bytes give the same result. *)
Theorem paired_fastq_heads_ignores_bytes_past_end
    (buf1 buf2 buf1' buf2' : bytes) (end1 end2 : Z) :
  0 <= end1 -> 0 <= end2 ->
  firstn (Z.to_nat end1) buf1 = firstn (Z.to_nat end1) buf1' ->
  firstn (Z.to_nat end2) buf2 = firstn (Z.to_nat end2) buf2' ->
  paired_fastq_heads buf1 buf2 end1 end2 = paired_fastq_heads buf1' buf2' end1 end2.
Proof.
  intros H1 H2 E1 E2.
  rewrite (paired_fastq_heads_firstn buf1 buf2), (paired_fastq_heads_firstn buf1' buf2')
    by assumption.
  now rewrite E1, E2.
Qed.

Lemma paired_fastq_heads_ignores_bytes_past_end_witness :
  paired_fastq_heads (minimal_record ++ bs "@r2") minimal_record 16 16
  = paired_fastq_heads (minimal_record ++ [LF; LF; LF; LF]) (minimal_record ++ bs "x") 16 16.
Proof.
  apply (paired_fastq_heads_ignores_bytes_past_end
           (minimal_record ++ bs "@r2") minimal_record
           (minimal_record ++ [LF; LF; LF; LF]) (minimal_record ++ bs "x") 16 16).
  - lia.
  - lia.
  - reflexivity.
  - reflexivity.
Defined.

(** X11: the pair [paired_fastq_heads] returns is a fixed point: scanning
    the same buffers up to the returned lengths returns these lengths
    again.  More generally, two lengths inside the buffers are returned
    unchanged exactly when both prefixes end right after a newline (or are
    empty) and hold the same number of newlines, a multiple of four. *)
Theorem paired_fastq_heads_fixed_points
    (buf1 buf2 : bytes) (end1 end2 len1 len2 : Z) :
  0 <= len1 <= len buf1 -> 0 <= len2 <= len buf2 ->
  (paired_fastq_heads buf1 buf2 end1 end2 = Some (len1, len2) ->
   paired_fastq_heads buf1 buf2 len1 len2 = Some (len1, len2))
  /\ (paired_fastq_heads buf1 buf2 len1 len2 = Some (len1, len2)
      <-> at_boundary buf1 len1 /\ at_boundary buf2 len2
          /\ newlines buf1 len1 = newlines buf2 len2
          /\ newlines buf1 len1 mod 4 = 0).
Proof.
  intros H1 H2.
  assert (Hfix : at_boundary buf1 len1 /\ at_boundary buf2 len2
                 /\ newlines buf1 len1 = newlines buf2 len2
                 /\ newlines buf1 len1 mod 4 = 0 ->
                 paired_fastq_heads buf1 buf2 len1 len2 = Some (len1, len2)).
  { intros (B1 & B2 & Hn & Hm).
    destruct (paired_fastq_heads_post buf1 buf2 len1 len2 ltac:(lia) ltac:(lia))
      as ([a b] & Hr & Hp).
    rewrite Hr. f_equal.
    rewrite !Z.min_l in Hp by lia.
    destruct Hp as (A1 & A2 & A3 & A4 & A5 & A6). cbn [fst snd] in *.
    rewrite <- Hn, Z.min_id in A3, A4.
    assert (Hq : 4 * (newlines buf1 len1 / 4) = newlines buf1 len1).
    { pose proof (Z.div_mod (newlines buf1 len1) 4 ltac:(lia)). lia. }
    rewrite Hq in A3, A4.
    f_equal.
    - apply (boundary_unique buf1 a len1); [lia | lia | assumption | congruence].
    - apply (boundary_unique buf2 b len2); [lia | lia | assumption | congruence]. }
  assert (Hshape : forall e1 e2,
             paired_fastq_heads buf1 buf2 e1 e2 = Some (len1, len2) ->
             at_boundary buf1 len1 /\ at_boundary buf2 len2
             /\ newlines buf1 len1 = newlines buf2 len2
             /\ newlines buf1 len1 mod 4 = 0).
  { intros e1 e2 Hr. exact (paired_fastq_heads_shape buf1 buf2 e1 e2 len1 len2 Hr). }
  split; [| split].
  - intros Hr. apply Hfix. now apply (Hshape end1 end2).
  - apply Hshape.
  - exact Hfix.
Qed.

Lemma paired_fastq_heads_fixed_points_witness :
  paired_fastq_heads (minimal_record ++ truncated_record) minimal_record 16 16
  = Some (16, 16).
Proof.
  refine (proj1 (paired_fastq_heads_fixed_points (minimal_record ++ truncated_record)
                   minimal_record 100 100 16 16 _ _) _).
  - vm_compute. split; discriminate.
  - vm_compute. split; discriminate.
  - vm_compute. reflexivity.
Defined.

(** * Further properties of the name comparison *)

Lemma pair_digit_not_stop (c : byte) : is_pair_digit c = true -> id_stop c = false.
Proof. destruct c; vm_compute; congruence. Qed.

Lemma find_first_app (i t : bytes) :
  Forall (fun c => id_stop c = false) i ->
  t = [] \/ id_stop (hd NUL t) = true ->
  find_first id_stop (i ++ t) = len i.
Proof.
  intros Hi Ht. induction Hi as [|c i Hc Hi IH]; cbn [app find_first].
  - destruct Ht as [-> | Ht]; [reflexivity |].
    destruct t as [|c t]; [reflexivity |]. cbn [hd] in Ht. cbn [find_first]. now rewrite Ht.
  - rewrite Hc, IH. len_simpl. reflexivity.
Qed.

(** A name is its read ID followed by nothing or by a stop byte. *)
Lemma read_id_spec (h : bytes) :
  exists t,
    h = read_id h ++ t
    /\ Forall (fun c => id_stop c = false) (read_id h)
    /\ (t = [] \/ id_stop (hd NUL t) = true).
Proof.
  unfold read_id. induction h as [|c h IH]; cbn [find_first].
  - exists []. cbn. auto.
  - destruct (id_stop c) eqn:Ec.
    + exists (c :: h). cbn. auto.
    + destruct IH as (t & Hh & Hall & Ht).
      pose proof (find_first_bounds id_stop h) as Hb.
      replace (Z.to_nat (1 + find_first id_stop h))
        with (S (Z.to_nat (find_first id_stop h))) by lia.
      cbn [firstn app]. exists t. split; [now rewrite <- Hh |]. split; [| exact Ht].
      constructor; assumption.
Qed.

Lemma len_read_id (h : bytes) : len (read_id h) = find_first id_stop h.
Proof.
  unfold read_id. apply len_firstn. apply find_first_bounds.
Qed.

Lemma header_byte_app_id (i t : bytes) (k : Z) :
  0 <= k < len i -> header_byte (i ++ t) k = nth_error i (Z.to_nat k).
Proof.
  intros Hk. unfold header_byte. destruct (Z.ltb_spec k 0); [lia |].
  apply nth_error_app1. unfold len in Hk. lia.
Qed.

Lemma header_byte_app_tail (i t : bytes) :
  header_byte (i ++ t) (len i) = nth_error t 0.
Proof.
  unfold header_byte. pose proof (len_nonneg i).
  destruct (Z.ltb_spec (len i) 0); [lia |].
  unfold len. rewrite Nat2Z.id, nth_error_app2, Nat.sub_diag by lia. reflexivity.
Qed.

Lemma nth_error_last (i : bytes) :
  i <> [] -> nth_error i (Z.to_nat (len i - 1)) = Some (last i NUL).
Proof.
  intros Hi. rewrite (removelast_last_split i Hi) at 1 2.
  rewrite len_app. change (len [last i NUL]) with 1.
  replace (len (removelast i) + 1 - 1) with (len (removelast i)) by lia.
  unfold len. rewrite Nat2Z.id, nth_error_app2, Nat.sub_diag by lia. reflexivity.
Qed.

Lemma firstn_removelast_id (i t : bytes) :
  i <> [] -> firstn (Z.to_nat (len i - 1)) (i ++ t) = removelast i.
Proof.
  intros Hi. rewrite (removelast_last_split i Hi) at 1 2.
  rewrite <- app_assoc. apply firstn_at.
  rewrite len_app. change (len [last i NUL]) with 1. lia.
Qed.

Lemma nonstop_nth (i : bytes) (k : nat) (c : byte) :
  Forall (fun c => id_stop c = false) i -> nth_error i k = Some c -> id_stop c = false.
Proof.
  intros Hall Hk. apply nth_error_In in Hk.
  rewrite Forall_forall in Hall. now apply Hall.
Qed.

Lemma bytes_eqb_false (a c : bytes) : a <> c -> bytes_eqb a c = false.
Proof.
  intros H. destruct (bytes_eqb a c) eqn:E; [| reflexivity].
  apply bytes_eqb_eq in E. contradiction.
Qed.

Lemma same_pair_lengths (id1 id2 : bytes) : len id1 <> len id2 -> same_pair id1 id2 = false.
Proof.
  intros Hl. unfold same_pair.
  rewrite bytes_eqb_false by (intros ->; now apply Hl). cbn [orb].
  destruct id1 as [|x id1]; [reflexivity |].
  destruct id2 as [|y id2]; [now rewrite andb_false_r |].
  rewrite bytes_eqb_false; [now rewrite andb_false_r |].
  intros H. apply Hl.
  rewrite (removelast_last_split (x :: id1)), (removelast_last_split (y :: id2))
    by discriminate.
  rewrite !len_app, H. reflexivity.
Qed.

(** The ID policy of the code on two names cut at their read IDs. *)
Lemma IdMatcher_policy_split (i1 t1 i2 t2 : bytes) :
  Forall (fun c => id_stop c = false) i1 ->
  Forall (fun c => id_stop c = false) i2 ->
  t1 = [] \/ id_stop (hd NUL t1) = true ->
  t2 = [] \/ id_stop (hd NUL t2) = true ->
  i2 <> [] ->
  IdMatcher_policy (i1 ++ t1) (i2 ++ t2) (len (i1 ++ t1)) = same_pair i1 i2.
Proof.
  intros Hi1 Hi2 Ht1 Ht2 Hne.
  unfold IdMatcher_policy, id_policy. fold id_stop.
  rewrite (find_first_app i2 t2 Hi2 Ht2).
  assert (Hpos : 0 < len i2).
  { destruct i2; [congruence |]. len_simpl. pose proof (len_nonneg i2). lia. }
  pose proof (len_nonneg i1) as Hn1. pose proof (len_nonneg t1) as Hnt1.
  destruct (Z.ltb_spec (len (i1 ++ t1)) (len i2)) as [Hshort | Hlong].
  { symmetry. apply same_pair_lengths. rewrite len_app in Hshort. lia. }
  rewrite len_app in Hlong.
  destruct (Z.lt_trichotomy (len i1) (len i2)) as [Hlt | [Heq | Hgt]].
  - (* the first ID is shorter *)
    rewrite (same_pair_lengths i1 i2) by lia.
    match goal with |- (if negb ?b then _ else _) = _ => destruct b end;
      cbn [negb]; [| reflexivity].
    assert (Hstop1 : exists c, nth_error (i1 ++ t1) (Z.to_nat (len i1)) = Some c
                               /\ id_stop c = true).
    { destruct t1 as [|c t1]; [len_simpl; lia |].
      destruct Ht1 as [Ht1 | Ht1]; [discriminate |].
      exists c. split; [| exact Ht1].
      unfold len. rewrite Nat2Z.id, nth_error_app2, Nat.sub_diag by lia. reflexivity. }
    destruct Hstop1 as (c1 & Hc1 & Hs1).
    assert (Hnon2 : exists c, nth_error (i2 ++ t2) (Z.to_nat (len i1)) = Some c
                              /\ id_stop c = false).
    { destruct (nth_error i2 (Z.to_nat (len i1))) as [c |] eqn:E.
      - exists c. split; [| exact (nonstop_nth i2 _ c Hi2 E)].
        rewrite nth_error_app1; [exact E |]. unfold len in *. lia.
      - apply nth_error_None in E. unfold len in *. lia. }
    destruct Hnon2 as (c2 & Hc2 & Hs2).
    assert (Hdiff : forall n, len i1 < n ->
               bytes_eqb (firstn (Z.to_nat n) (i1 ++ t1)) (firstn (Z.to_nat n) (i2 ++ t2))
               = false).
    { intros n Hn. apply bytes_eqb_false. intros Heq.
      apply (f_equal (fun l => nth_error l (Z.to_nat (len i1)))) in Heq.
      rewrite !nth_error_firstn in Heq.
      destruct (Nat.ltb_spec (Z.to_nat (len i1)) (Z.to_nat n)); [| lia].
      congruence. }
    destruct (Z.eq_dec (len i1) (len i2 - 1)) as [E | E].
    + assert (Hd : opt_is is_pair_digit (header_byte (i1 ++ t1) (len i2 - 1)) = false).
      { rewrite <- E. unfold header_byte.
        destruct (Z.ltb_spec (len i1) 0); [lia |]. rewrite Hc1. cbn [opt_is].
        destruct (is_pair_digit c1) eqn:Ed; [| reflexivity].
        apply pair_digit_not_stop in Ed. congruence. }
      rewrite Hd. cbn [andb]. apply Hdiff. lia.
    + destruct (opt_is is_pair_digit (header_byte (i1 ++ t1) (len i2 - 1))
                && opt_is is_pair_digit (header_byte (i2 ++ t2) (len i2 - 1)));
        apply Hdiff; lia.
  - (* IDs of the same length *)
    assert (Hne1 : i1 <> []) by (intros ->; change (len (@nil byte)) with 0 in Heq; lia).
    assert (Htail : header_byte (i1 ++ t1) (len i2) = nth_error t1 0)
      by (rewrite <- Heq; apply header_byte_app_tail).
    assert (Hd1 : header_byte (i1 ++ t1) (len i2 - 1) = Some (last i1 NUL)).
    { rewrite <- Heq, header_byte_app_id by lia. now apply nth_error_last. }
    assert (Hd2 : header_byte (i2 ++ t2) (len i2 - 1) = Some (last i2 NUL)).
    { rewrite header_byte_app_id by lia. now apply nth_error_last. }
    assert (Hf1 : firstn (Z.to_nat (len i2)) (i1 ++ t1) = i1)
      by (rewrite <- Heq; now apply firstn_at).
    assert (Hf2 : firstn (Z.to_nat (len i2)) (i2 ++ t2) = i2) by now apply firstn_at.
    assert (Hr1 : firstn (Z.to_nat (len i2 - 1)) (i1 ++ t1) = removelast i1)
      by (rewrite <- Heq; now apply firstn_removelast_id).
    assert (Hr2 : firstn (Z.to_nat (len i2 - 1)) (i2 ++ t2) = removelast i2)
      by now apply firstn_removelast_id.
    rewrite Htail, Hd1, Hd2. cbn [opt_is].
    assert (Hok : match nth_error t1 0 with
                  | Some c => Byte.eqb c NUL || Byte.eqb c SPACE || Byte.eqb c TAB
                  | None => true
                  end = true).
    { destruct Ht1 as [-> | Ht1]; [reflexivity |].
      destruct t1; [reflexivity | exact Ht1]. }
    rewrite Hok. cbn [negb]. unfold same_pair.
    destruct (is_pair_digit (last i1 NUL) && is_pair_digit (last i2 NUL)) eqn:Ed.
    + rewrite Hr1, Hr2. cbn [andb].
      destruct (bytes_eqb i1 i2) eqn:Ee; [| reflexivity].
      apply bytes_eqb_eq in Ee. subst i2. cbn [orb]. apply bytes_eqb_refl.
    + rewrite Hf1, Hf2. cbn [andb]. now rewrite orb_false_r.
  - (* the first ID is longer *)
    rewrite (same_pair_lengths i1 i2) by lia.
    rewrite (header_byte_app_id i1 t1) by lia.
    destruct (nth_error i1 (Z.to_nat (len i2))) as [c |] eqn:E.
    + pose proof (nonstop_nth i1 _ c Hi1 E) as Hc. unfold id_stop in Hc.
      rewrite Hc. reflexivity.
    + apply nth_error_None in E. unfold len in *. lia.
Qed.

Lemma names_match_by_ids (header1 header2 : bytes) :
  len header2 < 2 ^ 64 ->
  read_id header2 <> [] ->
  result (record_ids_match header1 header2 (len header1))
  = Some (same_pair (read_id header1) (read_id header2)).
Proof.
  intros Hl Hne.
  assert (Hpos : 0 < find_first id_stop header2).
  { rewrite <- len_read_id. destruct (read_id header2) as [|x l]; [congruence |].
    len_simpl. pose proof (len_nonneg l). lia. }
  rewrite record_ids_match_policy by (try lia; assumption).
  f_equal.
  destruct (read_id_spec header1) as (t1 & H1 & Hi1 & Ht1).
  destruct (read_id_spec header2) as (t2 & H2 & Hi2 & Ht2).
  rewrite H1 at 1 2. rewrite H2 at 1.
  now apply IdMatcher_policy_split.
Qed.

(** X12: what [record_names_match_bytes] and [is_mate] decide.  When the
    second name has a non-empty read ID (it does not start with a space, a
    tab or a NUL byte), the two names match exactly when their read IDs,
    the parts before the first space, tab or NUL, are the same, or are the
    same up to a last character that is 1, 2 or 3 in both.  Whatever
    follows the IDs plays no role. *)
Theorem names_match_iff_ids_pair (self other : BytesSequence) :
  let header1 := bseq_name self in
  let header2 := bseq_name other in
  len header2 < 2 ^ 64 ->
  read_id header2 <> [] ->
  result (record_names_match_bytes header1 header2)
  = Some (same_pair (read_id header1) (read_id header2))
  /\ result (BytesSequence_is_mate self other)
     = Some (same_pair (read_id header1) (read_id header2)).
Proof.
  cbv zeta. intros Hl Hne. unfold record_names_match_bytes, BytesSequence_is_mate.
  split; now apply names_match_by_ids.
Qed.

Lemma names_match_iff_ids_pair_witness :
  result (record_names_match_bytes (bs "read.1 first") (bs "read.2 second comment"))
  = Some (same_pair (read_id (bs "read.1 first")) (read_id (bs "read.2 second comment"))).
Proof.
  refine (proj1 (names_match_iff_ids_pair
                   (mkBytesSequence (bs "read.1 first") (bs "A") (bs "!"))
                   (mkBytesSequence (bs "read.2 second comment") (bs "C") (bs "#")) _ _)).
  - vm_compute. reflexivity.
  - vm_compute. discriminate.
Defined.

(** ** Matching is symmetric and transitive *)

Lemma bytes_eqb_sym (a c : bytes) : bytes_eqb a c = bytes_eqb c a.
Proof.
  destruct (bytes_eqb a c) eqn:E.
  - apply bytes_eqb_eq in E. subst. symmetry. apply bytes_eqb_refl.
  - symmetry. apply bytes_eqb_false. intros ->. now rewrite bytes_eqb_refl in E.
Qed.

Lemma same_pair_sym (id1 id2 : bytes) : same_pair id1 id2 = same_pair id2 id1.
Proof.
  unfold same_pair.
  rewrite (bytes_eqb_sym id1 id2), (bytes_eqb_sym (removelast id1) (removelast id2)).
  now rewrite (andb_comm (is_pair_digit (last id1 NUL))).
Qed.

Lemma same_pair_true (id1 id2 : bytes) :
  same_pair id1 id2 = true <->
  id1 = id2
  \/ (is_pair_digit (last id1 NUL) = true /\ is_pair_digit (last id2 NUL) = true
      /\ removelast id1 = removelast id2).
Proof.
  unfold same_pair. rewrite orb_true_iff, !andb_true_iff, !bytes_eqb_eq. tauto.
Qed.

Lemma same_pair_trans (id1 id2 id3 : bytes) :
  same_pair id1 id2 = true -> same_pair id2 id3 = true -> same_pair id1 id3 = true.
Proof.
  rewrite !same_pair_true.
  intros [-> | (D1 & D2 & R12)] [<- | (D2' & D3 & R23)]; auto.
  right. repeat split; congruence.
Qed.

Lemma id_stop_hd_read_id (h : bytes) :
  read_id h = [] -> find_first id_stop h = 0 /\ id_stop (hd NUL h) = true.
Proof.
  intros H. pose proof (len_read_id h) as Hl. rewrite H in Hl.
  change (len (@nil byte)) with 0 in Hl. split; [lia |].
  destruct h as [|c h]; [reflexivity |].
  cbn [find_first hd] in *. destruct (id_stop c); [reflexivity |].
  pose proof (find_first_bounds id_stop h). lia.
Qed.

(** The second ID is empty and the first one is not: no match. *)
Lemma names_match_empty_second (header1 header2 : bytes) :
  read_id header2 = [] -> read_id header1 <> [] ->
  result (record_ids_match header1 header2 (len header1)) = Some false.
Proof.
  intros H2 H1. apply id_stop_hd_read_id in H2. destruct H2 as [H0 _].
  assert (Hc : exists c, char_at header1 0 = Some c /\ id_stop c = false).
  { unfold read_id in H1. destruct header1 as [|c h]; [now destruct (Z.to_nat _) |].
    exists c. split; [reflexivity |].
    cbn [find_first] in H1. destruct (id_stop c); [now cbn in H1 | reflexivity]. }
  destruct Hc as (c & Hc & Hs).
  unfold record_ids_match. rewrite result_bind. unfold strcspn_traced at 1.
  cbn [result snd]. rewrite strcspn_find_first, H0.
  pose proof (len_nonneg header1).
  destruct (Z.ltb_spec (len header1) 0); [lia |].
  rewrite result_bind. unfold peek at 1. cbn [result snd]. rewrite Hc.
  unfold id_stop in Hs.
  destruct (Byte.eqb c NUL), (Byte.eqb c SPACE), (Byte.eqb c TAB); try discriminate.
  reflexivity.
Qed.

Lemma same_pair_nil_r (id1 : bytes) : id1 <> [] -> same_pair id1 [] = false.
Proof.
  intros H. apply same_pair_lengths. destruct id1; [congruence |].
  len_simpl. pose proof (len_nonneg id1). lia.
Qed.

Lemma names_match_sym (header1 header2 : bytes) :
  len header1 < 2 ^ 64 - 1 -> len header2 < 2 ^ 64 - 1 ->
  result (record_ids_match header1 header2 (len header1))
  = result (record_ids_match header2 header1 (len header2)).
Proof.
  intros L1 L2.
  destruct (read_id header1) as [|x1 i1] eqn:E1, (read_id header2) as [|x2 i2] eqn:E2.
  - destruct (id_stop_hd_read_id _ E1) as [F1 S1].
    destruct (id_stop_hd_read_id _ E2) as [F2 S2].
    pose proof (len_nonneg header1). pose proof (len_nonneg header2).
    rewrite (record_ids_match_empty_id header1 header2), (record_ids_match_empty_id header2 header1)
      by (try lia; assumption).
    reflexivity.
  - rewrite (names_match_by_ids header1 header2) by (try lia; rewrite E2; discriminate).
    rewrite (names_match_empty_second header2 header1 E1) by (rewrite E2; discriminate).
    rewrite E1, E2, same_pair_sym. now rewrite same_pair_nil_r by discriminate.
  - rewrite (names_match_by_ids header2 header1) by (try lia; rewrite E1; discriminate).
    rewrite (names_match_empty_second header1 header2 E2) by (rewrite E1; discriminate).
    rewrite E1, E2, same_pair_sym. now rewrite same_pair_nil_r by discriminate.
  - rewrite (names_match_by_ids header1 header2) by (try lia; rewrite E2; discriminate).
    rewrite (names_match_by_ids header2 header1) by (try lia; rewrite E1; discriminate).
    now rewrite same_pair_sym.
Qed.

Lemma names_match_true (header1 header2 : bytes) :
  len header1 < 2 ^ 64 - 1 -> len header2 < 2 ^ 64 - 1 ->
  result (record_ids_match header1 header2 (len header1)) = Some true ->
  read_id header1 <> [] /\ read_id header2 <> []
  /\ same_pair (read_id header1) (read_id header2) = true.
Proof.
  intros L1 L2 H.
  destruct (read_id header1) as [|x1 i1] eqn:E1, (read_id header2) as [|x2 i2] eqn:E2.
  - destruct (id_stop_hd_read_id _ E1) as [F1 S1].
    destruct (id_stop_hd_read_id _ E2) as [F2 S2].
    pose proof (len_nonneg header1).
    rewrite (record_ids_match_empty_id header1 header2) in H by (try lia; assumption).
    discriminate.
  - rewrite (names_match_by_ids header1 header2) in H by (try lia; rewrite E2; discriminate).
    rewrite E1, E2, same_pair_sym, same_pair_nil_r in H by discriminate. discriminate.
  - rewrite (names_match_empty_second header1 header2 E2) in H
      by (rewrite E1; discriminate).
    discriminate.
  - rewrite (names_match_by_ids header1 header2) in H by (try lia; rewrite E2; discriminate).
    rewrite E1, E2 in H. inversion H as [H']. rewrite H'.
    repeat split; discriminate.
Qed.

(** X13: being mates is symmetric and transitive.  For names shorter than
    [2^64 - 1] bytes, comparing the second name with the first gives what
    comparing the first with the second gives (the same answer, or in both
    directions the read outside the names of the empty-ID case); and if
    the first matches the second and the second the third, the first
    matches the third. *)
Theorem is_mate_symmetric_and_transitive (a b c : BytesSequence) :
  len (bseq_name a) < 2 ^ 64 - 1 ->
  len (bseq_name b) < 2 ^ 64 - 1 ->
  len (bseq_name c) < 2 ^ 64 - 1 ->
  result (BytesSequence_is_mate a b) = result (BytesSequence_is_mate b a)
  /\ result (record_names_match_bytes (bseq_name a) (bseq_name b))
     = result (record_names_match_bytes (bseq_name b) (bseq_name a))
  /\ (result (BytesSequence_is_mate a b) = Some true ->
      result (BytesSequence_is_mate b c) = Some true ->
      result (BytesSequence_is_mate a c) = Some true).
Proof.
  intros L1 L2 L3.
  unfold BytesSequence_is_mate, record_names_match_bytes.
  split; [now apply names_match_sym |]. split; [now apply names_match_sym |].
  intros H12 H23.
  apply names_match_true in H12; [| assumption | assumption].
  apply names_match_true in H23; [| assumption | assumption].
  destruct H12 as (_ & _ & S12). destruct H23 as (_ & N3 & S23).
  rewrite names_match_by_ids by (try lia; assumption).
  f_equal. now apply (same_pair_trans _ (read_id (bseq_name b))).
Qed.

Lemma is_mate_symmetric_and_transitive_witness :
  result (BytesSequence_is_mate (mkBytesSequence (bs "r/1 a") (bs "A") (bs "!"))
            (mkBytesSequence (bs "r/2") (bs "C") (bs "#")))
  = result (BytesSequence_is_mate (mkBytesSequence (bs "r/2") (bs "C") (bs "#"))
              (mkBytesSequence (bs "r/1 a") (bs "A") (bs "!"))).
Proof.
  refine (proj1 (is_mate_symmetric_and_transitive
                   (mkBytesSequence (bs "r/1 a") (bs "A") (bs "!"))
                   (mkBytesSequence (bs "r/2") (bs "C") (bs "#"))
                   (mkBytesSequence (bs "r/3") [] []) _ _ _)); vm_compute; reflexivity.
Defined.

(** X14: with a non-empty read ID in the second name, the comparison reads
    no byte outside the two names and their terminators, whichever public
    function starts it. *)
Theorem names_match_reads_in_bounds (self other : BytesSequence) :
  let header1 := bseq_name self in
  let header2 := bseq_name other in
  len header2 < 2 ^ 64 ->
  read_id header2 <> [] ->
  Forall (in_bounds header1 header2) (reads (record_names_match_bytes header1 header2))
  /\ Forall (in_bounds header1 header2) (reads (BytesSequence_is_mate self other))
  /\ result (BytesSequence_is_mate self other) <> None.
Proof.
  cbv zeta. intros Hl Hne.
  assert (Hpos : 0 < find_first id_stop (bseq_name other)).
  { rewrite <- len_read_id. destruct (read_id (bseq_name other)) as [|x l]; [congruence |].
    len_simpl. pose proof (len_nonneg l). lia. }
  unfold record_names_match_bytes, BytesSequence_is_mate.
  split; [apply record_ids_match_in_bounds; try lia; assumption |].
  split; [apply record_ids_match_in_bounds; try lia; assumption |].
  rewrite names_match_by_ids by assumption. discriminate.
Qed.

Lemma names_match_reads_in_bounds_witness :
  Forall (in_bounds (bs "r/1 a") (bs "r/2"))
    (reads (record_names_match_bytes (bs "r/1 a") (bs "r/2"))).
Proof.
  refine (proj1 (names_match_reads_in_bounds
                   (mkBytesSequence (bs "r/1 a") (bs "A") (bs "!"))
                   (mkBytesSequence (bs "r/2") (bs "C") (bs "#")) _ _)).
  - vm_compute. reflexivity.
  - vm_compute. discriminate.
Defined.

(** ** The entry points for str *)

Lemma text_data_not_latin1 (s : str) :
  latin1 s = false -> text_data encode_latin1 s = inr (UnicodeEncodeError "latin-1").
Proof.
  intros H. unfold text_data, PyUnicode_KIND. unfold latin1 in H. rewrite H.
  unfold encode_latin1, encode. rewrite H.
  destruct (forallb (fun c => (c <? 65536)%N) s); reflexivity.
Qed.

Lemma len_map_byte_of_code (s : str) : len (map byte_of_code s) = len s.
Proof. unfold len. now rewrite length_map. Qed.

(** X15: the functions for [str] names agree with those for [bytes].  On
    two names whose code points are all below 256, [record_names_match]
    and [Sequence.is_mate] both return what [record_names_match_bytes]
    returns on the latin-1 bytes of the names.  If a name holds a code
    point of 256 or more, [record_names_match] raises
    [UnicodeEncodeError] (its latin-1 fallback cannot succeed) and
    [Sequence.is_mate] raises [ValueError]. *)
Theorem str_names_match_as_their_latin1_bytes (self other : Sequence) :
  let header1 := seq_name self in
  let header2 := seq_name other in
  (latin1 header1 = true -> latin1 header2 = true ->
   record_names_match header1 header2
   = inl (record_names_match_bytes (map byte_of_code header1) (map byte_of_code header2))
   /\ Sequence_is_mate self other
      = inl (record_names_match_bytes (map byte_of_code header1)
               (map byte_of_code header2)))
  /\ (latin1 header1 = false \/ latin1 header2 = false ->
      record_names_match header1 header2 = inr (UnicodeEncodeError "latin-1")
      /\ Sequence_is_mate self other = inr (ValueError "name should be ASCII-only.")).
Proof.
  cbv zeta. split.
  - intros H1 H2. unfold record_names_match, Sequence_is_mate, record_names_match_bytes.
    rewrite !text_data_1byte by assumption.
    unfold PyUnicode_KIND. unfold latin1 in H1, H2. rewrite H1, H2.
    unfold PyUnicode_1BYTE_DATA. rewrite len_map_byte_of_code. split; reflexivity.
  - intros H. unfold record_names_match, Sequence_is_mate.
    destruct (latin1 (seq_name self)) eqn:E1.
    + destruct H as [H | H]; [discriminate |].
      rewrite (text_data_1byte _ _ E1), (text_data_not_latin1 _ H).
      unfold PyUnicode_KIND. unfold latin1 in E1, H. rewrite E1, H.
      split; [reflexivity |].
      destruct (forallb (fun c => (c <? 65536)%N) (seq_name other)); reflexivity.
    + rewrite (text_data_not_latin1 _ E1).
      unfold PyUnicode_KIND. unfold latin1 in E1. rewrite E1.
      split; [reflexivity |].
      destruct (forallb (fun c => (c <? 65536)%N) (seq_name self)); reflexivity.
Qed.

Lemma str_names_match_as_their_latin1_bytes_witness :
  record_names_match [114; 47; 49]%N [114; 47; 50]%N
  = inl (record_names_match_bytes (map byte_of_code [114; 47; 49]%N)
           (map byte_of_code [114; 47; 50]%N)).
Proof.
  refine (proj1 (proj1 (str_names_match_as_their_latin1_bytes
                          (mkSequence [114; 47; 49]%N [65]%N (Some [33]%N))
                          (mkSequence [114; 47; 50]%N [67]%N None)) _ _));
    reflexivity.
Defined.

(** * The methods of Sequence *)

(** ** Subscripts *)

Lemma len_zseq (n : Z) : 0 <= n -> len (zseq n) = n.
Proof. intros Hn. unfold len, zseq. rewrite length_map, length_seq. lia. Qed.

Lemma adjust_index_range (length step i : Z) :
  0 <= length ->
  (0 < step -> 0 <= adjust_index length step i <= length)
  /\ (step < 0 -> -1 <= adjust_index length step i <= length - 1).
Proof.
  intros Hl. unfold adjust_index.
  destruct (Z.ltb_spec i 0), (Z.ltb_spec (i + length) 0), (Z.ltb_spec step 0),
    (Z.geb_spec i length); lia.
Qed.

(** The number of items of a slice is between 0 and the length. *)
Lemma slicelength_range (length start stop step : Z) :
  0 <= length -> step <> 0 ->
  0 <= snd (PySlice_AdjustIndices length start stop step) <= length.
Proof.
  intros Hl Hs. unfold PySlice_AdjustIndices. cbn [snd].
  destruct (adjust_index_range length step start Hl) as [Ap An].
  destruct (adjust_index_range length step stop Hl) as [Bp Bn].
  set (a := adjust_index length step start) in *.
  set (b := adjust_index length step stop) in *.
  destruct (Z.ltb_spec step 0) as [Hneg | Hpos].
  - specialize (An Hneg). specialize (Bn Hneg).
    destruct (Z.ltb_spec b a); [| lia].
    rewrite Z.quot_div_nonneg by lia.
    pose proof (Z.div_pos (a - b - 1) (- step) ltac:(lia) ltac:(lia)).
    assert ((a - b - 1) / - step <= a - b - 1)
      by (apply Z.div_le_upper_bound; nia).
    lia.
  - specialize (Ap ltac:(lia)). specialize (Bp ltac:(lia)).
    destruct (Z.ltb_spec a b); [| lia].
    rewrite Z.quot_div_nonneg by lia.
    pose proof (Z.div_pos (b - a - 1) step ltac:(lia) ltac:(lia)).
    assert ((b - a - 1) / step <= b - a - 1)
      by (apply Z.div_le_upper_bound; nia).
    lia.
Qed.

Lemma PySlice_Unpack_step (start stop step : option Z) (a b c : Z) :
  PySlice_Unpack start stop step = inl (a, b, c) -> c <> 0.
Proof.
  unfold PySlice_Unpack. destruct step as [s |].
  - destruct (Z.eqb_spec (slice_index s) 0) as [E0 | E0]; [discriminate |].
    destruct (Z.ltb_spec (slice_index s) (- PY_SSIZE_T_MAX)) as [E1 | E1];
      intros Hu; inversion Hu; subst; [unfold PY_SSIZE_T_MAX; lia | assumption].
  - intros Hu. inversion Hu. lia.
Qed.

Lemma PySlice_Unpack_error (start stop step : option Z) (e : method_error) :
  PySlice_Unpack start stop step = inr e ->
  e = Raised (ValueError "slice step cannot be zero").
Proof.
  unfold PySlice_Unpack. destruct step as [s |]; [| discriminate].
  destruct (slice_index s =? 0); [intros H; now inversion H |].
  destruct (slice_index s <? - PY_SSIZE_T_MAX); discriminate.
Qed.

(** A subscript of a sequence: its result has a length that depends on the
    length of the sequence only, and so does its failure. *)
Lemma seq_getitem_shape {A : Type} (d : A) (self : list A) (item : key) :
  match seq_getitem d self item with
  | inl r =>
      len r <= len self
      /\ forall (B : Type) (d' : B) (other : list B),
           len other = len self ->
           exists r', seq_getitem d' other item = inl r' /\ len r' = len r
  | inr e =>
      (e = IndexError \/ e = Raised (ValueError "slice step cannot be zero"))
      /\ forall (B : Type) (d' : B) (other : list B),
           len other = len self -> seq_getitem d' other item = inr e
  end.
Proof.
  pose proof (len_nonneg self) as Hl.
  destruct item as [i | start stop step]; unfold seq_getitem.
  - destruct (((if i <? 0 then i + len self else i) <? 0)
              || ((if i <? 0 then i + len self else i) >=? len self)) eqn:E.
    + split; [auto |]. intros B d' other ->. now rewrite E.
    + split.
      * change (len [nth (Z.to_nat (if i <? 0 then i + len self else i)) self d]) with 1.
        apply orb_false_iff in E. destruct E as [E1 E2].
        destruct (Z.ltb_spec (if i <? 0 then i + len self else i) 0); [discriminate |].
        destruct (Z.geb_spec (if i <? 0 then i + len self else i) (len self));
          [discriminate |]. lia.
      * intros B d' other ->. rewrite E. eexists. split; reflexivity.
  - destruct (PySlice_Unpack start stop step) as [[[a b] c] | e] eqn:Eu.
    + pose proof (PySlice_Unpack_step _ _ _ _ _ _ Eu) as Hc.
      pose proof (slicelength_range (len self) a b c Hl Hc) as Hn.
      destruct (PySlice_AdjustIndices (len self) a b c) as [[a' b'] n] eqn:Ea.
      cbn [snd] in Hn.
      assert (Hlen : len (if n <=? 0 then []
                          else map (fun i => nth (Z.to_nat (a' + i * c)) self d) (zseq n))
                     = n).
      { destruct (Z.leb_spec n 0).
        - change (len (@nil A)) with 0. lia.
        - unfold len. rewrite length_map. apply len_zseq. lia. }
      destruct (n <=? 0) eqn:En.
      * split; [rewrite Hlen; lia |]. intros B d' other ->. rewrite Ea, En.
        eexists. split; [reflexivity |]. rewrite Hlen.
        change (len (@nil B)) with 0. destruct (Z.leb_spec n 0); [lia | discriminate].
      * split; [rewrite Hlen; lia |]. intros B d' other ->. rewrite Ea, En.
        eexists. split; [reflexivity |]. rewrite Hlen.
        unfold len. rewrite length_map. apply len_zseq. lia.
    + split; [right; now apply (PySlice_Unpack_error start stop step) |].
      intros B d' other _. reflexivity.
Qed.

(** X16: slicing keeps a record well formed.  For a record whose
    qualities are absent or as long as its sequence, [r[key]] either fails
    as the subscript of the sequence fails ([IndexError], or [ValueError]
    for a zero step), or returns a record with the same name, the sliced
    sequence and the qualities sliced by the same key, again as long as
    the sequence; the length check of the constructor never fails, and
    the result is never longer than [r]. *)
Theorem slicing_keeps_records_valid (r : Sequence) (item : key) :
  match seq_qualities r with
  | Some q => len q = len (seq_sequence r)
  | None => True
  end ->
  match Sequence_getitem r item with
  | inl r' =>
      seq_name r' = seq_name r
      /\ str_getitem (seq_sequence r) item = inl (seq_sequence r')
      /\ match seq_qualities r, seq_qualities r' with
         | Some q, Some q' =>
             str_getitem q item = inl q' /\ len q' = len (seq_sequence r')
         | None, None => True
         | _, _ => False
         end
      /\ Sequence_len r' <= Sequence_len r
  | inr e =>
      str_getitem (seq_sequence r) item = inr e
      /\ (e = IndexError \/ e = Raised (ValueError "slice step cannot be zero"))
  end.
Proof.
  intros Hv. unfold Sequence_getitem, str_getitem, Sequence_len.
  pose proof (seq_getitem_shape 0%N (seq_sequence r) item) as Hs.
  destruct (seq_getitem 0%N (seq_sequence r) item) as [s' | e].
  - destruct Hs as [Hle Hother].
    destruct (seq_qualities r) as [q |].
    + destruct (Hother N 0%N q Hv) as (q' & Hq & Hl). rewrite Hq.
      unfold Sequence_call, Sequence_init. rewrite Hl, Z.eqb_refl. cbn [negb].
      cbn [seq_name seq_sequence seq_qualities]. auto.
    + unfold Sequence_call, Sequence_init.
      cbn [seq_name seq_sequence seq_qualities]. auto.
  - destruct Hs as [He _]. auto.
Qed.

Lemma slicing_keeps_records_valid_witness :
  match Sequence_getitem (mkSequence [114]%N [65; 67; 71; 84]%N (Some [33; 34; 35; 36]%N))
          (Slice (Some (-3)) None (Some 2)) with
  | inl r' =>
      seq_name r' = [114]%N
      /\ str_getitem [65; 67; 71; 84]%N (Slice (Some (-3)) None (Some 2))
         = inl (seq_sequence r')
      /\ match seq_qualities r' with
         | Some q' =>
             str_getitem [33; 34; 35; 36]%N (Slice (Some (-3)) None (Some 2)) = inl q'
             /\ len q' = len (seq_sequence r')
         | None => False
         end
      /\ Sequence_len r' <= 4
  | inr e =>
      str_getitem [65; 67; 71; 84]%N (Slice (Some (-3)) None (Some 2)) = inr e
      /\ (e = IndexError \/ e = Raised (ValueError "slice step cannot be zero"))
  end.
Proof.
  apply (slicing_keeps_records_valid
           (mkSequence [114]%N [65; 67; 71; 84]%N (Some [33; 34; 35; 36]%N))
           (Slice (Some (-3)) None (Some 2))).
  reflexivity.
Defined.

(** ** Cutting a record in two *)

Lemma map_nth_zseq {A : Type} (d : A) (s : list A) (a n : Z) :
  0 <= a -> 0 <= n ->
  map (fun i => nth (Z.to_nat (a + i * 1)) s d) (zseq n)
  = firstn (Z.to_nat n) (skipn (Z.to_nat a) s)
    ++ repeat d (Z.to_nat n - length (skipn (Z.to_nat a) s)).
Proof.
  intros Ha Hn. unfold zseq. rewrite map_map.
  rewrite <- (Z2Nat.id n Hn) at 1. rewrite Nat2Z.id.
  generalize (Z.to_nat n) as m. clear n Hn.
  rewrite <- (Z2Nat.id a Ha). rewrite Nat2Z.id.
  generalize (Z.to_nat a) as k. clear a Ha. intros k m.
  revert k s. induction m as [|m IH]; intros k s; [reflexivity |].
  rewrite <- cons_seq, <- seq_shift, map_cons, map_map.
  replace (Z.to_nat (Z.of_nat k + Z.of_nat 0 * 1)) with k by lia.
  erewrite map_ext.
  2: { intros i. replace (Z.to_nat (Z.of_nat k + Z.of_nat (S i) * 1))
         with (Z.to_nat (Z.of_nat (S k) + Z.of_nat i * 1)) by lia. reflexivity. }
  rewrite (IH (S k) s).
  destruct (skipn k s) as [|x t] eqn:E.
  - assert (Hlen : (length s <= k)%nat).
    { destruct (Nat.le_gt_cases (length s) k) as [H | H]; [exact H |].
      apply (f_equal (@length A)) in E. rewrite length_skipn in E. cbn in E. lia. }
    rewrite nth_overflow by exact Hlen.
    rewrite (skipn_all2 s) by lia. rewrite firstn_nil. cbn [app length].
    rewrite !Nat.sub_0_r. reflexivity.
  - assert (Hx : nth k s d = x /\ skipn (S k) s = t).
    { rewrite <- (firstn_skipn k s) at 1 2. rewrite E.
      assert (Hk : length (firstn k s) = k).
      { rewrite length_firstn. apply (f_equal (@length A)) in E.
        rewrite length_skipn in E. cbn in E. lia. }
      split.
      - rewrite app_nth2 by lia. rewrite Hk, Nat.sub_diag. reflexivity.
      - replace (firstn k s ++ x :: t) with ((firstn k s ++ [x]) ++ t)
          by (now rewrite <- app_assoc).
        rewrite skipn_app, skipn_all2 by (rewrite length_app, Hk; cbn; lia).
        rewrite length_app, Hk. cbn [length app].
        replace (S k - (k + 1))%nat with O by lia. reflexivity. }
    destruct Hx as [-> ->]. cbn [firstn app length Nat.sub]. reflexivity.
Qed.

Lemma slice_index_adjust (length k : Z) :
  0 <= length <= PY_SSIZE_T_MAX ->
  0 <= adjust_index length 1 (slice_index k) <= length.
Proof. intros Hl. apply adjust_index_range; lia. Qed.

Lemma getitem_prefix {A : Type} (d : A) (s : list A) (k : Z) :
  len s <= PY_SSIZE_T_MAX ->
  seq_getitem d s (Slice None (Some k) None)
  = inl (firstn (Z.to_nat (adjust_index (len s) 1 (slice_index k))) s).
Proof.
  intros Hmax. pose proof (len_nonneg s) as Hl.
  pose proof (slice_index_adjust (len s) k ltac:(lia)) as Hm.
  unfold seq_getitem, PySlice_Unpack, PySlice_AdjustIndices.
  change (1 <? 0) with false. cbv iota.
  set (m := adjust_index (len s) 1 (slice_index k)) in *.
  assert (H0 : adjust_index (len s) 1 0 = 0).
  { unfold adjust_index. change (0 <? 0) with false. change (1 <? 0) with false.
    cbv iota. destruct (Z.geb_spec 0 (len s)); lia. }
  rewrite H0.
  destruct (Z.ltb_spec 0 m) as [Hpos | Hz].
  - rewrite Z.quot_1_r. replace (m - 0 - 1 + 1) with m by lia.
    destruct (Z.leb_spec m 0); [lia |].
    rewrite (map_nth_zseq d s 0 m) by lia. cbn [Z.to_nat skipn].
    replace (Z.to_nat m - length s)%nat with O by (unfold len in Hm; lia).
    cbn [repeat]. now rewrite app_nil_r.
  - change (0 <=? 0) with true. cbv iota. replace m with 0 by lia. reflexivity.
Qed.

Lemma getitem_suffix {A : Type} (d : A) (s : list A) (k : Z) :
  len s <= PY_SSIZE_T_MAX ->
  seq_getitem d s (Slice (Some k) None None)
  = inl (skipn (Z.to_nat (adjust_index (len s) 1 (slice_index k))) s).
Proof.
  intros Hmax. pose proof (len_nonneg s) as Hl.
  pose proof (slice_index_adjust (len s) k ltac:(lia)) as Hm.
  unfold seq_getitem, PySlice_Unpack, PySlice_AdjustIndices.
  change (1 <? 0) with false. cbv iota.
  set (m := adjust_index (len s) 1 (slice_index k)) in *.
  assert (H0 : adjust_index (len s) 1 PY_SSIZE_T_MAX = len s).
  { unfold adjust_index. change (PY_SSIZE_T_MAX <? 0) with false.
    change (1 <? 0) with false. cbv iota.
    destruct (Z.geb_spec PY_SSIZE_T_MAX (len s)); lia. }
  rewrite H0.
  destruct (Z.ltb_spec m (len s)) as [Hlt | Hge].
  - rewrite Z.quot_1_r. replace (len s - m - 1 + 1) with (len s - m) by lia.
    destruct (Z.leb_spec (len s - m) 0); [lia |].
    rewrite (map_nth_zseq d s m (len s - m)) by lia.
    rewrite length_skipn.
    replace (Z.to_nat (len s - m) - (length s - Z.to_nat m))%nat with O
      by (unfold len in *; lia).
    cbn [repeat]. rewrite app_nil_r. f_equal. apply firstn_all2.
    rewrite length_skipn. unfold len in *. lia.
  - change (0 <=? 0) with true. cbv iota. f_equal. symmetry.
    apply skipn_all2. unfold len in *. lia.
Qed.

(** X17: cutting a record at any position loses nothing.  For every
    integer [k], also a negative one or one beyond the ends, [r[:k]] and
    [r[k:]] are two records with the name of [r] whose sequences, put one
    after the other, give the sequence of [r], and likewise for the
    qualities. *)
Theorem prefix_and_suffix_make_the_record (r : Sequence) (k : Z) :
  match seq_qualities r with
  | Some q => len q = len (seq_sequence r)
  | None => True
  end ->
  Sequence_len r <= PY_SSIZE_T_MAX ->
  exists head tail,
    Sequence_getitem r (Slice None (Some k) None) = inl head
    /\ Sequence_getitem r (Slice (Some k) None None) = inl tail
    /\ seq_name head = seq_name r /\ seq_name tail = seq_name r
    /\ seq_sequence head ++ seq_sequence tail = seq_sequence r
    /\ match seq_qualities r with
       | Some q =>
           exists qh qt,
             seq_qualities head = Some qh /\ seq_qualities tail = Some qt
             /\ qh ++ qt = q
       | None => seq_qualities head = None /\ seq_qualities tail = None
       end.
Proof.
  intros Hv Hmax. unfold Sequence_len in Hmax.
  unfold Sequence_getitem, str_getitem.
  rewrite (getitem_prefix 0%N (seq_sequence r) k Hmax).
  rewrite (getitem_suffix 0%N (seq_sequence r) k Hmax).
  destruct (seq_qualities r) as [q |].
  - rewrite (getitem_prefix 0%N q k), (getitem_suffix 0%N q k) by lia.
    rewrite Hv.
    set (m := Z.to_nat (adjust_index (len (seq_sequence r)) 1 (slice_index k))).
    unfold Sequence_call, Sequence_init.
    assert (H1 : len (firstn m q) = len (firstn m (seq_sequence r))).
    { unfold len in *. rewrite !length_firstn. lia. }
    assert (H2 : len (skipn m q) = len (skipn m (seq_sequence r))).
    { unfold len in *. rewrite !length_skipn. lia. }
    rewrite H1, H2, !Z.eqb_refl. cbn [negb].
    eexists. eexists. split; [reflexivity |]. split; [reflexivity |].
    cbn [seq_name seq_sequence seq_qualities].
    split; [reflexivity |]. split; [reflexivity |].
    split; [apply firstn_skipn |].
    eexists. eexists. split; [reflexivity |]. split; [reflexivity |].
    apply firstn_skipn.
  - unfold Sequence_call, Sequence_init.
    eexists. eexists. split; [reflexivity |]. split; [reflexivity |].
    cbn [seq_name seq_sequence seq_qualities].
    split; [reflexivity |]. split; [reflexivity |].
    split; [apply firstn_skipn | split; reflexivity].
Qed.

Lemma prefix_and_suffix_make_the_record_witness :
  exists head tail,
    Sequence_getitem (mkSequence [114]%N [65; 67; 71; 84]%N (Some [33; 34; 35; 36]%N))
      (Slice None (Some (-1)) None) = inl head
    /\ Sequence_getitem (mkSequence [114]%N [65; 67; 71; 84]%N (Some [33; 34; 35; 36]%N))
         (Slice (Some (-1)) None None) = inl tail
    /\ seq_name head = [114]%N /\ seq_name tail = [114]%N
    /\ seq_sequence head ++ seq_sequence tail = [65; 67; 71; 84]%N
    /\ exists qh qt,
         seq_qualities head = Some qh /\ seq_qualities tail = Some qt
         /\ qh ++ qt = [33; 34; 35; 36]%N.
Proof.
  apply (prefix_and_suffix_make_the_record
           (mkSequence [114]%N [65; 67; 71; 84]%N (Some [33; 34; 35; 36]%N)) (-1)).
  - reflexivity.
  - vm_compute. discriminate.
Defined.

(** ** Equality and pickling *)

Lemma str_eqb_eq (a b : str) : str_eqb a b = true <-> a = b.
Proof.
  revert b. induction a as [|x a IH]; intros [|y b]; cbn [str_eqb];
    try (split; [discriminate | discriminate]); [tauto |].
  rewrite andb_true_iff, N.eqb_eq, IH. split.
  - intros [-> ->]. reflexivity.
  - intros H. inversion H. auto.
Qed.

Lemma opt_str_eqb_eq (a b : option str) : opt_str_eqb a b = true <-> a = b.
Proof.
  destruct a as [a |], b as [b |]; cbn [opt_str_eqb];
    try (split; [discriminate | discriminate]); [| tauto].
  rewrite str_eqb_eq. split; [now intros -> | intros H; now inversion H].
Qed.

Lemma Sequence_eq_eq (a b : Sequence) :
  Sequence_richcmp a b 2 = inl true <-> a = b.
Proof.
  unfold Sequence_richcmp. cbn [Z.leb Z.compare Pos.compare Pos.compare_cont andb Z.eqb
                                 Pos.eqb].
  split.
  - intros H. inversion H as [H'].
    apply andb_true_iff in H'. destruct H' as [H' H3].
    apply andb_true_iff in H'. destruct H' as [H1 H2].
    apply str_eqb_eq in H1, H2. apply opt_str_eqb_eq in H3.
    destruct a, b. cbn in *. congruence.
  - intros ->. f_equal.
    rewrite !(proj2 (str_eqb_eq _ _) eq_refl), (proj2 (opt_str_eqb_eq _ _) eq_refl).
    reflexivity.
Qed.

(** X18: pickling.  Rebuilding a record from what [__reduce__] returns
    calls the constructor: for a record whose qualities are absent or as
    long as its sequence this gives a record equal to the original under
    [==], and not different under [!=]; for a record whose lengths differ
    (the attributes can be assigned) it raises [ValueError].  [==] holds
    exactly between records with the same three attributes, and the
    ordering comparisons raise [NotImplementedError]. *)
Theorem pickling_round_trip (r other : Sequence) (op : Z) :
  (match seq_qualities r with
   | Some q => len q = len (seq_sequence r)
   | None => True
   end ->
   exists r',
     Sequence_rebuild (Sequence_reduce r) = inl r'
     /\ Sequence_richcmp r' r 2 = inl true
     /\ Sequence_richcmp r' r 3 = inl false)
  /\ (match seq_qualities r with
      | Some q => len q <> len (seq_sequence r)
      | None => False
      end ->
      Sequence_rebuild (Sequence_reduce r) = inr (ValueError length_mismatch_message))
  /\ (Sequence_richcmp r other 2 = inl true <-> r = other)
  /\ (op < 2 \/ 3 < op -> Sequence_richcmp r other op = inr NotImplementedError).
Proof.
  split; [| split; [| split]].
  - intros Hv. exists r.
    assert (Hr : Sequence_rebuild (Sequence_reduce r) = inl r).
    { unfold Sequence_rebuild, Sequence_reduce, Sequence_call, Sequence_init.
      destruct r as [n s q]. cbn [seq_name seq_sequence seq_qualities] in *.
      destruct q as [q |]; [| reflexivity]. rewrite Hv, Z.eqb_refl. reflexivity. }
    split; [exact Hr |].
    pose proof (proj2 (Sequence_eq_eq r r) eq_refl) as He.
    split; [exact He |].
    unfold Sequence_richcmp in *.
    cbn [Z.leb Z.compare Pos.compare Pos.compare_cont andb Z.eqb Pos.eqb] in *.
    inversion He as [He']. rewrite He'. reflexivity.
  - intros Hv. unfold Sequence_rebuild, Sequence_reduce, Sequence_call, Sequence_init.
    destruct r as [n s q]. cbn [seq_name seq_sequence seq_qualities] in *.
    destruct q as [q |]; [| contradiction].
    apply Z.eqb_neq in Hv. rewrite Hv. reflexivity.
  - apply Sequence_eq_eq.
  - intros Hop. unfold Sequence_richcmp.
    destruct (Z.leb_spec 2 op), (Z.leb_spec op 3); try reflexivity; lia.
Qed.

Lemma pickling_round_trip_witness :
  exists r',
    Sequence_rebuild (Sequence_reduce (mkSequence [114]%N [65; 67]%N (Some [33; 34]%N)))
    = inl r'
    /\ Sequence_richcmp r' (mkSequence [114]%N [65; 67]%N (Some [33; 34]%N)) 2 = inl true
    /\ Sequence_richcmp r' (mkSequence [114]%N [65; 67]%N (Some [33; 34]%N)) 3 = inl false.
Proof.
  refine (proj1 (pickling_round_trip (mkSequence [114]%N [65; 67]%N (Some [33; 34]%N))
                   (mkSequence [] [] None) 0) _).
  reflexivity.
Defined.

(** ** Serialising [str] records *)

Lemma text_data_not_1byte (codec : string) (bound : N) (s : str) :
  (bound <= 256)%N ->
  latin1 s = false ->
  text_data (encode bound codec) s = inr (UnicodeEncodeError codec).
Proof.
  intros Hb H. unfold text_data, PyUnicode_KIND. unfold latin1 in H. rewrite H.
  assert (He : encode bound codec s = inr (UnicodeEncodeError codec)).
  { unfold encode.
    destruct (forallb (fun c => (c <? bound)%N) s) eqn:E; [| reflexivity].
    exfalso. rewrite forallb_forall in E.
    assert (forallb (fun c => (c <? 256)%N) s = true); [| congruence].
    apply forallb_forall. intros c Hc. specialize (E c Hc).
    apply N.ltb_lt in E. apply N.ltb_lt. lia. }
  destruct (forallb (fun c => (c <? 65536)%N) s); exact He.
Qed.

(** X19: what [Sequence.fastq_bytes] accepts.  It succeeds exactly when
    every code point of the name, the sequence and the qualities is below
    256, and then writes these code points as single bytes: characters
    between 128 and 255 pass also in the sequence and the qualities, since
    the ASCII encoding is only tried on strings that hold a code point of
    256 or more, where it must fail.  The first offending attribute, in
    the order name, sequence, qualities, decides the error: the latin-1
    codec for the name, the ASCII codec for the other two. *)
Theorem fastq_bytes_accepts_exactly_latin1
    (name sequence qualities : str) (two_headers : bool) :
  let r := mkSequence name sequence (Some qualities) in
  Sequence_fastq_bytes r two_headers
  = if negb (latin1 name) then inr (UnicodeEncodeError "latin-1")
    else if negb (latin1 sequence) then inr (UnicodeEncodeError "ascii")
    else if negb (latin1 qualities) then inr (UnicodeEncodeError "ascii")
    else inl (fastq_text (map byte_of_code name) (map byte_of_code sequence)
                (map byte_of_code qualities) two_headers).
Proof.
  cbv zeta. unfold Sequence_fastq_bytes. cbn [seq_name seq_sequence seq_qualities].
  destruct (latin1 name) eqn:En; cbn [negb].
  2: { unfold encode_latin1. rewrite text_data_not_1byte by (assumption || lia).
       reflexivity. }
  rewrite (text_data_1byte _ name En).
  destruct (latin1 sequence) eqn:Es; cbn [negb].
  2: { unfold encode_ascii. rewrite text_data_not_1byte by (assumption || lia).
       reflexivity. }
  rewrite (text_data_1byte _ sequence Es).
  destruct (latin1 qualities) eqn:Eq; cbn [negb].
  2: { unfold encode_ascii. rewrite text_data_not_1byte by (assumption || lia).
       reflexivity. }
  rewrite (text_data_1byte _ qualities Eq).
  f_equal. apply create_fastq_record_text.
Qed.




(** * The second header, and the end of the iteration *)

(** [strncmp] does not look past a NUL byte. *)
Lemma strncmp_after_nul (a x y : bytes) (n : nat) :
  strncmp (a ++ NUL :: y) (a ++ NUL :: x) n = 0.
Proof.
  revert n. induction a as [|c a IH]; intros [|n]; cbn [strncmp app hd tl];
    try reflexivity.
  rewrite beq_refl. cbn [negb]. destruct (Byte.eqb c NUL); [reflexivity | apply IH].
Qed.

(** X21: the second header is compared with the name as a C string.  A
    record whose third line repeats the name up to a NUL byte and differs
    from it after that byte, in as many bytes, is accepted: the parser
    returns the header flag true and the record, and no "Sequence
    descriptions don't match" error. *)
Theorem second_header_is_compared_up_to_nul
    (a x y sequence qualities : bytes) (reads : list Z) (capacity : Z) :
  1 <= capacity ->
  len x = len y ->
  ~ In LF (a ++ NUL :: x) -> ~ In LF (a ++ NUL :: y) ->
  ~ In LF sequence -> ~ In LF qualities ->
  ends_with_cr (a ++ NUL :: x) = false -> ends_with_cr (a ++ NUL :: y) = false ->
  ends_with_cr sequence = false -> ends_with_cr qualities = false ->
  len qualities = len sequence ->
  run 3 (FastqIter_init
           (mkFile ([AT] ++ (a ++ NUL :: x) ++ [LF] ++ sequence ++ [LF]
                    ++ [PLUS] ++ (a ++ NUL :: y) ++ [LF] ++ qualities ++ [LF]) reads)
           BytesSequenceClass capacity)
  = [Header true;
     Record_ (VBytesSequence (mkBytesSequence (a ++ NUL :: x) sequence qualities));
     End].
Proof.
  intros Hc Hxy Hn1 Hn2 Hs Hq Cn1 Cn2 Cs Cq Hl.
  rewrite run_pulls by now apply wf_init. rewrite view_init. cbn [content].
  set (name := a ++ NUL :: x) in *. set (second := a ++ NUL :: y) in *.
  assert (Hsplit : split_record ([AT] ++ name ++ [LF] ++ sequence ++ [LF]
                                 ++ [PLUS] ++ second ++ [LF] ++ qualities ++ [LF])
                   = Some (AT :: name, sequence, PLUS :: second, qualities, [])).
  { replace ([AT] ++ name ++ [LF] ++ sequence ++ [LF]
             ++ [PLUS] ++ second ++ [LF] ++ qualities ++ [LF])
      with ((AT :: name) ++ LF :: sequence ++ LF :: (PLUS :: second)
            ++ LF :: qualities ++ LF :: []) by reassoc.
    apply split_record_app; try assumption.
    - intros [H | H]; [unfold AT, LF in H; discriminate | contradiction].
    - intros [H | H]; [unfold PLUS, LF in H; discriminate | contradiction]. }
  assert (Hlen : len second = len name).
  { subst name second. len_simpl. lia. }
  assert (Hpos : len second <> 0).
  { subst second. len_simpl. pose proof (len_nonneg a). pose proof (len_nonneg y). lia. }
  assert (Hcheck : forall n,
             check_record n (AT :: name) sequence (PLUS :: second) qualities
             = Good name sequence qualities (len second)).
  { intros n. unfold check_record. cbn [hd tl]. rewrite !beq_refl. cbn [negb].
    rewrite !strip_cr_id by assumption.
    rewrite Hlen, Z.eqb_refl. subst name second. rewrite strncmp_after_nul.
    cbn [Z.eqb negb orb]. rewrite andb_false_r, Hl, Z.eqb_refl. reflexivity. }
  set (text := [AT] ++ name ++ [LF] ++ sequence ++ [LF]
               ++ [PLUS] ++ second ++ [LF] ++ qualities ++ [LF]) in *.
  assert (H1 : pull (mkView text false false false 0 true false)
               = (Header true, mkView text false true false 0 true false)).
  { rewrite (pull_Some (mkView text false false false 0 true false) _ _ _ _ _
               eq_refl Hsplit).
    unfold emit.
    cbn [v_records v_yielded v_stream v_extra_newline v_eof
         v_save_as_bytes v_use_custom_class].
    rewrite Hcheck. cbn [Z.eqb negb andb].
    destruct (Z.eqb_spec (len second) 0); [contradiction |]. reflexivity. }
  assert (H2 : pull (mkView text false true false 0 true false)
               = (Record_ (VBytesSequence (mkBytesSequence name sequence qualities)),
                  mkView [] false true false 1 true false)).
  { rewrite (pull_Some (mkView text false true false 0 true false) _ _ _ _ _
               eq_refl Hsplit).
    unfold emit.
    cbn [v_records v_yielded v_stream v_extra_newline v_eof
         v_save_as_bytes v_use_custom_class].
    rewrite Hcheck. reflexivity. }
  rewrite pulls_S, H1. cbn [fst snd]. rewrite pulls_S, H2. reflexivity.
Qed.

Lemma second_header_is_compared_up_to_nul_witness :
  run 3 (FastqIter_init
           (mkFile ([AT] ++ (bs "r" ++ NUL :: bs "1") ++ [LF] ++ bs "AC" ++ [LF]
                    ++ [PLUS] ++ (bs "r" ++ NUL :: bs "2") ++ [LF] ++ bs "!!" ++ [LF]) [])
           BytesSequenceClass 1)
  = [Header true;
     Record_ (VBytesSequence (mkBytesSequence (bs "r" ++ NUL :: bs "1") (bs "AC") (bs "!!")));
     End].
Proof.
  apply (second_header_is_compared_up_to_nul (bs "r") (bs "1") (bs "2") (bs "AC") (bs "!!")
           [] 1);
    try reflexivity; try lia;
    cbn; intros H; repeat (destruct H as [H | H]; [discriminate H |]); exact H.
Defined.

(** ** The end of the iteration *)

Lemma count_record_lines (l1 l2 l3 l4 rest : bytes) :
  ~ In LF l1 -> ~ In LF l2 -> ~ In LF l3 -> ~ In LF l4 ->
  count LF (l1 ++ LF :: l2 ++ LF :: l3 ++ LF :: l4 ++ LF :: rest) = 4 + count LF rest.
Proof.
  intros H1 H2 H3 H4.
  rewrite count_app, (count_zero_notin LF l1 H1), count_cons, beq_refl.
  rewrite count_app, (count_zero_notin LF l2 H2), count_cons, beq_refl.
  rewrite count_app, (count_zero_notin LF l3 H3), count_cons, beq_refl.
  rewrite count_app, (count_zero_notin LF l4 H4), count_cons, beq_refl.
  lia.
Qed.

(** As long as no error is raised, every record returned takes four
    newlines from the stream. *)
Lemma emit_lines (w v' : view) (l1 l2 l3 l4 rest : bytes) (e : event) :
  split_record (v_stream w) = Some (l1, l2, l3, l4, rest) ->
  emit w l1 l2 l3 l4 rest = (e, v') ->
  is_error e = false ->
  count LF (v_stream v') + 4 * v_records v' - (if v_extra_newline v' then 1 else 0)
  = count LF (v_stream w) + 4 * v_records w - (if v_extra_newline w then 1 else 0)
  /\ v_eof v' = v_eof w.
Proof.
  intros Hs He Herr. apply split_record_Some in Hs.
  destruct Hs as (Hs & H1 & H2 & H3 & H4).
  unfold emit in He. destruct (check_record (v_records w) l1 l2 l3 l4).
  - inversion He; subst. discriminate.
  - destruct ((v_records w =? 0) && negb (v_yielded w)); inversion He; subst;
      cbn [v_stream v_records v_extra_newline v_eof]; [auto |].
    split; [| reflexivity]. rewrite Hs, count_record_lines by assumption. lia.
Qed.

Lemma pull_lines (v v' : view) (e : event) :
  pull v = (e, v') ->
  is_error e = false ->
  (v_eof v = true -> v_stream v = []) ->
  count LF (v_stream v') + 4 * v_records v' - (if v_extra_newline v' then 1 else 0)
  = count LF (v_stream v) + 4 * v_records v - (if v_extra_newline v then 1 else 0)
  /\ (v_eof v' = true -> v_stream v' = []).
Proof.
  intros Hp Herr Hinv.
  destruct (v_eof v) eqn:Eeof.
  { unfold pull in Hp. rewrite Eeof in Hp. inversion Hp; subst. auto. }
  destruct (split_record (v_stream v)) as [[[[[l1 l2] l3] l4] rest] |] eqn:Esp.
  { rewrite (pull_Some v l1 l2 l3 l4 rest Eeof Esp) in Hp.
    destruct (emit_lines v v' l1 l2 l3 l4 rest e Esp Hp Herr) as [Hq He].
    split; [exact Hq |]. rewrite He, Eeof. discriminate. }
  destruct (v_stream v) as [|c s] eqn:Es.
  { unfold pull in Hp. rewrite Eeof, Es in Hp. cbn [split_record split_line] in Hp.
    inversion Hp; subst. cbn [v_stream v_records v_extra_newline v_eof]. auto. }
  destruct (v_extra_newline v) eqn:Ex.
  { rewrite pull_None_premature in Hp;
      [| exact Eeof | now rewrite Es | rewrite Es; discriminate | now left].
    inversion Hp; subst. discriminate. }
  destruct (beq_spec (last (c :: s) NUL) LF) as [El | El].
  { rewrite pull_None_premature in Hp;
      [| exact Eeof | now rewrite Es | rewrite Es; discriminate | right; now rewrite Es].
    inversion Hp; subst. discriminate. }
  rewrite pull_None_newline in Hp;
    [| exact Eeof | now rewrite Es | rewrite Es; discriminate | exact Ex | now rewrite Es].
  rewrite Es in Hp.
  destruct (split_record ((c :: s) ++ [LF])) as [[[[[l1 l2] l3] l4] rest] |] eqn:Esp';
    [| inversion Hp; subst; discriminate].
  assert (Hw : split_record (v_stream (with_newline v)) = Some (l1, l2, l3, l4, rest)).
  { unfold with_newline. cbn [v_stream]. now rewrite Es. }
  destruct (emit_lines (with_newline v) v' l1 l2 l3 l4 rest e Hw Hp Herr) as [Hq He].
  split.
  - rewrite Hq. unfold with_newline. cbn [v_stream v_records v_extra_newline].
    rewrite Es, count_app. change (count LF [LF]) with 1. lia.
  - rewrite He. unfold with_newline. cbn [v_eof]. rewrite Eeof. discriminate.
Qed.

(** The event of call [k + 1] comes from the state after [k] calls. *)
Lemma run_state (k : nat) :
  forall n self e,
    wf self ->
    nth_error (run n self) k = Some e ->
    firstn k (run n self) = run k self
    /\ pull (view_of (state_after k self)) = (e, view_of (state_after (S k) self)).
Proof.
  induction k as [|k IH]; intros n self e Hwf Hk.
  - destruct n as [|n]; [discriminate |].
    cbn [run state_after] in *. destruct (next_view self Hwf) as (o & Ho & _ & Hv).
    rewrite Ho in *. cbn [nth_error] in Hk. inversion Hk; subst.
    split; [reflexivity | now rewrite Hv].
  - destruct n as [|n]; [discriminate |].
    cbn [run] in Hk. cbn [state_after].
    destruct (next_view self Hwf) as (o & Ho & Hw & Hv).
    cbn [run]. rewrite Ho in *. cbn [nth_error firstn] in *.
    destruct (IH n (state_of o) e Hw Hk) as [Hf Hp].
    split; [now rewrite Hf | exact Hp].
Qed.

Lemma lines_state_after (k : nat) :
  forall self,
    wf self ->
    existsb is_error (run k self) = false ->
    (eof self = true -> v_stream (view_of self) = []) ->
    let s := state_after k self in
    count LF (v_stream (view_of s)) + 4 * number_of_records s
    - (if extra_newline s then 1 else 0)
    = count LF (v_stream (view_of self)) + 4 * number_of_records self
      - (if extra_newline self then 1 else 0)
    /\ (eof s = true -> v_stream (view_of s) = []).
Proof.
  induction k as [|k IH]; intros self Hwf Herr Hinv; [cbn; auto |].
  cbn [run state_after] in *. destruct (next_view self Hwf) as (o & Ho & Hw & Hv).
  rewrite Ho in *. cbn [existsb] in Herr. apply orb_false_iff in Herr.
  destruct Herr as [He Herr]. symmetry in Hv.
  destruct (pull_lines _ _ _ Hv He Hinv) as [Hq Hi].
  destruct (IH (state_of o) Hw Herr Hi) as [Hq' Hi'].
  cbv zeta in *. split; [| exact Hi'].
  cbn [view_of v_stream v_records v_extra_newline] in Hq, Hq' |- *. lia.
Qed.

(** X22: the iteration ends only when every line has been consumed.  If
    the calls up to some point raised no format error and the next one
    reports the end of the stream, then nothing is left in the buffer or
    in the file, and the input held exactly four newlines for each record
    returned, counting the final newline when the parser had to add it.
    A blank line after the last record, for one, is never skipped. *)
Theorem stop_means_every_line_was_consumed
    (input : bytes) (reads : list Z) (cls : sequence_class_t) (capacity : Z)
    (n k : nat) :
  1 <= capacity ->
  nth_error (run n (FastqIter_init (mkFile input reads) cls capacity)) k = Some End ->
  existsb is_error (firstn k (run n (FastqIter_init (mkFile input reads) cls capacity)))
  = false ->
  let self := state_after (S k) (FastqIter_init (mkFile input reads) cls capacity) in
  pending self = [] /\ content (file self) = []
  /\ eof self = true
  /\ count LF input + (if extra_newline self then 1 else 0) = 4 * number_of_records self
  /\ number_of_records self
     = count_records (firstn k (run n (FastqIter_init (mkFile input reads) cls capacity))).
Proof.
  intros Hc Hk Herr. cbv zeta.
  set (fresh := FastqIter_init (mkFile input reads) cls capacity) in *.
  assert (Hwf : wf fresh) by now apply wf_init.
  destruct (run_state k n fresh End Hwf Hk) as [Hf Hp].
  rewrite Hf in Herr |- *.
  destruct (lines_state_after k fresh Hwf Herr) as [Hq Hi]; [discriminate |].
  cbv zeta in Hq.
  assert (Hinit : count LF (v_stream (view_of fresh)) + 4 * number_of_records fresh
                  - (if extra_newline fresh then 1 else 0) = count LF input).
  { subst fresh. rewrite view_init. cbn. lia. }
  rewrite Hinit in Hq. clear Hinit.
  destruct (pull_lines _ _ _ Hp eq_refl Hi) as [Hq' Hi'].
  pose proof (pull_phases _ _ _ Hp) as [Hrec [He _]].
  cbn [view_of v_eof] in He. specialize (Hi' He).
  assert (Hnil : pending (state_after (S k) fresh) = []
                 /\ content (file (state_after (S k) fresh)) = []).
  { cbn [view_of v_stream] in Hi'. now apply app_eq_nil in Hi'. }
  rewrite Hi' in Hq'. change (count LF []) with 0 in Hq'.
  set (S0 := v_stream (view_of (state_after k fresh))) in *.
  cbn [view_of v_records v_extra_newline is_record] in Hq', Hrec.
  destruct Hnil as [Hpend Hfile].
  split; [exact Hpend |]. split; [exact Hfile |]. split; [exact He |].
  split; [lia |].
  rewrite (records_counted k _ Hwf) in Hrec.
  change (number_of_records fresh) with 0 in Hrec. lia.
Qed.

Lemma stop_means_every_line_was_consumed_witness :
  let self := state_after 3 (FastqIter_init (mkFile minimal_record [5]) SequenceClass 2) in
  pending self = [] /\ content (file self) = []
  /\ eof self = true
  /\ count LF minimal_record + (if extra_newline self then 1 else 0)
     = 4 * number_of_records self
  /\ number_of_records self
     = count_records
         (firstn 2 (run 3 (FastqIter_init (mkFile minimal_record [5]) SequenceClass 2))).
Proof.
  apply (stop_means_every_line_was_consumed minimal_record [5] SequenceClass 2 3 2).
  - lia.
  - vm_compute. reflexivity.
  - vm_compute. reflexivity.
Defined.

(** * Whole records in paired_fastq_heads, reversed records, the record count *)

Lemma count_record_text (two_headers : bool) (r : BytesSequence) :
  one_line_fields r -> count LF (record_lines [LF] two_headers r) = 4.
Proof.
  intros (H1 & H2 & H3 & _).
  replace (record_lines [LF] two_headers r)
    with ((AT :: bseq_name r) ++ LF :: bseq_sequence r
          ++ LF :: (PLUS :: (if two_headers then bseq_name r else []))
          ++ LF :: bseq_qualities r ++ LF :: [])
    by (unfold record_lines; reassoc).
  rewrite count_record_lines; [reflexivity | | assumption | | assumption].
  - intros [H | H]; [unfold AT, LF in H; discriminate | contradiction].
  - intros [H | H]; [unfold PLUS, LF in H; discriminate |].
    destruct two_headers; [contradiction | exact H].
Qed.

Lemma count_records_text (two_headers : bool) (rs : list BytesSequence) :
  Forall one_line_fields rs ->
  count LF (concat (map (record_lines [LF] two_headers) rs)) = 4 * len rs.
Proof.
  intros H. induction H as [|r rs Hr Hrs IH]; [reflexivity |].
  cbn [map concat]. rewrite count_app, IH, (count_record_text _ _ Hr).
  rewrite len_cons. lia.
Qed.

Lemma record_text_last (two_headers : bool) (r : BytesSequence) :
  exists body, record_lines [LF] two_headers r = body ++ [LF].
Proof.
  exists ([AT] ++ bseq_name r ++ [LF] ++ bseq_sequence r ++ [LF]
          ++ [PLUS] ++ (if two_headers then bseq_name r else []) ++ [LF]
          ++ bseq_qualities r).
  unfold record_lines. repeat rewrite <- app_assoc. reflexivity.
Qed.

Lemma records_text_last (two_headers : bool) (rs : list BytesSequence) :
  concat (map (record_lines [LF] two_headers) rs) = []
  \/ last (concat (map (record_lines [LF] two_headers) rs)) NUL = LF.
Proof.
  induction rs as [|r rs IH]; [now left | right].
  cbn [map concat]. destruct IH as [-> | IH].
  - rewrite app_nil_r. destruct (record_text_last two_headers r) as (body & ->).
    apply last_app_cons.
  - destruct (concat (map (record_lines [LF] two_headers) rs)) as [|x t] eqn:E;
      [discriminate IH |].
    rewrite last_app_ne by discriminate. exact IH.
Qed.

(** In a buffer that starts with whole records, the end of these records
    is a boundary with four newlines per record before it. *)
Lemma records_boundary (two_headers : bool) (rs : list BytesSequence) (rest : bytes) :
  Forall one_line_fields rs ->
  let text := concat (map (record_lines [LF] two_headers) rs) in
  at_boundary (text ++ rest) (len text)
  /\ newlines (text ++ rest) (len text) = 4 * len rs.
Proof.
  intros Hall. cbv zeta.
  set (text := concat (map (record_lines [LF] two_headers) rs)) in *. split.
  - destruct (records_text_last two_headers rs) as [E | E]; fold text in E.
    + left. rewrite E. reflexivity.
    + right. rewrite <- E.
      apply (byte_at_last [] text rest).
      * intros Hn. rewrite Hn in E. cbn in E. unfold NUL, LF in E. discriminate.
      * change (len (@nil byte)) with 0. lia.
  - unfold newlines. rewrite firstn_at by reflexivity.
    now apply count_records_text.
Qed.

Lemma concat_map_firstn_skipn {A : Type} (f : A -> bytes) (m : nat) (l : list A) :
  concat (map f l) = concat (map f (firstn m l)) ++ concat (map f (skipn m l)).
Proof. now rewrite <- concat_app, <- map_app, firstn_skipn. Qed.

Lemma Forall_prefix {A : Type} (P : A -> Prop) (n : nat) (l : list A) :
  Forall P l -> Forall P (firstn n l).
Proof.
  intros H. revert n. induction H as [|x l Hx Hl IH]; intros [|n]; cbn [firstn];
    constructor; auto.
Qed.

Lemma newlines_all (buf : bytes) : newlines buf (len buf) = count LF buf.
Proof. unfold newlines, len. now rewrite Nat2Z.id, firstn_all. Qed.

(** X23: [paired_fastq_heads] on buffers of whole records.  When each
    buffer is made of complete FASTQ records, as [fastq_bytes] writes
    them, followed by an unfinished piece with fewer than four newlines,
    and both are scanned to their end, the function returns the length of
    the first [m] records of each buffer, [m] being the smaller of the two
    numbers of complete records. *)
Theorem paired_fastq_heads_returns_whole_records
    (rs1 rs2 : list BytesSequence) (tail1 tail2 : bytes) (two_headers : bool) :
  Forall one_line_fields rs1 -> Forall one_line_fields rs2 ->
  count LF tail1 < 4 -> count LF tail2 < 4 ->
  let text := fun rs => concat (map (fun r => BytesSequence_fastq_bytes r two_headers) rs) in
  let m := Nat.min (length rs1) (length rs2) in
  paired_fastq_heads (text rs1 ++ tail1) (text rs2 ++ tail2)
    (len (text rs1 ++ tail1)) (len (text rs2 ++ tail2))
  = Some (len (text (firstn m rs1)), len (text (firstn m rs2))).
Proof.
  intros Hall1 Hall2 Ht1 Ht2. cbv beta zeta.
  rewrite !(map_ext (fun r => BytesSequence_fastq_bytes r two_headers)
              (record_lines [LF] two_headers))
    by (intros r; apply record_lines_fastq_bytes).
  set (T := fun rs => concat (map (record_lines [LF] two_headers) rs)).
  change (concat (map (record_lines [LF] two_headers) rs1)) with (T rs1).
  change (concat (map (record_lines [LF] two_headers) rs2)) with (T rs2).
  set (m := Nat.min (length rs1) (length rs2)).
  change (concat (map (record_lines [LF] two_headers) (firstn m rs1)))
    with (T (firstn m rs1)).
  change (concat (map (record_lines [LF] two_headers) (firstn m rs2)))
    with (T (firstn m rs2)).
  set (buf1 := T rs1 ++ tail1). set (buf2 := T rs2 ++ tail2).
  pose proof (len_nonneg buf1) as L1. pose proof (len_nonneg buf2) as L2.
  destruct (paired_fastq_heads_post buf1 buf2 (len buf1) (len buf2) L1 L2)
    as ([a b] & Hr & Hp).
  rewrite Hr. f_equal. rewrite !Z.min_id in Hp.
  destruct Hp as (A1 & A2 & A3 & A4 & A5 & A6). cbn [fst snd] in *.
  rewrite !newlines_all in A3, A4.
  assert (C1 : count LF buf1 = 4 * len rs1 + count LF tail1)
    by (subst buf1; rewrite count_app; unfold T; now rewrite count_records_text).
  assert (C2 : count LF buf2 = 4 * len rs2 + count LF tail2)
    by (subst buf2; rewrite count_app; unfold T; now rewrite count_records_text).
  pose proof (count_nonneg LF tail1). pose proof (count_nonneg LF tail2).
  assert (D1 : count LF buf1 / 4 = len rs1)
    by (rewrite C1; symmetry; apply (Z.div_unique _ 4 _ (count LF tail1)); lia).
  assert (D2 : count LF buf2 / 4 = len rs2)
    by (rewrite C2; symmetry; apply (Z.div_unique _ 4 _ (count LF tail2)); lia).
  rewrite D1, D2 in A3, A4.
  assert (Hm : Z.min (len rs1) (len rs2) = Z.of_nat m)
    by (unfold len; subst m; lia).
  rewrite Hm in A3, A4.
  assert (S1 : buf1 = T (firstn m rs1) ++ (T (skipn m rs1) ++ tail1)).
  { subst buf1. unfold T. rewrite (concat_map_firstn_skipn _ m rs1) at 1.
    now rewrite <- app_assoc. }
  assert (S2 : buf2 = T (firstn m rs2) ++ (T (skipn m rs2) ++ tail2)).
  { subst buf2. unfold T. rewrite (concat_map_firstn_skipn _ m rs2) at 1.
    now rewrite <- app_assoc. }
  assert (F1 : Forall one_line_fields (firstn m rs1)) by now apply Forall_prefix.
  assert (F2 : Forall one_line_fields (firstn m rs2)) by now apply Forall_prefix.
  destruct (records_boundary two_headers (firstn m rs1) (T (skipn m rs1) ++ tail1) F1)
    as [B1 N1].
  destruct (records_boundary two_headers (firstn m rs2) (T (skipn m rs2) ++ tail2) F2)
    as [B2 N2].
  fold (T (firstn m rs1)) in B1, N1. fold (T (firstn m rs2)) in B2, N2.
  rewrite <- S1 in B1, N1. rewrite <- S2 in B2, N2.
  assert (M1 : len (firstn m rs1) = Z.of_nat m)
    by (unfold len; rewrite length_firstn; subst m; lia).
  assert (M2 : len (firstn m rs2) = Z.of_nat m)
    by (unfold len; rewrite length_firstn; subst m; lia).
  rewrite M1 in N1. rewrite M2 in N2.
  assert (P1 : 0 <= len (T (firstn m rs1)) <= len buf1).
  { split; [apply len_nonneg |]. rewrite S1, len_app.
    pose proof (len_nonneg (T (skipn m rs1) ++ tail1)). lia. }
  assert (P2 : 0 <= len (T (firstn m rs2)) <= len buf2).
  { split; [apply len_nonneg |]. rewrite S2, len_app.
    pose proof (len_nonneg (T (skipn m rs2) ++ tail2)). lia. }
  f_equal.
  - destruct (Z.le_ge_cases a (len (T (firstn m rs1)))).
    + apply (boundary_unique buf1); [lia | lia | exact B1 | lia].
    + symmetry. apply (boundary_unique buf1); [lia | lia | exact A5 | lia].
  - destruct (Z.le_ge_cases b (len (T (firstn m rs2)))).
    + apply (boundary_unique buf2); [lia | lia | exact B2 | lia].
    + symmetry. apply (boundary_unique buf2); [lia | lia | exact A6 | lia].
Qed.

Lemma paired_fastq_heads_returns_whole_records_witness :
  let text := fun rs => concat (map (fun r => BytesSequence_fastq_bytes r false) rs) in
  paired_fastq_heads
    (text [mkBytesSequence (bs "a/1") (bs "AC") (bs "!!");
           mkBytesSequence (bs "b/1") (bs "G") (bs "#")] ++ bs "@c/1")
    (text [mkBytesSequence (bs "a/2") (bs "TTT") (bs "###")] ++ [AT; LF; LF])
    (len (text [mkBytesSequence (bs "a/1") (bs "AC") (bs "!!");
                mkBytesSequence (bs "b/1") (bs "G") (bs "#")] ++ bs "@c/1"))
    (len (text [mkBytesSequence (bs "a/2") (bs "TTT") (bs "###")] ++ [AT; LF; LF]))
  = Some (len (text (firstn 1 [mkBytesSequence (bs "a/1") (bs "AC") (bs "!!");
                               mkBytesSequence (bs "b/1") (bs "G") (bs "#")])),
          len (text (firstn 1 [mkBytesSequence (bs "a/2") (bs "TTT") (bs "###")]))).
Proof.
  apply (paired_fastq_heads_returns_whole_records
           [mkBytesSequence (bs "a/1") (bs "AC") (bs "!!");
            mkBytesSequence (bs "b/1") (bs "G") (bs "#")]
           [mkBytesSequence (bs "a/2") (bs "TTT") (bs "###")]
           (bs "@c/1") [AT; LF; LF] false).
  - repeat constructor; cbn; try reflexivity;
      intros H; repeat (destruct H as [H | H]; [discriminate H |]); exact H.
  - repeat constructor; cbn; try reflexivity;
      intros H; repeat (destruct H as [H | H]; [discriminate H |]); exact H.
  - vm_compute. reflexivity.
  - vm_compute. reflexivity.
Defined.

(** ** Reversed records *)

Lemma nth_map_zseq {A : Type} (f : Z -> A) (d : A) (n : Z) (k : nat) :
  (k < Z.to_nat n)%nat -> nth k (map f (zseq n)) d = f (Z.of_nat k).
Proof.
  intros Hk. unfold zseq. rewrite map_map.
  rewrite (nth_indep _ d (f (Z.of_nat 0))) by (rewrite length_map, length_seq; exact Hk).
  rewrite (map_nth (fun i => f (Z.of_nat i))). now rewrite seq_nth.
Qed.

Lemma getitem_reverse {A : Type} (d : A) (s : list A) :
  len s <= PY_SSIZE_T_MAX ->
  seq_getitem d s (Slice None None (Some (-1))) = inl (rev s).
Proof.
  intros Hmax. pose proof (len_nonneg s) as Hl.
  unfold seq_getitem, PySlice_Unpack.
  change (slice_index (-1)) with (-1). change (-1 =? 0) with false.
  change (-1 <? - PY_SSIZE_T_MAX) with false. cbv iota.
  change (-1 <? 0) with true. cbv iota.
  unfold PySlice_AdjustIndices.
  assert (Ha : adjust_index (len s) (-1) PY_SSIZE_T_MAX = len s - 1).
  { unfold adjust_index. change (PY_SSIZE_T_MAX <? 0) with false.
    change (-1 <? 0) with true. cbv iota.
    destruct (Z.geb_spec PY_SSIZE_T_MAX (len s)); lia. }
  assert (Hb : adjust_index (len s) (-1) PY_SSIZE_T_MIN = -1).
  { unfold adjust_index. change (PY_SSIZE_T_MIN <? 0) with true.
    change (-1 <? 0) with true. cbv iota.
    destruct (Z.ltb_spec (PY_SSIZE_T_MIN + len s) 0); [reflexivity |].
    unfold PY_SSIZE_T_MIN, PY_SSIZE_T_MAX in *. lia. }
  rewrite Ha, Hb. change (-1 <? 0) with true. cbv iota.
  destruct (Z.ltb_spec (-1) (len s - 1)) as [Hpos | Hz].
  - change (- -1) with 1. rewrite Z.quot_1_r.
    replace (len s - 1 - -1 - 1 + 1) with (len s) by lia.
    destruct (Z.leb_spec (len s) 0); [lia |]. f_equal.
    apply (nth_ext _ _ d d).
    + rewrite length_map, length_rev. unfold zseq. rewrite length_map, length_seq.
      unfold len. lia.
    + intros k Hk. rewrite length_map in Hk. unfold zseq in Hk.
      rewrite length_map, length_seq in Hk.
      rewrite nth_map_zseq by exact Hk.
      rewrite rev_nth by (unfold len in Hk; lia).
      f_equal. unfold len in *. lia.
  - change (0 <=? 0) with true. cbv iota.
    assert (E : s = []) by (apply len_zero; lia). now rewrite E.
Qed.

(** X24: [r[::-1]] reverses a record.  For a record whose qualities are
    absent or as long as its sequence, the slice with step -1 is a record
    with the same name, the reversed sequence and the reversed qualities,
    so that each base keeps its quality; reversing twice gives the record
    back. *)
Theorem reversed_slice_reverses_the_record (r : Sequence) :
  match seq_qualities r with
  | Some q => len q = len (seq_sequence r)
  | None => True
  end ->
  Sequence_len r <= PY_SSIZE_T_MAX ->
  exists r',
    Sequence_getitem r (Slice None None (Some (-1))) = inl r'
    /\ seq_name r' = seq_name r
    /\ seq_sequence r' = rev (seq_sequence r)
    /\ seq_qualities r' = option_map (@rev N) (seq_qualities r)
    /\ Sequence_getitem r' (Slice None None (Some (-1))) = inl r.
Proof.
  intros Hv Hmax. destruct r as [name s q]. unfold Sequence_len in Hmax.
  cbn [seq_name seq_sequence seq_qualities] in *.
  assert (Hone : forall s q,
             match q with Some q => len q = len s | None => True end ->
             len s <= PY_SSIZE_T_MAX ->
             Sequence_getitem (mkSequence name s q) (Slice None None (Some (-1)))
             = inl (mkSequence name (rev s) (option_map (@rev N) q))).
  { intros s0 q0 Hv0 Hm0. unfold Sequence_getitem, str_getitem.
    cbn [seq_name seq_sequence seq_qualities].
    rewrite getitem_reverse by exact Hm0.
    destruct q0 as [q0 |].
    - rewrite getitem_reverse by lia.
      unfold Sequence_call, Sequence_init.
      assert (Hl : len (rev q0) = len (rev s0))
        by (unfold len in *; rewrite !length_rev; exact Hv0).
      rewrite Hl, Z.eqb_refl. reflexivity.
    - reflexivity. }
  eexists. split; [apply Hone; assumption |].
  cbn [seq_name seq_sequence seq_qualities].
  split; [reflexivity |]. split; [reflexivity |]. split; [reflexivity |].
  rewrite Hone.
  - rewrite rev_involutive. destruct q as [q |]; cbn [option_map];
      [rewrite rev_involutive |]; reflexivity.
  - destruct q as [q |]; cbn [option_map]; [| exact I].
    unfold len in *. rewrite !length_rev. exact Hv.
  - unfold len in *. rewrite length_rev. exact Hmax.
Qed.

Lemma reversed_slice_reverses_the_record_witness :
  exists r',
    Sequence_getitem (mkSequence [114]%N [65; 67; 71]%N (Some [33; 34; 35]%N))
      (Slice None None (Some (-1))) = inl r'
    /\ seq_name r' = [114]%N
    /\ seq_sequence r' = rev [65; 67; 71]%N
    /\ seq_qualities r' = option_map (@rev N) (Some [33; 34; 35]%N)
    /\ Sequence_getitem r' (Slice None None (Some (-1)))
       = inl (mkSequence [114]%N [65; 67; 71]%N (Some [33; 34; 35]%N)).
Proof.
  apply (reversed_slice_reverses_the_record
           (mkSequence [114]%N [65; 67; 71]%N (Some [33; 34; 35]%N))).
  - reflexivity.
  - vm_compute. discriminate.
Defined.

(** ** The record count *)

(** X25: the read-only attribute [number_of_records] counts the records
    returned.  After any number of calls it equals the number of calls
    that returned a record: the call that returned the header flag, the
    calls that raised an error and those that reported the end of the
    stream do not count. *)
Theorem number_of_records_counts_returned_records
    (input : bytes) (reads : list Z) (cls : sequence_class_t) (capacity : Z) (k : nat) :
  1 <= capacity ->
  number_of_records (state_after k (FastqIter_init (mkFile input reads) cls capacity))
  = count_records (run k (FastqIter_init (mkFile input reads) cls capacity))
  /\ length (run k (FastqIter_init (mkFile input reads) cls capacity)) = k.
Proof.
  intros Hc. split.
  - rewrite (records_counted k _ (wf_init _ cls capacity Hc)). reflexivity.
  - rewrite run_pulls by now apply wf_init. apply length_pulls.
Qed.

Lemma number_of_records_counts_returned_records_witness :
  number_of_records
    (state_after 4 (FastqIter_init (mkFile (minimal_record ++ truncated_record) [3])
                      BytesSequenceClass 2))
  = count_records
      (run 4 (FastqIter_init (mkFile (minimal_record ++ truncated_record) [3])
                BytesSequenceClass 2)).
Proof.
  refine (proj1 (number_of_records_counts_returned_records
                   (minimal_record ++ truncated_record) [3] BytesSequenceClass 2 4 _)).
  lia.
Defined.

(** * The offending byte of a format error *)


